(** * Hire_Harsh: the request-processing core, embedded and verified

    A shallow embedding of the validation gate ([app/modules/guardrails.py]),
    the retrieval index life cycle and the text ingestion
    ([app/modules/vectorstore_provider.py]), the three pipeline singletons
    ([app/modules/rag_pipeline.py], [summary_pipeline.py], [job_matching.py])
    and the job-match route ([app/api/routes.py]).

    Python exceptions are an explicit [outcome]; the collaborators the code
    calls (content classifiers, loaders, the index, the language model) are
    fields of environment records, so every theorem quantifies over whatever
    they answer. *)

From Stdlib Require Import List NArith ZArith Bool String Ascii Lia QArith.
From Stdlib Require Import DecimalString.
Import ListNotations.

Set Implicit Arguments.

(** ** Python values *)

Module Py.

(** A Python [str] is a sequence of Unicode code points. *)
Definition codepoint := N.
Definition pystr := list codepoint.

Definition of_string (s : string) : pystr :=
  map N_of_ascii (list_ascii_of_string s).

(** [len(s)] *)
Definition len (s : pystr) : Z := Z.of_nat (List.length s).

(** [str(n)] for an [int]. *)
Definition str_of_int (n : Z) : pystr :=
  of_string (NilZero.string_of_int (Z.to_int n)).

(** The code points [str.isspace] accepts, which are the ones [str.strip()]
    removes and the ones [\s] matches in a [str] pattern. *)
Definition isspace (c : codepoint) : bool :=
  ((9 <=? c) && (c <=? 13) || (28 <=? c) && (c <=? 32)
   || (c =? 133) || (c =? 160) || (c =? 5760)
   || (8192 <=? c) && (c <=? 8202)
   || (c =? 8232) || (c =? 8233) || (c =? 8239) || (c =? 8287)
   || (c =? 12288))%N.

Fixpoint lstrip (s : pystr) : pystr :=
  match s with
  | c :: t => if isspace c then lstrip t else s
  | [] => []
  end.

Definition rstrip (s : pystr) : pystr := rev (lstrip (rev s)).

(** [s.strip()] *)
Definition strip (s : pystr) : pystr := rstrip (lstrip s).

Fixpoint startswith (p s : pystr) : bool :=
  match p, s with
  | [], _ => true
  | x :: p', y :: s' => (x =? y)%N && startswith p' s'
  | _ :: _, [] => false
  end.

(** [p in s] for two strings. *)
Fixpoint contains (p s : pystr) : bool :=
  startswith p s ||
  match s with
  | [] => false
  | _ :: s' => contains p s'
  end.

Definition is_ascii (c : codepoint) : bool := (c <? 128)%N.

Definition ascii_isupper (c : codepoint) : bool := ((65 <=? c) && (c <=? 90))%N.

Definition ascii_tolower (c : codepoint) : codepoint :=
  if ascii_isupper c then (c + 32)%N else c.

Definition ascii_isalnum (c : codepoint) : bool :=
  ((48 <=? c) && (c <=? 57) || (65 <=? c) && (c <=? 90)
   || (97 <=? c) && (c <=? 122))%N.

(** What the interpreter's Unicode database answers outside ASCII. *)
Record Unicode := {
  unicode_lower : pystr -> pystr;            (* [str.lower()] of a text with non-ASCII code points *)
  unicode_tolower : codepoint -> codepoint;  (* simple lower-case mapping, used by [re.IGNORECASE] *)
  unicode_isalnum : codepoint -> bool        (* [str.isalnum()] of one code point, used by [\w] *)
}.

(** [s.lower()]: on ASCII text, A-Z go to a-z and nothing else moves. *)
Definition lower (u : Unicode) (s : pystr) : pystr :=
  if forallb is_ascii s then map ascii_tolower s else unicode_lower u s.

(** A database that knows no case and no letters outside ASCII; it agrees
    with the interpreter on ASCII text. *)
Definition ascii_only : Unicode :=
  {| unicode_lower := fun s => s;
     unicode_tolower := fun c => c;
     unicode_isalnum := fun _ => false |}.

(** Exceptions, as far as the handlers of this program tell them apart:
    [ValueError] (with its subclasses) against every other [Exception].
    The argument is [str(e)]. *)
Inductive exn : Type :=
| ValueError (msg : pystr)
| Exception (msg : pystr).

Definition str_of_exn (e : exn) : pystr :=
  match e with ValueError m | Exception m => m end.

Definition is_ValueError (e : exn) : bool :=
  match e with ValueError _ => true | Exception _ => false end.

(** The result of running a piece of Python. *)
Inductive outcome (A : Type) : Type :=
| Returns (a : A)
| Raises (e : exn).

Arguments Returns {A} a.
Arguments Raises {A} e.

Definition bind {A B} (m : outcome A) (k : A -> outcome B) : outcome B :=
  match m with
  | Returns a => k a
  | Raises e => Raises e
  end.

(** [try: m  except Exception as e: h e] *)
Definition try_except {A} (m : outcome A) (h : exn -> outcome A) : outcome A :=
  match m with
  | Returns a => Returns a
  | Raises e => h e
  end.

Definition returned {A} (m : outcome A) : bool :=
  match m with Returns _ => true | Raises _ => false end.

(** An argument that may or may not be a [str]; of another object only its
    truth value matters to the code. *)
Inductive pyobj : Type :=
| PyStr (s : pystr)
| PyOther (truthy : bool).

End Py.

Import Py.

Declare Scope py_scope.
Delimit Scope py_scope with py.
Notation "x <- m ;; k" := (bind m (fun x => k))
  (at level 61, m at next level, right associativity) : py_scope.
Notation "m ;;; k" := (bind m (fun _ => k))
  (at level 61, right associativity) : py_scope.
Open Scope py_scope.

(** String literals of the source. *)
Notation "'py' s" := (of_string s%string) (at level 9, s at level 0, only parsing).

(** ** The fragment of [re] the validators use *)

Module Re.

(** One-character items. [Ci c] is a cased literal compiled under
    [re.IGNORECASE], [c] being its lower-case form; [Chr c] is an uncased
    literal, matched as it is. *)
Inductive atom : Type :=
| Chr (c : codepoint)
| Ci (c : codepoint)
| AWord                       (* \w *)
| ASpace.                     (* \s *)

Inductive regex : Type :=
| Eps
| Atom (a : atom)
| Boundary                    (* \b *)
| Seq (r1 r2 : regex)
| Alt (r1 r2 : regex)
| Plus (a : atom)             (* a+ *)
| Star (a : atom).            (* a* *)

Definition ascii_isalpha (c : codepoint) : bool :=
  ((65 <=? c) && (c <=? 90) || (97 <=? c) && (c <=? 122))%N.

(** A literal of a pattern compiled with [re.IGNORECASE]. *)
Definition literal (c : codepoint) : atom :=
  if is_ascii c then (if ascii_isalpha c then Ci (ascii_tolower c) else Chr c)
  else Ci c.

Fixpoint lit (s : pystr) : regex :=
  match s with
  | [] => Eps
  | c :: t => Seq (Atom (literal c)) (lit t)
  end.

Fixpoint alternatives (rs : list regex) : regex :=
  match rs with
  | [] => Eps
  | [r] => r
  | r :: rs' => Alt r (alternatives rs')
  end.

(** Lower-case letters that also match a second lower-case letter when case
    is ignored: i with dotless i, s with long s. *)
Definition extra_cases (lo : codepoint) : list codepoint :=
  if (lo =? 105)%N then [305%N] else if (lo =? 115)%N then [383%N] else [].

Section Matching.

Variable u : Unicode.

Definition tolower (c : codepoint) : codepoint :=
  if is_ascii c then ascii_tolower c else unicode_tolower u c.

Definition isword (c : codepoint) : bool :=
  if is_ascii c then ascii_isalnum c || (c =? 95)%N else unicode_isalnum u c.

Definition atom_matches (a : atom) (c : codepoint) : bool :=
  match a with
  | Chr x => (c =? x)%N
  | Ci lo => (tolower c =? lo)%N
             || existsb (fun k => (tolower c =? k)%N) (extra_cases lo)
  | AWord => isword c
  | ASpace => isspace c
  end.

Definition word_before (prev : option codepoint) : bool :=
  match prev with Some c => isword c | None => false end.

Definition word_after (s : pystr) : bool :=
  match s with c :: _ => isword c | [] => false end.

(** The matcher carries the character before the current position (for
    [\b]) and a continuation for the rest of the pattern. *)
Definition cont := option codepoint -> pystr -> bool.

Fixpoint star (a : atom) (k : cont) (prev : option codepoint) (s : pystr) : bool :=
  match s with
  | c :: t => (atom_matches a c && star a k (Some c) t) || k prev s
  | [] => k prev s
  end.

Fixpoint matches (r : regex) (k : cont) (prev : option codepoint) (s : pystr) : bool :=
  match r with
  | Eps => k prev s
  | Atom a =>
      match s with
      | c :: t => atom_matches a c && k (Some c) t
      | [] => false
      end
  | Boundary => xorb (word_before prev) (word_after s) && k prev s
  | Seq r1 r2 => matches r1 (matches r2 k) prev s
  | Alt r1 r2 => matches r1 k prev s || matches r2 k prev s
  | Plus a =>
      match s with
      | c :: t => atom_matches a c && star a k (Some c) t
      | [] => false
      end
  | Star a => star a k prev s
  end.

Fixpoint search_from (r : regex) (prev : option codepoint) (s : pystr) : bool :=
  matches r (fun _ _ => true) prev s ||
  match s with
  | c :: t => search_from r (Some c) t
  | [] => false
  end.

(** [re.search(r, s, re.IGNORECASE) is not None] *)
Definition search (r : regex) (s : pystr) : bool := search_from r None s.

End Matching.

End Re.

(** ** Configuration ([app/config.py]) *)

Module Config.

Record SecurityConfig := {
  max_query_length : Z;
  max_job_text_length : Z;
  min_job_text_length : Z
}.

Record VectorStoreConfig := { retrieval_k : Z }.

Record DataPaths := {
  cv_path : pystr;
  about_me_path : pystr;
  vector_db_path : pystr
}.

Record CandidateConfig := { name : pystr }.

Record AppConfig := {
  security : SecurityConfig;
  vectorstore : VectorStoreConfig;
  data : DataPaths;
  candidate : CandidateConfig;
  chat_fallback_response : pystr
}.

(** The defaults of the classes. *)
Definition defaults : AppConfig :=
  {| security := {| max_query_length := 1000;
                    max_job_text_length := 5000;
                    min_job_text_length := 50 |};
     vectorstore := {| retrieval_k := 8 |};
     data := {| cv_path := py "data/Harsh Jaiswal Resume 4Dec.pdf";
                about_me_path := py "data/about_me.md";
                vector_db_path := py "data/vector_db" |};
     candidate := {| name := py "Harsh Jaiswal" |};
     chat_fallback_response :=
       py "I'm sorry, but I cannot provide a response to that query." |}.

End Config.

Import Config.

(** ** The validation gate ([app/modules/guardrails.py]) *)

Module Guardrails.

Local Open Scope Z_scope.

(** The validators of the Guardrails hub, when the package is importable.
    Each one either lets a text pass or raises. *)
Record Hub := {
  ToxicLanguage : Q -> pystr -> outcome unit;   (* threshold, text *)
  ProfanityFree : pystr -> outcome unit;
  ReadingTime : Q -> pystr -> outcome unit      (* reading_time, text *)
}.

(** What a validator runs against: the interpreter's Unicode database and
    [GUARDRAILS_AVAILABLE] ([None] when the import failed and [MockGuard]
    stands in). *)
Record Env := {
  unicode : Unicode;
  guardrails : option Hub
}.

Definition inappropriate_words : list pystr := [py "fuck"; py "shit"; py "damn"].

(** [MockGuard.validate] *)
Definition MockGuard_validate (u : Unicode) (text : pystr) : outcome pystr :=
  if existsb (fun word => contains word (lower u text)) inappropriate_words
  then Raises (Exception (py "Content contains inappropriate language"))
  else Returns text.

Definition too_short_message : pystr := py "Query must be at least 3 characters long".

Definition too_long_message (max : Z) : pystr :=
  py "Query too long. Maximum " ++ str_of_int max ++ py " characters allowed.".

Definition irrelevant_message : pystr :=
  py "Please ask questions related to professional qualifications and experience".

Definition irrelevant_keywords : list pystr :=
  [py "weather"; py "sports"; py "cooking"; py "movies"; py "games"].

Definition known_messages : list pystr :=
  [py "query must be at least 3 characters long";
   py "query too long";
   py "please ask questions related to professional qualifications and experience"].

Section QueryValidator.

Variable env : Env.
Variable config : AppConfig.

(** The content checks that open [validate_query_input]. *)
Definition query_content_validation (query : pystr) : outcome unit :=
  match guardrails env with
  | Some hub =>
      ToxicLanguage hub (1 # 2)%Q query ;;;
      ProfanityFree hub query
  | None =>
      MockGuard_validate (unicode env) query ;;;
      Returns tt
  end.

(** The body of the [try] of [validate_query_input]. *)
Definition validate_query_checks (query : pystr) : outcome pystr :=
  query_content_validation query ;;;
  if len (strip query) <? 3 then
    Raises (ValueError too_short_message)
  else if len query >? max_query_length (security config) then
    Raises (ValueError (too_long_message (max_query_length (security config))))
  else if existsb (fun keyword => contains keyword (lower (unicode env) query))
                  irrelevant_keywords then
    Raises (ValueError irrelevant_message)
  else
    Returns query.

(** The [except Exception as e] clause of [validate_query_input]. *)
Definition query_error_handler (e : exn) : outcome pystr :=
  let error_message := lower (unicode env) (str_of_exn e) in
  if contains (py "injection") error_message then
    Raises (ValueError (py "Invalid query format detected. Please rephrase your question"))
  else if existsb (fun term => contains term error_message)
                  [py "profanity"; py "toxic:"] then
    Raises (ValueError (py "Please rephrase your question professionally"))
  else if existsb (fun term => contains term error_message) known_messages then
    Raises e
  else
    Raises (ValueError (py "Unable to process this query. Please rephrase your question")).

Definition validate_query_input (query : pystr) : outcome pystr :=
  try_except (validate_query_checks query) query_error_handler.

Definition response_content_validation (response : pystr) : outcome unit :=
  match guardrails env with
  | Some hub =>
      ToxicLanguage hub (3 # 10)%Q response ;;;
      ProfanityFree hub response ;;;
      ReadingTime hub (1 # 2)%Q response
  | None =>
      MockGuard_validate (unicode env) response ;;;
      Returns tt
  end.

Definition validate_response_output (response : pystr) : outcome pystr :=
  try_except
    (response_content_validation response ;;; Returns response)
    (fun _ => Returns (chat_fallback_response config)).

End QueryValidator.

(** The patterns of [validate_job_text]. *)
Definition keyword_pattern (words : list pystr) : Re.regex :=
  Re.Seq Re.Boundary (Re.Seq (Re.alternatives (map Re.lit words)) Re.Boundary).

Definition english_keywords : Re.regex :=
  keyword_pattern
    [py "job"; py "position"; py "role"; py "responsibilities"; py "skills";
     py "qualifications"; py "experience"; py "requirements"].

(** [228] is a-umlaut. *)
Definition german_keywords : Re.regex :=
  keyword_pattern
    [py "arbeit"; py "position"; py "rolle"; py "verantwortlichkeiten";
     py "f" ++ [228%N] ++ py "higkeiten";
     py "qualifikationen"; py "erfahrung"; py "anforderungen"].

Definition dangerous_tags : list Re.regex :=
  map Re.lit
    [py "<script"; py "<iframe"; py "<object"; py "<embed"; py "<form";
     py "<img"; py "<svg"; py "<math"; py "<link"; py "<style"; py "<video";
     py "<audio"; py "<base"; py "<meta"; py "<body"; py "<html"; py "<input";
     py "<button"].

(** [on\w+\s*=] *)
Definition dangerous_events : list Re.regex :=
  [Re.Seq (Re.lit (py "on"))
     (Re.Seq (Re.Plus Re.AWord) (Re.Seq (Re.Star Re.ASpace) (Re.Atom (Re.Chr 61%N))))].

Definition job_too_long_message (max_length : Z) : pystr :=
  py "Job description text is too long. Maximum " ++ str_of_int max_length
  ++ py " characters allowed.".

Definition job_keywords_message : pystr :=
  py "Job description text must contain key sections like 'experience', 'position', 'role', etc.".

Definition job_tags_message : pystr :=
  py "Job description text contains potentially harmful HTML tags.".

Definition job_events_message : pystr :=
  py "Job description text contains potentially harmful event handlers.".

Section InputValidator.

Variable env : Env.
Variable config : AppConfig.

Definition has_keywords (text : pystr) : bool :=
  Re.search (unicode env) english_keywords text
  || Re.search (unicode env) german_keywords text.

Definition has_dangerous_tag (text : pystr) : bool :=
  existsb (fun pattern => Re.search (unicode env) pattern text) dangerous_tags.

Definition has_dangerous_event (text : pystr) : bool :=
  existsb (fun pattern => Re.search (unicode env) pattern text) dangerous_events.

Definition validate_job_text (text : pyobj) : outcome bool :=
  match text with
  | PyOther _ => Returns false
  | PyStr [] => Returns false
  | PyStr text =>
      let text := strip text in
      let min_length := min_job_text_length (security config) in
      let max_length := max_job_text_length (security config) in
      if len text <? min_length then Returns false
      else if len text >? max_length then
        Raises (ValueError (job_too_long_message max_length))
      else if negb (has_keywords text) then
        Raises (ValueError job_keywords_message)
      else if has_dangerous_tag text then
        Raises (ValueError job_tags_message)
      else if has_dangerous_event text then
        Raises (ValueError job_events_message)
      else Returns true
  end.

End InputValidator.

End Guardrails.

Import Guardrails.

(** ** Objects and the process state *)

Module Runtime.

(** A [dict] with [str] keys, in insertion order. *)
Definition dict (V : Type) := list (pystr * V).

Fixpoint pystr_eqb (a b : pystr) : bool :=
  match a, b with
  | [], [] => true
  | x :: a', y :: b' => (x =? y)%N && pystr_eqb a' b'
  | _, _ => false
  end.

(** [d.get(key)] *)
Fixpoint get {V} (key : pystr) (d : dict V) : option V :=
  match d with
  | [] => None
  | (k, v) :: d' => if pystr_eqb k key then Some v else get key d'
  end.

(** [d.get(key, default)] *)
Definition get_default {V} (key : pystr) (default : V) (d : dict V) : V :=
  match get key d with Some v => v | None => default end.

(** [d[key] = v] *)
Fixpoint set_item {V} (key : pystr) (v : V) (d : dict V) : dict V :=
  match d with
  | [] => [(key, v)]
  | (k, x) :: d' => if pystr_eqb k key then (k, v) :: d' else (k, x) :: set_item key v d'
  end.

(** [langchain_core.documents.Document] *)
Record Document := {
  page_content : pystr;
  metadata : dict pystr
}.

Inductive Role := human | assistant.

(** [HumanMessage(content=...)] and [AIMessage(content=...)] *)
Record Message := { role : Role; content : pystr }.

Definition HumanMessage (c : pystr) : Message := {| role := human; content := c |}.
Definition AIMessage (c : pystr) : Message := {| role := assistant; content := c |}.

(** The values the result dictionaries hold. *)
#[local] Unset Elimination Schemes.
Inductive value : Type :=
| VNone
| VStr (s : pystr)
| VStrs (l : list pystr)
| VDocs (l : list Document)
| VMsgs (l : list Message)
| VDict (d : list (pystr * value)).
#[local] Set Elimination Schemes.

(** Handles of objects the libraries own. *)
Definition Chroma := N.
Definition Embeddings := N.
Definition LanguageModel := N.

Inductive ChainKind := qa | summarization | matching.

(** A built Chain. [serial] is the length of the call log when it was
    built, which tells two builds apart. *)
Record Chain := {
  kind : ChainKind;
  serial : nat;
  model : LanguageModel;
  database : option Chroma
}.

(** The run tree of the tracing library. *)
Record RunTree := { start_time : pystr }.

(** Calls that leave the process, in the order they were made. *)
Inductive event : Type :=
| listdir_call (path : pystr)
| embedding_model_call
| language_model_call
| Chroma_call (persist_directory : pystr)
| count_call (db : Chroma)
| PyPDFLoader_call (path : pystr)
| TextLoader_call (path : pystr)
| split_call (chunk_size chunk_overlap : Z) (documents : list Document)
| from_documents_call (chunks : list Document) (persist_directory : pystr)
| retriever_call (db : Chroma) (k : Z) (query : pystr)
| assemble_call (k : ChainKind)
| invoke_call (c : Chain)
| analytics_call.

(** The singletons. [None] in a chain field is Python's [None]. *)
Record ChatRAGPipeline := {
  chat_initialized : bool;
  qa_chain : option Chain;
  chat_history : option (list Message)
}.

Record SummaryGenerator := {
  summary_initialized : bool;
  summary_llm : option LanguageModel;
  summary_chain : option Chain
}.

Record JobMatchingAnalyzer := {
  job_initialized : bool;
  job_llm : option LanguageModel;
  matching_chain : option Chain
}.

(** The memory of one server process: the module-level singletons and the
    log of outside calls. An instance that [__new__] has not created yet
    and one whose [__init__] has not finished both have their
    [_initialized] flag off. *)
Record Process := {
  trace : list event;
  chat : ChatRAGPipeline;
  summary : SummaryGenerator;
  job : JobMatchingAnalyzer
}.

Definition fresh : Process :=
  {| trace := [];
     chat := {| chat_initialized := false; qa_chain := None; chat_history := None |};
     summary := {| summary_initialized := false; summary_llm := None; summary_chain := None |};
     job := {| job_initialized := false; job_llm := None; matching_chain := None |} |}.

Definition with_trace (t : list event) (p : Process) : Process :=
  {| trace := t; chat := chat p; summary := summary p; job := job p |}.
Definition with_chat (c : ChatRAGPipeline) (p : Process) : Process :=
  {| trace := trace p; chat := c; summary := summary p; job := job p |}.
Definition with_summary (s : SummaryGenerator) (p : Process) : Process :=
  {| trace := trace p; chat := chat p; summary := s; job := job p |}.
Definition with_job (j : JobMatchingAnalyzer) (p : Process) : Process :=
  {| trace := trace p; chat := chat p; summary := summary p; job := j |}.

(** Everything outside the process. An answer may depend on all the calls
    made so far, so the same call can be answered differently later. *)
Record World := {
  unicode_db : Unicode;
  GUARDRAILS_AVAILABLE : bool;
  hub : list event -> Hub;
  os_path_exists : list event -> pystr -> bool;
  os_listdir : list event -> pystr -> outcome (list pystr);
  (* [ModelProvider.get_embedding_model] and [get_language_model]: the
     constructor of the configured backend's client, which may raise *)
  get_embedding_model : list event -> outcome Embeddings;
  get_language_model : list event -> outcome LanguageModel;
  Chroma_open : list event -> pystr -> outcome Chroma;
  collection_count : list event -> Chroma -> outcome Z;
  PyPDFLoader_load : list event -> pystr -> outcome (list Document);
  TextLoader_load : list event -> pystr -> outcome (list Document);
  (* [RecursiveCharacterTextSplitter(chunk_size, chunk_overlap).split_documents] *)
  split_documents : Z -> Z -> list Document -> list Document;
  Chroma_from_documents : list event -> list Document -> pystr -> outcome Chroma;
  retriever_invoke : list event -> Chroma -> Z -> pystr -> outcome (list Document);
  (* prompt templates and the library's chain constructors *)
  assemble : list event -> ChainKind -> outcome unit;
  (* the retrieval chain proper: context and answer *)
  base_qa_chain : list event -> Chain -> pystr -> list Message
                  -> outcome (list Document * pystr);
  stuff_documents_chain : list event -> Chain -> list Document -> outcome pystr;
  get_current_run_tree : list event -> option RunTree;
  (* [template.format(candidate_name=name)] *)
  format_candidate_name : pystr -> pystr -> outcome pystr;
  log_job_matching_advanced : list event -> outcome unit
}.

Definition validation_env (w : World) (t : list event) : Env :=
  {| unicode := unicode_db w;
     guardrails := if GUARDRAILS_AVAILABLE w then Some (hub w t) else None |}.

(** Programs: they read and update the process and return or raise. *)
Definition M (A : Type) : Type := Process -> Process * outcome A.

Definition ret {A} (a : A) : M A := fun p => (p, Returns a).

Definition raise {A} (e : exn) : M A := fun p => (p, Raises e).

Definition mbind {A B} (m : M A) (k : A -> M B) : M B :=
  fun p => match m p with
           | (p', Returns a) => k a p'
           | (p', Raises e) => (p', Raises e)
           end.

(** [try: m  except Exception as e: h e]; what [m] did to the process
    before it raised stays done. *)
Definition try_ {A} (m : M A) (h : exn -> M A) : M A :=
  fun p => match m p with
           | (p', Returns a) => (p', Returns a)
           | (p', Raises e) => h e p'
           end.

Definition lift {A} (o : outcome A) : M A := fun p => (p, o).

(** An outside call: logged, and answered from the log before it. *)
Definition call {A} (ev : event) (answer : list event -> outcome A) : M A :=
  fun p => (with_trace (trace p ++ [ev]) p, answer (trace p)).

(** An outside query that cannot fail and is not logged. *)
Definition ask {A} (answer : list event -> A) : M A :=
  fun p => (p, Returns (answer (trace p))).

(** A validator of the gate, run against the world as it is now. *)
Definition validate {A} (w : World) (f : Env -> outcome A) : M A :=
  fun p => (p, f (validation_env w (trace p))).

Definition get_process : M Process := fun p => (p, Returns p).

Definition update (f : Process -> Process) : M unit := fun p => (f p, Returns tt).

End Runtime.

Import Runtime.

Declare Scope prog_scope.
Delimit Scope prog_scope with prog.
Notation "x <~ m ;; k" := (mbind m (fun x => k))
  (at level 61, m at next level, right associativity) : prog_scope.
Notation "m ;;~ k" := (mbind m (fun _ => k))
  (at level 61, right associativity) : prog_scope.
Open Scope prog_scope.

(** ** The retrieval index and the document source
       ([app/modules/vectorstore_provider.py]) *)

Module VectorStore.

Local Open Scope Z_scope.

(** [s.split(sep)] for a one-character separator. *)
Fixpoint split_on (sep : codepoint) (s : pystr) : list pystr :=
  match s with
  | [] => [[]]
  | c :: t =>
      if (c =? sep)%N then [] :: split_on sep t
      else match split_on sep t with
           | h :: r => (c :: h) :: r
           | [] => [[c]]
           end
  end.

(** [Path(path).name]: the last component, empty and [.] components
    dropped. *)
Definition path_name (path : pystr) : pystr :=
  last (filter (fun part => negb (pystr_eqb part []) && negb (pystr_eqb part (py ".")))
               (split_on 47%N path)) [].

(** [name.rfind(c)] *)
Fixpoint rfind (c : codepoint) (name : pystr) : option nat :=
  match name with
  | [] => None
  | x :: t =>
      match rfind c t with
      | Some i => Some (S i)
      | None => if (x =? c)%N then Some O else None
      end
  end.

(** [Path(path).suffix] *)
Definition suffix (path : pystr) : pystr :=
  let name := path_name path in
  match rfind 46%N name with
  | Some i => if (0 <? i)%nat && (S i <? List.length name)%nat then skipn i name else []
  | None => []
  end.

(** [os.path.join(a, b)] *)
Definition path_join (a b : pystr) : pystr :=
  match b with
  | 47%N :: _ => b
  | _ => match rev a with
         | [] => b
         | 47%N :: _ => a ++ b
         | _ => a ++ py "/" ++ b
         end
  end.

Definition chroma_files : list pystr := [py "chroma.sqlite3"; py "index"].

(** [doc.metadata["source"] = source] *)
Definition tag (source : pystr) (doc : Document) : Document :=
  {| page_content := page_content doc;
     metadata := set_item (py "source") source (metadata doc) |}.

(** [re.sub(r"\s+", " ", s)]; [in_run] says that the character before was
    white space already. *)
Fixpoint sub_spaces (in_run : bool) (s : pystr) : pystr :=
  match s with
  | [] => []
  | c :: t =>
      if isspace c then (if in_run then sub_spaces true t else 32%N :: sub_spaces true t)
      else c :: sub_spaces false t
  end.

Definition min_length_message (min_length : Z) : pystr :=
  py "Job description text must be at least " ++ str_of_int min_length ++ py " characters".

Section WithWorld.

Variable w : World.
Variable config : AppConfig.

(** The loader both [setup_vectorstore] and [load_documents] build for
    the CV, and its [load()]. *)
Definition load_cv : M (list Document) :=
  let cv_path := cv_path (data config) in
  if pystr_eqb (lower (unicode_db w) (suffix cv_path)) (py ".pdf")
  then call (PyPDFLoader_call cv_path) (fun t => PyPDFLoader_load w t cv_path)
  else call (TextLoader_call cv_path) (fun t => TextLoader_load w t cv_path).

Definition load_about_me : M (list Document) :=
  let about_me_path := about_me_path (data config) in
  call (TextLoader_call about_me_path) (fun t => TextLoader_load w t about_me_path).

(** [VectorStoreManager.setup_vectorstore] *)
Definition setup_vectorstore : M Chroma :=
  cv_documents <~
    try_ (docs <~ load_cv ;; ret (map (tag (py "cv")) docs))
         (fun _ => ret []) ;;
  about_documents <~
    try_ (docs <~ load_about_me ;; ret (map (tag (py "about_me")) docs))
         (fun _ => ret []) ;;
  let all_documents := cv_documents ++ about_documents in
  document_chunks <~
    call (split_call 1000 200 all_documents)
         (fun _ => Returns (split_documents w 1000 200 all_documents)) ;;
  embedding_function <~ call embedding_model_call (get_embedding_model w) ;;
  call (from_documents_call document_chunks (vector_db_path (data config)))
       (fun t => Chroma_from_documents w t document_chunks (vector_db_path (data config))).

(** The [try] block of [_is_vectorstore_populated]. *)
Definition population_probe (vector_db_path : pystr) : M bool :=
  entries <~ call (listdir_call vector_db_path)
                  (fun t => os_listdir w t vector_db_path) ;;
  match entries with
  | [] => ret false
  | _ :: _ =>
      has_chroma_files <~
        ask (fun t => existsb (fun file => os_path_exists w t (path_join vector_db_path file))
                              chroma_files) ;;
      if negb has_chroma_files then ret false
      else
        embedding_function <~ call embedding_model_call (get_embedding_model w) ;;
        temp_db <~ call (Chroma_call vector_db_path)
                        (fun t => Chroma_open w t vector_db_path) ;;
        n <~ call (count_call temp_db) (fun t => collection_count w t temp_db) ;;
        if n =? 0 then ret false
        else
          (* the count is read again for the log line *)
          call (count_call temp_db) (fun t => collection_count w t temp_db) ;;~
          ret true
  end.

(** [VectorStoreManager._is_vectorstore_populated] *)
Definition _is_vectorstore_populated (vector_db_path : pystr) : M bool :=
  try_ (population_probe vector_db_path) (fun _ => ret false).

(** [VectorStoreManager.get_vectorstore] *)
Definition get_vectorstore : M Chroma :=
  let vector_db_path := vector_db_path (data config) in
  found <~ ask (fun t => os_path_exists w t vector_db_path) ;;
  populated <~ (if found then _is_vectorstore_populated vector_db_path else ret false) ;;
  if negb found || negb populated then setup_vectorstore
  else
    embedding_function <~ call embedding_model_call (get_embedding_model w) ;;
    call (Chroma_call vector_db_path) (fun t => Chroma_open w t vector_db_path).

(** [DocumentHandler.process_text] *)
Definition process_text (text : pystr) : M Document :=
  let min_length := min_job_text_length (security config) in
  if pystr_eqb text [] || (len (strip text) <? min_length) then
    raise (ValueError (min_length_message min_length))
  else
    validate w (fun env => validate_job_text env config (PyStr text)) ;;~
    let cleaned_text := sub_spaces false (strip text) in
    ret {| page_content := cleaned_text;
           metadata := [(py "source", py "text_input");
                        (py "type", py "job_description")] |}.

(** [DocumentHandler.load_documents] *)
Definition load_documents : M (list Document) :=
  docs_cv <~
    try_ (docs <~ load_cv ;; ret (map (tag (py "cv")) docs))
         (fun _ => ret []) ;;
  found <~ ask (fun t => os_path_exists w t (about_me_path (data config))) ;;
  docs_about <~
    (if found then
       try_ (docs <~ load_about_me ;; ret (map (tag (py "about_me")) docs))
            (fun _ => ret [])
     else ret []) ;;
  ret (docs_cv ++ docs_about).

End WithWorld.

End VectorStore.

Import VectorStore.

(** ** The chat pipeline ([app/modules/rag_pipeline.py]) *)

Module Chat.

Definition no_attribute (class attribute : pystr) : exn :=
  Exception (py "'" ++ class ++ py "' object has no attribute '" ++ attribute ++ py "'").

Definition key_error (key : pystr) : exn := Exception (py "'" ++ key ++ py "'").

Definition history_of (c : ChatRAGPipeline) : list Message :=
  match chat_history c with Some h => h | None => [] end.

Definition set_qa_chain (c : Chain) (p : Process) : Process :=
  with_chat {| chat_initialized := chat_initialized (chat p);
               qa_chain := Some c;
               chat_history := chat_history (chat p) |} p.

Definition set_chat_history (h : list Message) (p : Process) : Process :=
  with_chat {| chat_initialized := chat_initialized (chat p);
               qa_chain := qa_chain (chat p);
               chat_history := Some h |} p.

Section WithWorld.

Variable w : World.
Variable config : AppConfig.

(** [ChatRAGPipeline()]: [__new__], then [__init__], which does its
    work once. *)
Definition ChatRAGPipeline_ : M unit :=
  p <~ get_process ;;
  if chat_initialized (chat p) then ret tt
  else update (with_chat {| chat_initialized := true;
                            qa_chain := None;
                            chat_history := None |}).

(** [ChatRAGPipeline._initialize_qa_chain]. With one caller the lock is
    free and the second test of the field repeats the first. *)
Definition _initialize_qa_chain : M unit :=
  p <~ get_process ;;
  if negb (chat_initialized (chat p)) then
    raise (no_attribute (py "ChatRAGPipeline") (py "qa_chain"))
  else
    match qa_chain (chat p) with
    | Some _ => ret tt
    | None =>
        vector_database <~ get_vectorstore w config ;;
        language_model <~ call language_model_call (get_language_model w) ;;
        call (assemble_call qa) (fun t => assemble w t qa) ;;~
        p' <~ get_process ;;
        update (set_qa_chain {| kind := qa;
                                serial := List.length (trace p');
                                model := language_model;
                                database := Some vector_database |})
    end.

(** [self.qa_chain.invoke]: [input_validator | base_qa_chain |
    output_validator]. *)
Definition qa_chain_invoke (chain : Chain) (input : pystr)
           (chat_history : list Message) : M (dict value) :=
  input' <~ validate w (fun env => validate_query_input env config input) ;;
  base <~ call (invoke_call chain)
               (fun t => base_qa_chain w t chain input' chat_history) ;;
  answer' <~ validate w (fun env => validate_response_output env config (snd base)) ;;
  ret [(py "input", VStr input');
       (py "chat_history", VMsgs chat_history);
       (py "context", VDocs (fst base));
       (py "answer", VStr answer')].

Definition message_reply (message : pystr) : dict value :=
  [(py "answer", VDict [(py "answer", VStr message)]); (py "sources", VDocs [])].

(** The [try] block of [get_completion]. *)
Definition completion_body (query : pystr) : M (dict value) :=
  p <~ get_process ;;
  update (set_chat_history (history_of (chat p) ++ [HumanMessage query])) ;;~
  let current_history := history_of (chat p) ++ [HumanMessage query] in
  result <~
    match qa_chain (chat p) with
    | Some chain => qa_chain_invoke chain query current_history
    | None => raise (no_attribute (py "NoneType") (py "invoke"))
    end ;;
  answer <~
    match get (py "answer") result with
    | Some (VStr a) => ret a
    | _ => raise (key_error (py "answer"))
    end ;;
  p' <~ get_process ;;
  update (set_chat_history (history_of (chat p') ++ [AIMessage answer])) ;;~
  ret [(py "answer", VDict result);
       (py "sources", get_default (py "context") (VDocs []) result)].

(** [ChatRAGPipeline.get_completion] *)
Definition get_completion (query : pystr) (user_metadata : option (dict pystr))
  : M (dict value) :=
  _initialize_qa_chain ;;~
  current_run <~ ask (get_current_run_tree w) ;;
  try_ (completion_body query)
       (fun e =>
          match e with
          | ValueError validation_error => ret (message_reply validation_error)
          | Exception _ =>
              formatted_fallback <~
                lift (format_candidate_name w (chat_fallback_response config)
                                            (name (candidate config))) ;;
              ret (message_reply formatted_fallback)
          end).

(** [get_chat_completion] *)
Definition get_chat_completion (query : pystr) (user_metadata : option (dict pystr))
  : M (dict value) :=
  ChatRAGPipeline_ ;;~ get_completion query user_metadata.

End WithWorld.

End Chat.

Import Chat.

(** ** The summary pipeline ([app/modules/summary_pipeline.py]) *)

Module Summary.

Definition summary_fallback : pystr := py "Unable to generate summary. Please try again.".

Definition timestamp_of (current_run : option RunTree) : value :=
  match current_run with
  | Some run => VStr (start_time run)
  | None => VNone
  end.

Section WithWorld.

Variable w : World.
Variable config : AppConfig.

(** [SummaryGenerator()]: [__init__] asks for the language model; when
    that raises the instance stays uninitialised. *)
Definition SummaryGenerator_ : M unit :=
  p <~ get_process ;;
  if summary_initialized (summary p) then ret tt
  else
    llm <~ call language_model_call (get_language_model w) ;;
    update (with_summary {| summary_initialized := true;
                            summary_llm := Some llm;
                            summary_chain := None |}).

(** [SummaryGenerator._initialize_summary_chain] *)
Definition _initialize_summary_chain : M unit :=
  p <~ get_process ;;
  match summary_initialized (summary p), summary_llm (summary p) with
  | true, Some llm =>
      match summary_chain (summary p) with
      | Some _ => ret tt
      | None =>
          call (assemble_call summarization) (fun t => assemble w t summarization) ;;~
          p' <~ get_process ;;
          update (with_summary
                    {| summary_initialized := true;
                       summary_llm := Some llm;
                       summary_chain := Some {| kind := summarization;
                                                serial := List.length (trace p');
                                                model := llm;
                                                database := None |} |})
      end
  | _, _ => raise (no_attribute (py "SummaryGenerator") (py "summary_chain"))
  end.

(** The [try] block of [generate_summary]. *)
Definition summary_body (style : pystr) (current_run : option RunTree)
  : M (dict value) :=
  documents <~ load_documents w config ;;
  p <~ get_process ;;
  result <~
    match summary_chain (summary p) with
    | Some chain =>
        call (invoke_call chain) (fun t => stuff_documents_chain w t chain documents)
    | None => raise (no_attribute (py "NoneType") (py "invoke"))
    end ;;
  ret [(py "summary_md", VStr result);
       (py "skills", VStrs []);
       (py "style", VStr style);
       (py "timestamp", timestamp_of current_run)].

(** [SummaryGenerator.generate_summary] *)
Definition generate_summary (style : pystr) (user_metadata : option (dict pystr))
  : M (dict value) :=
  _initialize_summary_chain ;;~
  current_run <~ ask (get_current_run_tree w) ;;
  try_ (summary_body style current_run)
       (fun e =>
          ret [(py "summary_md", VStr summary_fallback);
               (py "skills", VStrs []);
               (py "error", VStr (str_of_exn e))]).

(** [get_auto_summary] *)
Definition get_auto_summary (style : pystr) (user_metadata : option (dict pystr))
  : M (dict value) :=
  SummaryGenerator_ ;;~ generate_summary style user_metadata.

End WithWorld.

End Summary.

Import Summary.

(** ** The job-match pipeline ([app/modules/job_matching.py]) *)

Module JobMatching.

Definition matching_fallback : pystr :=
  py "Unable to complete job matching analysis. Please try again.".

Definition source_of (doc : Document) : pystr :=
  get_default (py "source") (py "unknown") (metadata doc).

Section WithWorld.

Variable w : World.
Variable config : AppConfig.

(** [JobMatchingAnalyzer()] *)
Definition JobMatchingAnalyzer_ : M unit :=
  p <~ get_process ;;
  if job_initialized (job p) then ret tt
  else
    llm <~ call language_model_call (get_language_model w) ;;
    update (with_job {| job_initialized := true;
                        job_llm := Some llm;
                        matching_chain := None |}).

(** [JobMatchingAnalyzer._initialize_matching_chain] *)
Definition _initialize_matching_chain : M unit :=
  p <~ get_process ;;
  match job_initialized (job p), job_llm (job p) with
  | true, Some llm =>
      match matching_chain (job p) with
      | Some _ => ret tt
      | None =>
          call (assemble_call matching) (fun t => assemble w t matching) ;;~
          p' <~ get_process ;;
          update (with_job
                    {| job_initialized := true;
                       job_llm := Some llm;
                       matching_chain := Some {| kind := matching;
                                                 serial := List.length (trace p');
                                                 model := llm;
                                                 database := None |} |})
      end
  | _, _ => raise (no_attribute (py "JobMatchingAnalyzer") (py "matching_chain"))
  end.

(** The [try] block of [JobMatchingAnalyzer.analyze_job_match]. *)
Definition matching_body (job_description : Document) (current_run : option RunTree)
  : M (dict value) :=
  vectorstore <~ get_vectorstore w config ;;
  let retrieval_k := retrieval_k (Config.vectorstore config) in
  relevant_docs <~
    call (retriever_call vectorstore retrieval_k (page_content job_description))
         (fun t => retriever_invoke w t vectorstore retrieval_k
                                    (page_content job_description)) ;;
  let job_doc :=
    {| page_content := py "JOB DESCRIPTION:" ++ [10%N] ++ page_content job_description;
       metadata := [(py "source", py "job_description");
                    (py "type", py "job_requirements")] |} in
  validate w (fun env => validate_job_text env config (PyStr (page_content job_doc))) ;;~
  let all_docs := job_doc :: relevant_docs in
  p <~ get_process ;;
  analysis_result <~
    match matching_chain (job p) with
    | Some chain =>
        call (invoke_call chain) (fun t => stuff_documents_chain w t chain all_docs)
    | None => raise (no_attribute (py "NoneType") (py "invoke"))
    end ;;
  ret [(py "analysis", VStr analysis_result);
       (py "job_source", VStr (source_of job_description));
       (py "match_timestamp", timestamp_of current_run);
       (py "relevant_sections", VStrs (map source_of relevant_docs))].

(** [JobMatchingAnalyzer.analyze_job_match] *)
Definition analyze_job_match_ (job_description : Document)
           (user_metadata : option (dict pystr)) : M (dict value) :=
  _initialize_matching_chain ;;~
  current_run <~ ask (get_current_run_tree w) ;;
  try_ (matching_body job_description current_run)
       (fun e =>
          ret [(py "analysis", VStr matching_fallback);
               (py "error", VStr (str_of_exn e));
               (py "job_source", VStr (source_of job_description))]).

(** [process_job_description] *)
Definition process_job_description (text : pystr) : M Document :=
  match text with
  | [] => raise (ValueError (py "Job description text is required"))
  | _ :: _ => process_text w config text
  end.

(** The module-level [analyze_job_match] *)
Definition analyze_job_match (job_description : Document)
           (user_metadata : option (dict pystr)) : M (dict value) :=
  JobMatchingAnalyzer_ ;;~ analyze_job_match_ job_description user_metadata.

End WithWorld.

End JobMatching.

Import JobMatching.

(** ** The job-match route ([app/api/routes.py]) *)

Module Routes.

Inductive Response : Type :=
| OK (body : dict value)
| HTTPException (status_code : Z) (detail : pystr).

(** [str(text_input)] for the [text] of the request body: a JSON string,
    or [None] when the key is missing or null. *)
Definition str_of_text_input (text_input : option pystr) : pystr :=
  match text_input with
  | Some s => s
  | None => py "None"
  end.

Section WithWorld.

Variable w : World.
Variable config : AppConfig.

(** The [try] block of [job_match_endpoint]. *)
Definition job_match_body (text_input : option pystr) (user_code company : pystr)
  : M (dict value) :=
  job_description <~ process_job_description w config (str_of_text_input text_input) ;;
  let user_metadata := [(py "user_code", user_code); (py "company", company)] in
  analysis_result <~ analyze_job_match w config job_description (Some user_metadata) ;;
  analysis <~
    match get (py "analysis") analysis_result with
    | Some v => ret v
    | None => raise (key_error (py "analysis"))
    end ;;
  call analytics_call (log_job_matching_advanced w) ;;~
  ret [(py "analysis", analysis);
       (py "source", get_default (py "job_source") (VStr (py "text_input")) analysis_result);
       (py "timestamp", get_default (py "match_timestamp") VNone analysis_result);
       (py "relevant_sections",
         get_default (py "relevant_sections") (VStrs []) analysis_result)].

(** [job_match_endpoint] *)
Definition job_match_endpoint (text_input : option pystr) (user_code company : pystr)
  : Process -> Process * Response :=
  fun p =>
    match job_match_body text_input user_code company p with
    | (p', Returns body) => (p', OK body)
    | (p', Raises (ValueError e)) => (p', HTTPException 400 e)
    | (p', Raises (Exception _)) =>
        (p', HTTPException 500 (py "Job matching analysis failed"))
    end.

End WithWorld.

End Routes.

Import Routes.

(** ** The three operations side by side *)

Module Pipelines.

(** A call of the invoke operation of one of the singletons. *)
Inductive operation : Type :=
| chat_op (query : pystr) (user_metadata : option (dict pystr))
| summary_op (style : pystr) (user_metadata : option (dict pystr))
| job_match_op (job_description : Document) (user_metadata : option (dict pystr)).

Definition answer_key (op : operation) : pystr :=
  match op with
  | chat_op _ _ => py "answer"
  | summary_op _ _ => py "summary_md"
  | job_match_op _ _ => py "analysis"
  end.

Section WithWorld.

Variable w : World.
Variable config : AppConfig.

Definition invoke (op : operation) : M (dict value) :=
  match op with
  | chat_op query md => get_completion w config query md
  | summary_op style md => generate_summary w config style md
  | job_match_op job_description md => analyze_job_match_ w config job_description md
  end.

(** The chain initialisation that opens the operation. *)
Definition initialize_chain (op : operation) : M unit :=
  match op with
  | chat_op _ _ => _initialize_qa_chain w config
  | summary_op _ _ => _initialize_summary_chain w
  | job_match_op _ _ => _initialize_matching_chain w
  end.


End WithWorld.

End Pipelines.

Import Pipelines.

(** ** Requests served one after the other *)

Module Server.

Inductive request : Type :=
| chat_request (query : pystr) (user_metadata : option (dict pystr))
| summary_request (style : pystr) (user_metadata : option (dict pystr))
| init_summary_chain_request
| job_match_request (text_input : option pystr) (user_code company : pystr).

Section WithWorld.

Variable w : World.
Variable config : AppConfig.

(** The process after one request has been answered. *)
Definition serve (r : request) (p : Process) : Process :=
  match r with
  | chat_request query md => fst (get_chat_completion w config query md p)
  | summary_request style md => fst (get_auto_summary w config style md p)
  | init_summary_chain_request =>
      fst ((SummaryGenerator_ w ;;~ _initialize_summary_chain w) p)
  | job_match_request text_input user_code company =>
      fst (job_match_endpoint w config text_input user_code company p)
  end.

Definition serve_all (rs : list request) (p : Process) : Process :=
  fold_left (fun p r => serve r p) rs p.

(** Sequential calls of [get_completion] on the singleton: the process
    afterwards and what each call gave. *)
Fixpoint chat_calls (queries : list pystr) (p : Process)
  : Process * list (outcome (dict value)) :=
  match queries with
  | [] => (p, [])
  | q :: qs =>
      let (p1, r) := get_completion w config q None p in
      let (p2, rs) := chat_calls qs p1 in
      (p2, r :: rs)
  end.

End WithWorld.

Definition chain_of (k : ChainKind) (p : Process) : option Chain :=
  match k with
  | qa => qa_chain (chat p)
  | summarization => summary_chain (summary p)
  | matching => matching_chain (job p)
  end.

End Server.

Import Server.

(** ** Chain construction under concurrent first callers

    The check, lock, check again, build, release of the three
    [_initialize_..._chain] methods, one step of one thread at a time. *)

Module DoubleChecked.

(** Where a thread stands in the method. *)
Inductive pc : Type :=
| Idle            (* not in the method *)
| Entry           (* about to test the field without the lock *)
| Waiting         (* saw [None]; at [with self._chain_lock] *)
| Locked          (* holds the lock; about to test the field again *)
| Building        (* holds the lock, saw [None] again; assembling the chain *)
| Built           (* has stored the chain; about to release the lock *)
| Unwinding.      (* the build raised; about to release the lock *)

Record state := {
  field : option Chain;        (* [self.qa_chain] and its siblings *)
  lock : option nat;           (* the thread that holds [_chain_lock] *)
  stores : nat;                (* how often the field has been assigned *)
  at_ : nat -> pc
}.

Definition initial : state :=
  {| field := None; lock := None; stores := 0; at_ := fun _ => Idle |}.

Definition move (t : nat) (l : pc) (f : nat -> pc) : nat -> pc :=
  fun t' => if Nat.eqb t' t then l else f t'.

Inductive step (t : nat) : state -> state -> Prop :=
| step_call s :
    at_ s t = Idle ->
    step t s {| field := field s; lock := lock s; stores := stores s;
                at_ := move t Entry (at_ s) |}
| step_first_check_set s c :
    at_ s t = Entry -> field s = Some c ->
    step t s {| field := field s; lock := lock s; stores := stores s;
                at_ := move t Idle (at_ s) |}
| step_first_check_none s :
    at_ s t = Entry -> field s = None ->
    step t s {| field := field s; lock := lock s; stores := stores s;
                at_ := move t Waiting (at_ s) |}
| step_acquire s :
    at_ s t = Waiting -> lock s = None ->
    step t s {| field := field s; lock := Some t; stores := stores s;
                at_ := move t Locked (at_ s) |}
| step_second_check_set s c :
    at_ s t = Locked -> field s = Some c ->
    step t s {| field := field s; lock := None; stores := stores s;
                at_ := move t Idle (at_ s) |}
| step_second_check_none s :
    at_ s t = Locked -> field s = None ->
    step t s {| field := field s; lock := lock s; stores := stores s;
                at_ := move t Building (at_ s) |}
| step_store s c :
    at_ s t = Building ->
    step t s {| field := Some c; lock := lock s; stores := S (stores s);
                at_ := move t Built (at_ s) |}
| step_raise s :
    at_ s t = Building ->
    step t s {| field := field s; lock := lock s; stores := stores s;
                at_ := move t Unwinding (at_ s) |}
| step_release s :
    at_ s t = Built \/ at_ s t = Unwinding ->
    step t s {| field := field s; lock := None; stores := stores s;
                at_ := move t Idle (at_ s) |}.

Inductive reachable : state -> Prop :=
| reachable_initial : reachable initial
| reachable_step s s' t : reachable s -> step t s s' -> reachable s'.



End DoubleChecked.

(** ** Worlds to run the program in *)

Module Worlds.

Definition permissive_hub : Hub :=
  {| ToxicLanguage := fun _ _ => Returns tt;
     ProfanityFree := fun _ => Returns tt;
     ReadingTime := fun _ _ => Returns tt |}.

Definition cv_page : Document :=
  {| page_content := py "Ten years of data engineering.";
     metadata := [(py "source", py "data/cv.pdf"); (py "page", py "0")] |}.

Definition about_page : Document :=
  {| page_content := py "I enjoy building retrieval systems.";
     metadata := [(py "source", py "data/about_me.md")] |}.

(** A world without the Guardrails package and without a persisted
    index, where the parts named by the arguments answer as given and
    everything else works. *)
Definition world (embedding : outcome Embeddings) (llm : outcome LanguageModel)
           (cv about : outcome (list Document))
           (generation : outcome (list Document * pystr)) : World :=
  {| unicode_db := ascii_only;
     GUARDRAILS_AVAILABLE := false;
     hub := fun _ => permissive_hub;
     os_path_exists := fun _ _ => false;
     os_listdir := fun _ _ => Returns [];
     get_embedding_model := fun _ => embedding;
     get_language_model := fun _ => llm;
     Chroma_open := fun _ _ => Returns 1%N;
     collection_count := fun _ _ => Returns 2%Z;
     PyPDFLoader_load := fun _ _ => cv;
     TextLoader_load := fun _ _ => about;
     split_documents := fun _ _ documents => documents;
     Chroma_from_documents := fun _ _ _ => Returns 1%N;
     retriever_invoke := fun _ _ _ _ => Returns [cv_page];
     assemble := fun _ _ => Returns tt;
     base_qa_chain := fun _ _ _ _ => generation;
     stuff_documents_chain := fun _ _ _ => Returns (py "A strong match.");
     get_current_run_tree := fun _ => None;
     format_candidate_name := fun template _ => Returns template;
     log_job_matching_advanced := fun _ => Returns tt |}.

Definition working : World :=
  world (Returns 7%N) (Returns 3%N) (Returns [cv_page]) (Returns [about_page])
        (Returns ([cv_page], py "I led the data platform team.")).

(** The model provider cannot build a language model (no API key). *)
Definition no_language_model : World :=
  world (Returns 7%N) (Raises (Exception (py "The api_key client option must be set")))
        (Returns [cv_page]) (Returns [about_page])
        (Returns ([cv_page], py "I led the data platform team.")).


(** The index directory exists and is empty; the embedding backend has no
    API key. *)
Definition empty_index_no_embeddings : World :=
  {| unicode_db := ascii_only;
     GUARDRAILS_AVAILABLE := false;
     hub := fun _ => permissive_hub;
     os_path_exists := fun _ path => pystr_eqb path (py "data/vector_db");
     os_listdir := fun _ _ => Returns [];
     get_embedding_model := fun _ => Raises (Exception (py "The api_key client option must be set"));
     get_language_model := fun _ => Returns 3%N;
     Chroma_open := fun _ _ => Returns 1%N;
     collection_count := fun _ _ => Returns 2%Z;
     PyPDFLoader_load := fun _ _ => Returns [cv_page];
     TextLoader_load := fun _ _ => Returns [about_page];
     split_documents := fun _ _ documents => documents;
     Chroma_from_documents := fun _ _ _ => Returns 1%N;
     retriever_invoke := fun _ _ _ _ => Returns [cv_page];
     assemble := fun _ _ => Returns tt;
     base_qa_chain := fun _ _ _ _ => Returns ([cv_page], py "I led the data platform team.");
     stuff_documents_chain := fun _ _ _ => Returns (py "A strong match.");
     get_current_run_tree := fun _ => None;
     format_candidate_name := fun template _ => Returns template;
     log_job_matching_advanced := fun _ => Returns tt |}.

Definition mock_env : Env := validation_env working [].

(** The process once [ChatRAGPipeline()] has run. *)
Definition chat_started : Process := fst (ChatRAGPipeline_ fresh).

End Worlds.

Import Worlds.

(** ** Vocabulary of the statements *)

Module Vocabulary.

Local Open Scope Z_scope.

(** The characters of [str(n)]. *)
Definition digit_or_sign (c : codepoint) : bool :=
  ((48 <=? c) && (c <=? 57) || (c =? 45))%N.





(** What a load contributes: its documents, or nothing when it raised. *)
Definition documents_or_none (o : outcome (list Document)) : list Document :=
  match o with
  | Returns documents => documents
  | Raises _ => []
  end.

(** The run changed nothing but the call log. *)
Definition same_objects (p p' : Process) : Prop :=
  chat p' = chat p /\ summary p' = summary p /\ job p' = job p.

(** A program that touches nothing but the call log. *)
Definition trace_only {A} (m : M A) : Prop :=
  forall p, same_objects p (fst (m p)).

(** No chain field is set on an instance whose [__init__] has not
    finished. *)
Definition consistent (p : Process) : Prop :=
  (chat_initialized (chat p) = false -> qa_chain (chat p) = None)
  /\ (summary_initialized (summary p) = false -> summary_chain (summary p) = None)
  /\ (job_initialized (job p) = false -> matching_chain (job p) = None).

(** From [p] to [p'] every chain that was set is still the same chain. *)
Definition chains_kept (p p' : Process) : Prop :=
  forall k c, chain_of k p = Some c -> chain_of k p' = Some c.

(** A program that keeps the chains of every consistent process. *)
Definition steady {A} (m : M A) : Prop :=
  forall p, consistent p -> consistent (fst (m p)) /\ chains_kept p (fst (m p)).

Definition forty_x : pystr := repeat 120%N 40.

Definition projects_question : pystr := py "What projects have you led?".



(** What [validate_response_output] hands on. *)
Definition validated_response (env : Env) (config : AppConfig) (response : pystr)
  : pystr :=
  if returned (response_content_validation env response) then response
  else chat_fallback_response config.

(** The dictionary the chat chain returns. *)
Definition chain_result (input : pystr) (history : list Message)
           (context : list Document) (answer : pystr) : dict value :=
  [(py "input", VStr input);
   (py "chat_history", VMsgs history);
   (py "context", VDocs context);
   (py "answer", VStr answer)].

(** The answer a chat reply carries when the chain produced it: the reply
    then holds the chain's whole result, input included, where a
    validation or fallback reply holds the message alone. *)
Definition generated_answer (reply : dict value) : option pystr :=
  match get (py "answer") reply with
  | Some (VDict inner) =>
      match get (py "input") inner, get (py "answer") inner with
      | Some _, Some (VStr a) => Some a
      | _, _ => None
      end
  | _ => None
  end.

(** The turns a sequence of calls that all returned leaves behind. *)
Fixpoint turns_of (queries : list pystr) (results : list (outcome (dict value)))
  : list Message :=
  match queries, results with
  | q :: qs, Returns reply :: rs =>
      HumanMessage q
      :: match generated_answer reply with
         | Some a => [AIMessage a]
         | None => []
         end
      ++ turns_of qs rs
  | _, _ => []
  end.

Definition answered (r : outcome (dict value)) : bool :=
  match r with
  | Returns reply =>
      match generated_answer reply with Some _ => true | None => false end
  | Raises _ => false
  end.

(** human, assistant, human, assistant, ... *)
Fixpoint alternating (k : nat) : list Role :=
  match k with
  | O => []
  | S k' => human :: assistant :: alternating k'
  end.

Definition generic_message : pystr :=
  py "Unable to process this query. Please rephrase your question".

(** A query over the maximum that holds a word [MockGuard] flags. *)
Definition flagged_long_query : pystr := py "damn" ++ repeat 120%N 1000.

(** A query over the maximum made of blanks only. *)
Definition blank_long_query : pystr := repeat 32%N 1001.

Definition python_question : pystr := py "What is your experience with Python?".

End Vocabulary.

Import Vocabulary.

(** ** Configuration values and their merge ([app/config.py]) *)

Module Settings.

Local Open Scope Z_scope.

(** What YAML and JSON documents hold. A float stands for the value of the
    parsed double; nothing is computed with it. *)
Inductive scalar : Type :=
| SNone
| SBool (b : bool)
| SInt (n : Z)
| SFloat (q : Q)
| SStr (s : pystr).

#[local] Unset Elimination Schemes.
Inductive setting : Type :=
| Scalar (s : scalar)
| Listing (items : list setting)
| Mapping (entries : list (pystr * setting)).
#[local] Set Elimination Schemes.

(** [bool(v)] *)
Definition truthy (v : setting) : bool :=
  match v with
  | Scalar SNone => false
  | Scalar (SBool b) => b
  | Scalar (SInt n) => negb (n =? 0)
  | Scalar (SFloat q) => negb (Qeq_bool q 0)
  | Scalar (SStr s) => match s with [] => false | _ :: _ => true end
  | Listing items => match items with [] => false | _ :: _ => true end
  | Mapping entries => match entries with [] => false | _ :: _ => true end
  end.



End Settings.

Import Settings.

(** ** Sessions ([app/auth/auth.py]) *)

Module Auth.

(** [del d[key]]: the key is gone, wherever the list held it. *)
Definition del_item {V} (key : pystr) (d : dict V) : dict V :=
  filter (fun kv => negb (pystr_eqb (fst kv) key)) d.

(** What a protected route gets from [require_auth]. *)
Inductive guarded : Type :=
| Allowed (user_code : pystr)
| Denied (status_code : Z) (detail : pystr).

(** [TypeError] of [v["active"]] for a [v] that is no dictionary. *)
Definition not_subscriptable (v : setting) : exn :=
  match v with
  | Scalar (SStr _) => Exception (py "string indices must be integers, not 'str'")
  | Listing _ => Exception (py "list indices must be integers or slices, not str")
  | _ => Exception (py "object is not subscriptable")
  end.

Definition anonymous_info : setting :=
  Mapping [(py "company", Scalar (SStr (py "Anonymous User")));
           (py "recruiter", Scalar (SStr (py "Public Access")));
           (py "active", Scalar (SBool true))].

Section WithCodes.

(** [INVITE_CODES], which is [config.invite_codes]: loaded once. *)
Variable INVITE_CODES : dict setting.

Definition is_auth_enabled : bool :=
  match INVITE_CODES with [] => false | _ :: _ => true end.

(** [code in INVITE_CODES and INVITE_CODES[code]["active"]] *)
Definition validate_invite_code (code : pystr) : outcome setting :=
  match get code INVITE_CODES with
  | None => Returns (Scalar (SBool false))
  | Some (Mapping info) =>
      match get (py "active") info with
      | Some active => Returns active
      | None => Raises (key_error (py "active"))
      end
  | Some v => Raises (not_subscriptable v)
  end.

(** [authenticate_with_code]; [token] is what [secrets.token_urlsafe(32)]
    hands out when it is asked. [active_sessions] goes in and comes out. *)
Definition authenticate_with_code (token code : pystr) (active_sessions : dict pystr)
  : dict pystr * outcome (option pystr) :=
  match validate_invite_code code with
  | Raises e => (active_sessions, Raises e)
  | Returns valid =>
      if truthy valid then (set_item token code active_sessions, Returns (Some token))
      else (active_sessions, Returns None)
  end.

(** [get_current_user]; [cookie] is [request.cookies.get("session_token")]. *)
Definition get_current_user (active_sessions : dict pystr) (cookie : option pystr)
  : option pystr :=
  match cookie with
  | Some (c :: session_token) => get (c :: session_token) active_sessions
  | _ => None
  end.

Definition require_auth (active_sessions : dict pystr) (cookie : option pystr) : guarded :=
  if negb is_auth_enabled then Allowed (py "anonymous")
  else
    match get_current_user active_sessions cookie with
    | Some (c :: user_code) => Allowed (c :: user_code)
    | _ => Denied 401 (py "Authentication required")
    end.

Definition get_user_info (invite_code : pystr) : setting :=
  if pystr_eqb invite_code (py "anonymous") then anonymous_info
  else get_default invite_code (Mapping []) INVITE_CODES.

Definition logout_user (session_token : pystr) (active_sessions : dict pystr)
  : dict pystr * bool :=
  match get session_token active_sessions with
  | Some _ => (del_item session_token active_sessions, true)
  | None => (active_sessions, false)
  end.

(** What clients do to the session table, one call after the other. *)
Inductive action : Type :=
| login (token code : pystr)
| logout (session_token : pystr).

Definition perform (c : action) (active_sessions : dict pystr) : dict pystr :=
  match c with
  | login token code => fst (authenticate_with_code token code active_sessions)
  | logout session_token => fst (logout_user session_token active_sessions)
  end.

Definition perform_all (calls : list action) (active_sessions : dict pystr) : dict pystr :=
  fold_left (fun s c => perform c s) calls active_sessions.

(** The invite code is configured and its [active] entry holds. *)
Definition active_code (code : pystr) : bool :=
  match validate_invite_code code with
  | Returns valid => truthy valid
  | Raises _ => false
  end.

End WithCodes.

End Auth.

(** ** The analytics summary ([app/utils/analytics.py]) *)

Module Analytics.

(** [line.split(",", 1)] of a line that holds a comma. *)
Fixpoint split_first (sep : codepoint) (line : pystr) : option (pystr * pystr) :=
  match line with
  | [] => None
  | c :: rest =>
      if (c =? sep)%N then Some ([], rest)
      else match split_first sep rest with
           | Some (before, behind) => Some (c :: before, behind)
           | None => None
           end
  end.

(** The counters of [get_analytics_summary]. [companies] is the set, kept
    as a list without repeats; Python lists it in an order of its own. *)
Record Tally := {
  total_interactions : nat;
  chat_count : nat;
  summary_count : nat;
  companies : list scalar
}.

Definition no_interactions : Tally :=
  {| total_interactions := 0; chat_count := 0; summary_count := 0; companies := [] |}.

Inductive summary_result : Type :=
| summary_of (t : Tally)
| error_of (message : pystr).

Section WithFiles.

(** [json.loads] *)
Variable json_loads : pystr -> outcome setting.
(** [==] on the values a set can hold (numbers compare by value across
    [bool], [int] and [float]). *)
Variable hashable_eqb : scalar -> scalar -> bool.
(** [os.path.exists] and [readlines] of the analytics log. *)
Variable log_exists : bool.
Variable readlines : outcome (list pystr).

Definition add_company (c : scalar) (cs : list scalar) : list scalar :=
  if existsb (hashable_eqb c) cs then cs else cs ++ [c].

(** The body of the loop over the lines, with its handler: what was
    counted before a line went wrong stays counted. *)
Definition count_line (t : Tally) (line : pystr) : Tally :=
  match split_first 44%N line with
  | None => t
  | Some (event_type, log_json) =>
      match json_loads log_json with
      | Raises _ => t
      | Returns log_data =>
          let counted :=
            {| total_interactions := S (total_interactions t);
               chat_count := chat_count t;
               summary_count := summary_count t;
               companies := companies t |} in
          match log_data with
          | Mapping entries =>
              match get_default (py "company") (Scalar (SStr (py "Unknown"))) entries with
              | Scalar company =>
                  let cs := add_company company (companies t) in
                  if pystr_eqb event_type (py "CHAT") then
                    {| total_interactions := S (total_interactions t);
                       chat_count := S (chat_count t);
                       summary_count := summary_count t;
                       companies := cs |}
                  else if pystr_eqb event_type (py "SUMMARY") then
                    {| total_interactions := S (total_interactions t);
                       chat_count := chat_count t;
                       summary_count := S (summary_count t);
                       companies := cs |}
                  else
                    {| total_interactions := S (total_interactions t);
                       chat_count := chat_count t;
                       summary_count := summary_count t;
                       companies := cs |}
              | _ => counted        (* an unhashable company: [TypeError] *)
              end
          | _ => counted            (* no [get] on this value: [AttributeError] *)
          end
      end
  end.

Definition get_analytics_summary : summary_result :=
  if negb log_exists then error_of (py "No analytics data found")
  else
    match readlines with
    | Raises e => error_of (str_of_exn e)
    | Returns lines => summary_of (fold_left count_line lines no_interactions)
    end.

(** The line holds a comma and what follows the first one parses. *)
Definition parses (line : pystr) : bool :=
  match split_first 44%N line with
  | Some (_, log_json) => returned (json_loads log_json)
  | None => false
  end.

End WithFiles.

End Analytics.

(** ** Concurrent first construction of the chat singleton
       ([ChatRAGPipeline.__init__], which takes no lock) *)

Module Construction.

(** Where a thread stands between calling [ChatRAGPipeline()] and the end
    of its [get_completion]. *)
Inductive pc : Type :=
| Outside
| AtGuard        (* [__new__] has returned the instance; at the test of [_initialized] *)
| Assigning      (* saw the flag off; about to set [qa_chain] and [chat_history] to [None] *)
| Finishing      (* about to set [_initialized = True] *)
| Ready.         (* holds the instance; about to run [get_completion] *)

Record state := {
  pipeline : ChatRAGPipeline;
  at_ : nat -> pc
}.

(** [__new__] has created the instance with its flag off. *)
Definition initial : state :=
  {| pipeline := {| chat_initialized := false; qa_chain := None; chat_history := None |};
     at_ := fun _ => Outside |}.

Definition move (t : nat) (l : pc) (f : nat -> pc) : nat -> pc :=
  fun t' => if Nat.eqb t' t then l else f t'.

(** One step of one thread. The last rule is a whole [get_completion] that
    nobody interrupts: it builds the chain when there is none and records
    its turns. *)
Inductive step (t : nat) : state -> state -> Prop :=
| step_enter s :
    at_ s t = Outside ->
    step t s {| pipeline := pipeline s; at_ := move t AtGuard (at_ s) |}
| step_guard_return s :
    at_ s t = AtGuard -> chat_initialized (pipeline s) = true ->
    step t s {| pipeline := pipeline s; at_ := move t Ready (at_ s) |}
| step_guard_pass s :
    at_ s t = AtGuard -> chat_initialized (pipeline s) = false ->
    step t s {| pipeline := pipeline s; at_ := move t Assigning (at_ s) |}
| step_assign s :
    at_ s t = Assigning ->
    step t s {| pipeline := {| chat_initialized := chat_initialized (pipeline s);
                               qa_chain := None;
                               chat_history := None |};
                at_ := move t Finishing (at_ s) |}
| step_finish s :
    at_ s t = Finishing ->
    step t s {| pipeline := {| chat_initialized := true;
                               qa_chain := qa_chain (pipeline s);
                               chat_history := chat_history (pipeline s) |};
                at_ := move t Ready (at_ s) |}
| step_get_completion s built turns :
    at_ s t = Ready ->
    step t s {| pipeline := {| chat_initialized := chat_initialized (pipeline s);
                               qa_chain := match qa_chain (pipeline s) with
                                           | Some c => Some c
                                           | None => Some built
                                           end;
                               chat_history := Some (history_of (pipeline s) ++ turns) |};
                at_ := move t Outside (at_ s) |}.

Inductive reachable : state -> Prop :=
| reachable_initial : reachable initial
| reachable_step s s' t : reachable s -> step t s s' -> reachable s'.

End Construction.

(** ** Further vocabulary *)

Module Further.

Local Open Scope Z_scope.

Definition injection_message : pystr :=
  py "Invalid query format detected. Please rephrase your question".

Definition professional_message : pystr :=
  py "Please rephrase your question professionally".

Definition inappropriate_message : pystr := py "Content contains inappropriate language".

(** [\s+] left one blank each: every white-space character is U+0020 and no
    two of them are neighbours. [after_blank] says that the character
    before was a blank. *)
Fixpoint single_blanks (after_blank : bool) (s : pystr) : bool :=
  match s with
  | [] => true
  | c :: t =>
      if (c =? 32)%N then negb after_blank && single_blanks true t
      else negb (isspace c) && single_blanks false t
  end.

(** The events of the population probe and of opening an index. *)
Definition probes_or_opens (ev : event) : bool :=
  match ev with
  | listdir_call _ | embedding_model_call | Chroma_call _ | count_call _ => true
  | _ => false
  end.

(** The process in which the analyzer singleton is constructed. *)
Definition analyzer_started : Process := fst (JobMatchingAnalyzer_ working fresh).

(** A configuration with small limits for job texts. *)
Definition small_limits : AppConfig :=
  {| security := {| max_query_length := 1000;
                    max_job_text_length := 40;
                    min_job_text_length := 10 |};
     vectorstore := Config.vectorstore defaults;
     data := data defaults;
     candidate := candidate defaults;
     chat_fallback_response := chat_fallback_response defaults |}.

Definition acme_codes : dict setting :=
  [(py "DEMO-ACME-1234",
    Mapping [(py "company", Scalar (SStr (py "Acme")));
             (py "active", Scalar (SBool true))]);
   (py "OLD-CODE",
    Mapping [(py "company", Scalar (SStr (py "Gone Ltd")));
             (py "active", Scalar (SBool false))]);
   (py "HALF-CODE", Mapping [(py "company", Scalar (SStr (py "Half")))])].

(** A program that leaves one part of the process as it found it. *)
Definition keeps {X A} (part : Process -> X) (m : M A) : Prop :=
  forall p, part (fst (m p)) = part p.

(** A job text with blanks around it and runs of white space inside. *)
Definition spaced_job_text : pystr :=
  py "  Senior   data engineer role:  five years of   experience with Python required.  ".

(** The persisted index is there and holds two documents. *)
Definition populated_index : World :=
  {| unicode_db := ascii_only;
     GUARDRAILS_AVAILABLE := false;
     hub := fun _ => permissive_hub;
     os_path_exists := fun _ path =>
       pystr_eqb path (py "data/vector_db")
       || pystr_eqb path (py "data/vector_db/chroma.sqlite3");
     os_listdir := fun _ _ => Returns [py "chroma.sqlite3"];
     get_embedding_model := fun _ => Returns 7%N;
     get_language_model := fun _ => Returns 3%N;
     Chroma_open := fun _ _ => Returns 1%N;
     collection_count := fun _ _ => Returns 2%Z;
     PyPDFLoader_load := fun _ _ => Returns [cv_page];
     TextLoader_load := fun _ _ => Returns [about_page];
     split_documents := fun _ _ documents => documents;
     Chroma_from_documents := fun _ _ _ => Returns 1%N;
     retriever_invoke := fun _ _ _ _ => Returns [cv_page];
     assemble := fun _ _ => Returns tt;
     base_qa_chain := fun _ _ _ _ => Returns ([cv_page], py "I led the data platform team.");
     stuff_documents_chain := fun _ _ _ => Returns (py "A strong match.");
     get_current_run_tree := fun _ => None;
     format_candidate_name := fun template _ => Returns template;
     log_job_matching_advanced := fun _ => Returns tt |}.

(** The model answers with a word [MockGuard] flags. *)
Definition flagged_generation : World :=
  world (Returns 7%N) (Returns 3%N) (Returns [cv_page]) (Returns [about_page])
        (Returns ([cv_page], py "That is a damn good question.")).

(** The process once the chat singleton exists and its chain is built. *)
Definition chat_ready : Process :=
  fst (_initialize_qa_chain working defaults chat_started).

(** A call of a chain, which is where a language model is asked. *)
Definition is_invoke (ev : event) : bool :=
  match ev with
  | invoke_call _ => true
  | _ => false
  end.

(** A program that asks no chain: it adds calls to the log, none of them
    an [invoke]. *)
Definition quiet {A} (m : M A) : Prop :=
  forall p, exists calls,
    trace (fst (m p)) = trace p ++ calls /\ existsb is_invoke calls = false.

(** A job text of 33 characters, for the configuration with small
    limits. *)
Definition short_posting : pystr := py "Senior data engineer role, Python".





End Further.

Import Further.

(** * Properties *)

(** ** Strings *)

Section StringFacts.

Lemma startswith_blocked (p a rest : pystr) (c : codepoint) :
  existsb (N.eqb c) p = false ->
  startswith p (a ++ c :: rest) = startswith p a.
Proof.
  revert a. induction p as [|x p IH]; intros a Hc.
  - destruct a; reflexivity.
  - simpl in Hc. apply orb_false_elim in Hc as [Hx Hp].
    destruct a as [|y a]; simpl.
    + rewrite N.eqb_sym, Hx. reflexivity.
    + rewrite IH by exact Hp. reflexivity.
Qed.

(** A character foreign to a non-empty pattern cuts every occurrence. *)
Lemma contains_cut (p a rest : pystr) (c : codepoint) :
  p <> [] ->
  existsb (N.eqb c) p = false ->
  contains p (a ++ c :: rest) = contains p a || contains p rest.
Proof.
  intros Hne Hc. induction a as [|y a IH].
  - destruct p as [|x p]; [congruence|]. simpl in *.
    apply orb_false_elim in Hc as [Hx _].
    rewrite (N.eqb_sym x c), Hx. destruct rest; reflexivity.
  - change ((y :: a) ++ c :: rest) with (y :: (a ++ c :: rest)).
    cbn [contains]. rewrite IH.
    change (y :: (a ++ c :: rest)) with ((y :: a) ++ c :: rest).
    rewrite startswith_blocked by exact Hc.
    rewrite <- orb_assoc. reflexivity.
Qed.

Lemma contains_foreign_run (p d rest : pystr) :
  p <> [] ->
  forallb (fun c => negb (existsb (N.eqb c) p)) d = true ->
  contains p (d ++ rest) = contains p rest.
Proof.
  intros Hne. induction d as [|c d IH]; intros Hd; [reflexivity|].
  simpl in Hd. apply andb_prop in Hd as [Hc Hd].
  apply negb_true_iff in Hc.
  change ((c :: d) ++ rest) with ([] ++ c :: (d ++ rest)).
  rewrite contains_cut by assumption.
  rewrite IH by exact Hd.
  destruct p; [congruence|reflexivity].
Qed.

(** A pattern that avoids the characters of [d] occurs in [a ++ d ++ b]
    exactly when it occurs in [a] or in [b]. *)
Lemma contains_around (p a d b : pystr) :
  p <> [] -> d <> [] ->
  forallb (fun c => negb (existsb (N.eqb c) p)) d = true ->
  contains p (a ++ d ++ b) = contains p a || contains p b.
Proof.
  intros Hp Hd Hall. destruct d as [|c d]; [congruence|].
  simpl in Hall. apply andb_prop in Hall as [Hc Hall].
  apply negb_true_iff in Hc.
  change (a ++ (c :: d) ++ b) with (a ++ c :: (d ++ b)).
  rewrite contains_cut by assumption.
  rewrite contains_foreign_run by assumption. reflexivity.
Qed.

Lemma string_of_uint_digits (d : Decimal.uint) :
  forallb digit_or_sign (of_string (NilEmpty.string_of_uint d)) = true.
Proof. induction d; simpl; auto. Qed.

Lemma str_of_int_digits (n : Z) :
  forallb digit_or_sign (str_of_int n) = true.
Proof.
  unfold str_of_int, NilZero.string_of_int.
  destruct (Z.to_int n) as [d|d]; unfold NilZero.string_of_uint.
  - destruct d; try apply string_of_uint_digits; reflexivity.
  - change (of_string (String "-" ?s)) with (45%N :: of_string s).
    destruct d; try (simpl; apply string_of_uint_digits); reflexivity.
Qed.

Lemma str_of_int_nonempty (n : Z) : str_of_int n <> [].
Proof.
  unfold str_of_int, NilZero.string_of_int.
  destruct (Z.to_int n) as [d|d]; unfold NilZero.string_of_uint;
    destruct d; discriminate.
Qed.

Lemma digits_are_ascii (d : pystr) :
  forallb digit_or_sign d = true -> forallb is_ascii d = true.
Proof.
  induction d as [|c d IH]; simpl; [reflexivity|].
  intros H. apply andb_prop in H as [Hc Hd]. rewrite IH by exact Hd.
  rewrite andb_true_r. unfold digit_or_sign in Hc. unfold is_ascii.
  apply N.ltb_lt.
  apply orb_prop in Hc as [Hc|Hc].
  - apply andb_prop in Hc as [_ Hc]. apply N.leb_le in Hc. lia.
  - apply N.eqb_eq in Hc. lia.
Qed.

Lemma digits_lower (d : pystr) :
  forallb digit_or_sign d = true -> map ascii_tolower d = d.
Proof.
  induction d as [|c d IH]; simpl; [reflexivity|].
  intros H. apply andb_prop in H as [Hc Hd]. rewrite IH by exact Hd.
  f_equal. unfold ascii_tolower, ascii_isupper.
  unfold digit_or_sign in Hc.
  destruct (65 <=? c)%N eqn:E1; [|reflexivity].
  apply N.leb_le in E1.
  apply orb_prop in Hc as [Hc|Hc].
  - apply andb_prop in Hc as [_ Hc]. apply N.leb_le in Hc. lia.
  - apply N.eqb_eq in Hc. lia.
Qed.

(** A pattern made of letters, blanks and colons has none of the
    characters of a number. *)
Lemma digits_foreign (p d : pystr) :
  forallb (fun c => negb (digit_or_sign c)) p = true ->
  forallb digit_or_sign d = true ->
  forallb (fun c => negb (existsb (N.eqb c) p)) d = true.
Proof.
  intros Hp. induction d as [|c d IH]; simpl; [reflexivity|].
  intros H. apply andb_prop in H as [Hc Hd]. rewrite IH by exact Hd.
  rewrite andb_true_r. apply negb_true_iff.
  clear IH Hd. induction p as [|x p IHp]; simpl; [reflexivity|].
  simpl in Hp. apply andb_prop in Hp as [Hx Hp]. rewrite IHp by exact Hp.
  rewrite orb_false_r. apply N.eqb_neq. intros ->.
  rewrite Hc in Hx. discriminate.
Qed.

(** [lower] of a message put together from ASCII text and a number. *)
Lemma lower_around_number (u : Unicode) (a b : pystr) (n : Z) :
  forallb is_ascii a = true -> forallb is_ascii b = true ->
  lower u (a ++ str_of_int n ++ b)
  = map ascii_tolower a ++ str_of_int n ++ map ascii_tolower b.
Proof.
  intros Ha Hb. unfold lower.
  rewrite !forallb_app, Ha, Hb, (digits_are_ascii _ (str_of_int_digits n)).
  simpl. rewrite !map_app, (digits_lower _ (str_of_int_digits n)). reflexivity.
Qed.

Lemma contains_around_number (p a b : pystr) (n : Z) :
  p <> [] ->
  forallb (fun c => negb (digit_or_sign c)) p = true ->
  contains p (a ++ str_of_int n ++ b) = contains p a || contains p b.
Proof.
  intros Hne Hp. apply contains_around; auto using str_of_int_nonempty.
  apply digits_foreign; auto using str_of_int_digits.
Qed.

End StringFacts.

(** ** The validation gate *)

Section GateFacts.

Local Open Scope Z_scope.

Variable env : Env.
Variable config : AppConfig.

Lemma too_short_is_reraised :
  query_error_handler env (ValueError too_short_message)
  = Raises (ValueError too_short_message).
Proof. vm_compute. reflexivity. Qed.

Lemma too_long_is_reraised (max : Z) :
  query_error_handler env (ValueError (too_long_message max))
  = Raises (ValueError (too_long_message max)).
Proof.
  unfold query_error_handler, str_of_exn, too_long_message, known_messages.
  rewrite lower_around_number by reflexivity.
  cbn [existsb].
  rewrite !contains_around_number
    by first [ reflexivity | (intro Hnil; vm_compute in Hnil; discriminate Hnil) ].
  (* the first known message holds a digit; the second one settles the test *)
  match goal with
  | |- context [contains (of_string "query must be at least 3 characters long") ?m] =>
      generalize (contains (of_string "query must be at least 3 characters long") m)
  end.
  intros first_known. vm_compute. destruct first_known; reflexivity.
Qed.

(** The handler never lets a query through: it only raises. *)
Lemma query_error_handler_raises (e : exn) :
  exists e', query_error_handler env e = Raises e'.
Proof.
  unfold query_error_handler.
  repeat match goal with
         | |- context [if ?b then _ else _] => destruct b
         end; eexists; reflexivity.
Qed.

Lemma validate_response_output_value (response : pystr) :
  validate_response_output env config response
  = Returns (validated_response env config response).
Proof.
  unfold validate_response_output, validated_response, try_except, bind.
  destruct (response_content_validation env response); reflexivity.
Qed.

Lemma validate_query_checks_returns (query r : pystr) :
  validate_query_checks env config query = Returns r -> r = query.
Proof.
  unfold validate_query_checks, bind.
  destruct (query_content_validation env query); [|discriminate].
  repeat match goal with
         | |- context [if ?b then _ else _] => destruct b
         end; congruence.
Qed.

End GateFacts.

(** C3, as stated, fails. With [MockGuard] in place, a query of 1004
    characters that contains "damn" is over the maximum of 1000 and is
    refused with the generic message, not with the too-long one; and a query
    of 1001 blanks, over the maximum as well, is refused as too short. The
    content checks and the too-short test run before the too-long test. *)
Lemma over_length_query_without_too_long_error :
  (len flagged_long_query >? max_query_length (security defaults))%Z = true
  /\ validate_query_input mock_env defaults flagged_long_query
     = Raises (ValueError generic_message)
  /\ validate_query_input mock_env defaults flagged_long_query
     <> Raises (ValueError (too_long_message (max_query_length (security defaults))))
  /\ (len blank_long_query >? max_query_length (security defaults))%Z = true
  /\ validate_query_input mock_env defaults blank_long_query
     = Raises (ValueError too_short_message)
  /\ validate_query_input mock_env defaults blank_long_query
     <> Raises (ValueError (too_long_message (max_query_length (security defaults)))).
Proof.
  repeat split; try (vm_compute; reflexivity);
    intro H; vm_compute in H; discriminate H.
Qed.

(** C3, amended. For a query the content checks let pass: when its trimmed
    length is below 3 it is refused with the too-short error, and when its
    trimmed length is at least 3 and its length exceeds the configured
    maximum it is refused with the too-long error, whatever else it
    contains. *)
Theorem length_errors_of_clean_queries (env : Env) (config : AppConfig) (query : pystr) :
  query_content_validation env query = Returns tt ->
  ((len (strip query) < 3)%Z ->
   validate_query_input env config query = Raises (ValueError too_short_message))
  /\ ((3 <= len (strip query))%Z ->
      (max_query_length (security config) < len query)%Z ->
      validate_query_input env config query
      = Raises (ValueError (too_long_message (max_query_length (security config))))).
Proof.
  intros Hclean. unfold validate_query_input, validate_query_checks, bind, try_except.
  rewrite Hclean. split.
  - intros Hshort. apply Z.ltb_lt in Hshort. rewrite Hshort.
    apply too_short_is_reraised.
  - intros Hlong Hmax.
    destruct (len (strip query) <? 3)%Z eqn:E; [apply Z.ltb_lt in E; lia|].
    assert (Hgt : (len query >? max_query_length (security config))%Z = true)
      by (apply Z.gtb_lt; exact Hmax).
    rewrite Hgt. apply too_long_is_reraised.
Qed.

Lemma length_errors_of_clean_queries_witness :
  validate_query_input mock_env defaults (py "hi") = Raises (ValueError too_short_message)
  /\ validate_query_input mock_env defaults (repeat 120%N 2000)
     = Raises (ValueError (too_long_message 1000)).
Proof.
  split.
  - apply (proj1 (length_errors_of_clean_queries mock_env defaults (py "hi") eq_refl)).
    vm_compute. reflexivity.
  - apply (proj2 (length_errors_of_clean_queries mock_env defaults (repeat 120%N 2000)
                                                  eq_refl)).
    + vm_compute. intro H. discriminate H.
    + vm_compute. reflexivity.
Defined.

(** C4. [validate_response_output] never raises: it returns the response
    unchanged when every output check passes and the configured fallback
    string when a check raises, whatever it raises. *)
Theorem validate_response_output_never_raises
        (env : Env) (config : AppConfig) (response : pystr) :
  validate_response_output env config response
  = Returns (if returned (response_content_validation env response)
             then response
             else chat_fallback_response config).
Proof. apply validate_response_output_value. Qed.

(** C9. A query that [validate_query_input] accepts comes back as it went
    in. *)
Theorem accepted_query_is_unchanged
        (env : Env) (config : AppConfig) (query validated : pystr) :
  validate_query_input env config query = Returns validated ->
  validated = query.
Proof.
  unfold validate_query_input, try_except.
  destruct (validate_query_checks env config query) as [q|e] eqn:E.
  - intros [= <-]. exact (validate_query_checks_returns env config query E).
  - destruct (query_error_handler_raises env e) as [e' ->]. discriminate.
Qed.

Lemma accepted_query_is_unchanged_witness :
  validate_query_input mock_env defaults python_question = Returns python_question
  /\ python_question = python_question.
Proof.
  split.
  - vm_compute. reflexivity.
  - apply (accepted_query_is_unchanged mock_env defaults python_question).
    vm_compute. reflexivity.
Defined.


(** ** The retrieval index *)

(** Bring both sides of an equation between runs to the same shape. *)
Ltac norm_run :=
  cbn [fst snd trace with_trace chat summary job documents_or_none map];
  rewrite <- ?app_assoc; cbn [app].


(** The population check answers whatever happens inside it. *)
Lemma population_check_never_raises (w : World) (path : pystr) (p : Process) :
  exists populated, snd (_is_vectorstore_populated w path p) = Returns populated.
Proof.
  unfold _is_vectorstore_populated, try_.
  destruct (population_probe w path p) as [p' [populated|e]]; eexists; reflexivity.
Qed.

(** C5, as stated, fails. The index directory exists and is empty; the
    rebuild that follows asks for the embedding model, the provider has no
    API key for it, and [get_vectorstore] raises. No index is returned. *)
Lemma rebuild_of_empty_index_can_raise :
  os_path_exists empty_index_no_embeddings (trace fresh) (vector_db_path (data defaults))
  = true
  /\ os_listdir empty_index_no_embeddings (trace fresh) (vector_db_path (data defaults))
     = Returns []
  /\ snd (get_vectorstore empty_index_no_embeddings defaults fresh)
     = Raises (Exception (py "The api_key client option must be set")).
Proof. repeat split; vm_compute; reflexivity. Qed.

(** C5, amended. When the index directory exists and is empty, or a step of
    the population probe raises, the probe's error goes no further: the
    check answers "not populated" and [get_vectorstore] runs the full build
    and gives what the build gives, the built index or the exception the
    build raised. *)
Theorem failed_probe_ends_in_a_build (w : World) (config : AppConfig) (p : Process) :
  os_path_exists w (trace p) (vector_db_path (data config)) = true ->
  (os_listdir w (trace p) (vector_db_path (data config)) = Returns []
   \/ exists e, snd (population_probe w (vector_db_path (data config)) p) = Raises e) ->
  snd (_is_vectorstore_populated w (vector_db_path (data config)) p) = Returns false
  /\ get_vectorstore w config p
     = setup_vectorstore w config
         (fst (_is_vectorstore_populated w (vector_db_path (data config)) p)).
Proof.
  intros Hfound Hprobe.
  assert (Hfalse : snd (_is_vectorstore_populated w (vector_db_path (data config)) p)
                   = Returns false).
  { unfold _is_vectorstore_populated, try_.
    destruct Hprobe as [Hempty|[e He]].
    - unfold population_probe, mbind, call. rewrite Hempty. reflexivity.
    - destruct (population_probe w (vector_db_path (data config)) p) as [p' r].
      cbn [snd] in He. subst r. reflexivity. }
  split; [exact Hfalse|].
  unfold get_vectorstore, mbind at 1 2, ask. rewrite Hfound.
  destruct (_is_vectorstore_populated w (vector_db_path (data config)) p) as [p' r].
  cbn [snd] in Hfalse. subst r. reflexivity.
Qed.

Lemma failed_probe_ends_in_a_build_witness :
  snd (_is_vectorstore_populated empty_index_no_embeddings
         (vector_db_path (data defaults)) fresh) = Returns false
  /\ get_vectorstore empty_index_no_embeddings defaults fresh
     = setup_vectorstore empty_index_no_embeddings defaults
         (fst (_is_vectorstore_populated empty_index_no_embeddings
                 (vector_db_path (data defaults)) fresh)).
Proof.
  apply (failed_probe_ends_in_a_build empty_index_no_embeddings defaults fresh).
  - vm_compute. reflexivity.
  - left. vm_compute. reflexivity.
Defined.

(** C7. A job-match request whose text is shorter than the configured
    minimum after trimming ends in an HTTP 400 carrying the [ValueError] of
    the ingestion step (the minimum-length message, or "text is required"
    for the empty string), and the process is left as it was: no singleton
    was built and no outside call, retrieval or generation, was made. *)
Theorem short_job_text_is_refused_before_any_call
        (w : World) (config : AppConfig) (text_input : option pystr)
        (user_code company : pystr) (p : Process) :
  (len (strip (str_of_text_input text_input)) < min_job_text_length (security config))%Z ->
  job_match_endpoint w config text_input user_code company p
  = (p, HTTPException 400
          (match str_of_text_input text_input with
           | [] => py "Job description text is required"
           | _ :: _ => min_length_message (min_job_text_length (security config))
           end)).
Proof.
  intros Hshort. apply Z.ltb_lt in Hshort.
  unfold job_match_endpoint, job_match_body, process_job_description, process_text.
  destruct (str_of_text_input text_input) as [|c s]; [reflexivity|].
  unfold mbind at 1. rewrite Hshort, orb_true_r. reflexivity.
Qed.

Lemma short_job_text_is_refused_before_any_call_witness :
  job_match_endpoint working defaults (Some forty_x) (py "DEMO-ACME-1234") (py "Acme") fresh
  = (fresh, HTTPException 400 (min_length_message 50)).
Proof.
  apply (short_job_text_is_refused_before_any_call
           working defaults (Some forty_x) (py "DEMO-ACME-1234") (py "Acme") fresh).
  vm_compute. reflexivity.
Defined.

(** ** Programs and the singletons *)

Section ProgramFacts.

Lemma same_objects_refl (p : Process) : same_objects p p.
Proof. repeat split. Qed.

Lemma same_objects_trans (p q r : Process) :
  same_objects p q -> same_objects q r -> same_objects p r.
Proof. unfold same_objects. intuition congruence. Qed.

Lemma trace_only_ret {A} (a : A) : trace_only (ret a).
Proof. intro p. apply same_objects_refl. Qed.

Lemma trace_only_raise {A} (e : exn) : trace_only (@raise A e).
Proof. intro p. apply same_objects_refl. Qed.

Lemma trace_only_lift {A} (o : outcome A) : trace_only (lift o).
Proof. intro p. apply same_objects_refl. Qed.

Lemma trace_only_ask {A} (f : list event -> A) : trace_only (ask f).
Proof. intro p. apply same_objects_refl. Qed.

Lemma trace_only_validate {A} (w : World) (f : Env -> outcome A) :
  trace_only (validate w f).
Proof. intro p. apply same_objects_refl. Qed.

Lemma trace_only_get_process : trace_only get_process.
Proof. intro p. apply same_objects_refl. Qed.

Lemma trace_only_call {A} (ev : event) (f : list event -> outcome A) :
  trace_only (call ev f).
Proof. intro p. repeat split. Qed.

Lemma trace_only_bind {A B} (m : M A) (k : A -> M B) :
  trace_only m -> (forall a, trace_only (k a)) -> trace_only (mbind m k).
Proof.
  intros Hm Hk p. unfold mbind. specialize (Hm p).
  destruct (m p) as [p' [a|e]]; cbn [fst] in *; [|exact Hm].
  eapply same_objects_trans; [exact Hm|apply Hk].
Qed.

Lemma trace_only_try {A} (m : M A) (h : exn -> M A) :
  trace_only m -> (forall e, trace_only (h e)) -> trace_only (try_ m h).
Proof.
  intros Hm Hh p. unfold try_. specialize (Hm p).
  destruct (m p) as [p' [a|e]]; cbn [fst] in *; [exact Hm|].
  eapply same_objects_trans; [exact Hm|apply Hh].
Qed.

End ProgramFacts.

Create HintDb programs.

#[export] Hint Resolve trace_only_ret trace_only_raise trace_only_lift trace_only_ask
  trace_only_validate trace_only_get_process trace_only_call : programs.

(** Take a program apart along its binds, handlers and tests. *)
Ltac trace_only_tac :=
  cbv zeta;
  repeat first
    [ solve [auto with programs]
    | apply trace_only_bind; [|intros]
    | apply trace_only_try; [|intros]
    | match goal with
      | |- trace_only (if ?b then _ else _) => destruct b
      | |- trace_only (match ?x with _ => _ end) => destruct x
      end ].

Section IndexFacts.

Variable w : World.
Variable config : AppConfig.

Lemma trace_only_load_cv : trace_only (load_cv w config).
Proof. unfold load_cv. trace_only_tac. Qed.

Lemma trace_only_setup_vectorstore : trace_only (setup_vectorstore w config).
Proof.
  pose proof trace_only_load_cv.
  unfold setup_vectorstore, load_about_me. trace_only_tac.
Qed.

Lemma trace_only_is_vectorstore_populated (path : pystr) :
  trace_only (_is_vectorstore_populated w path).
Proof. unfold _is_vectorstore_populated, population_probe. trace_only_tac. Qed.

Lemma trace_only_get_vectorstore : trace_only (get_vectorstore w config).
Proof.
  pose proof trace_only_setup_vectorstore.
  pose proof trace_only_is_vectorstore_populated.
  unfold get_vectorstore. trace_only_tac.
Qed.

Lemma trace_only_load_documents : trace_only (load_documents w config).
Proof.
  pose proof trace_only_load_cv.
  unfold load_documents, load_about_me. trace_only_tac.
Qed.

Lemma trace_only_process_text (text : pystr) : trace_only (process_text w config text).
Proof. unfold process_text. trace_only_tac. Qed.

Lemma trace_only_process_job_description (text : pystr) :
  trace_only (process_job_description w config text).
Proof.
  pose proof trace_only_process_text.
  unfold process_job_description. trace_only_tac.
Qed.

End IndexFacts.

Section SteadyFacts.

Lemma chains_kept_refl (p : Process) : chains_kept p p.
Proof. intros k c H. exact H. Qed.

Lemma chains_kept_trans (p q r : Process) :
  chains_kept p q -> chains_kept q r -> chains_kept p r.
Proof. intros H1 H2 k c H. apply H2, H1, H. Qed.

Lemma same_objects_keeps (p p' : Process) :
  same_objects p p' -> consistent p -> consistent p' /\ chains_kept p p'.
Proof.
  intros (Hc & Hs & Hj) Hp. split.
  - unfold consistent in *. rewrite Hc, Hs, Hj. exact Hp.
  - intros k c. destruct k; cbn [chain_of]; rewrite ?Hc, ?Hs, ?Hj; auto.
Qed.

Lemma steady_of_trace_only {A} (m : M A) : trace_only m -> steady m.
Proof. intros H p Hp. apply same_objects_keeps; [apply H|exact Hp]. Qed.

Lemma steady_bind {A B} (m : M A) (k : A -> M B) :
  steady m -> (forall a, steady (k a)) -> steady (mbind m k).
Proof.
  intros Hm Hk p Hp. unfold mbind. destruct (Hm p Hp) as [Hc Hkept].
  destruct (m p) as [p' [a|e]]; cbn [fst] in *; [|split; assumption].
  destruct (Hk a p' Hc) as [Hc' Hkept']. split; [exact Hc'|].
  eapply chains_kept_trans; eassumption.
Qed.

Lemma steady_try {A} (m : M A) (h : exn -> M A) :
  steady m -> (forall e, steady (h e)) -> steady (try_ m h).
Proof.
  intros Hm Hh p Hp. unfold try_. destruct (Hm p Hp) as [Hc Hkept].
  destruct (m p) as [p' [a|e]]; cbn [fst] in *; [split; assumption|].
  destruct (Hh e p' Hc) as [Hc' Hkept']. split; [exact Hc'|].
  eapply chains_kept_trans; eassumption.
Qed.

(** Appending a turn touches no chain. *)
Lemma steady_set_chat_history (h : list Message) : steady (update (set_chat_history h)).
Proof.
  intros p Hp. unfold update, set_chat_history, with_chat. cbn [fst]. split.
  - unfold consistent in *. cbn. exact Hp.
  - intros k c. destruct k; cbn; auto.
Qed.

End SteadyFacts.

(** ** The chat pipeline *)

Section ChatFacts.

Variable w : World.
Variable config : AppConfig.

Lemma steady_ChatRAGPipeline : steady ChatRAGPipeline_.
Proof.
  intros p Hp. unfold ChatRAGPipeline_, mbind, get_process.
  destruct (chat_initialized (chat p)) eqn:Einit; cbn [fst ret update].
  - split; [exact Hp|apply chains_kept_refl].
  - destruct Hp as (Hchat & Hsummary & Hjob). split.
    + repeat split; cbn; auto.
    + intros k c. destruct k; cbn; auto.
      rewrite (Hchat Einit). discriminate.
Qed.

(** What the chain initialisation leaves alone, and what it ensures when
    it returns. *)
Lemma initialize_qa_chain_effect (p p' : Process) (o : outcome unit) :
  _initialize_qa_chain w config p = (p', o) ->
  summary p' = summary p
  /\ job p' = job p
  /\ chat_initialized (chat p') = chat_initialized (chat p)
  /\ chat_history (chat p') = chat_history (chat p)
  /\ (forall c, qa_chain (chat p) = Some c -> qa_chain (chat p') = Some c)
  /\ (o = Returns tt ->
      chat_initialized (chat p) = true /\ exists c, qa_chain (chat p') = Some c).
Proof.
  unfold _initialize_qa_chain. unfold mbind at 1, get_process.
  destruct (chat_initialized (chat p)) eqn:Einit; cbn [negb].
  2: { intros [= <- <-]. repeat split; auto; discriminate. }
  destruct (qa_chain (chat p)) as [c0|] eqn:Echain.
  { intros [= <- <-]. repeat split; auto; [congruence|eauto]. }
  unfold mbind at 1.
  destruct (trace_only_get_vectorstore w config p) as (Hc & Hs & Hj).
  destruct (get_vectorstore w config p) as [p1 [db|e]]; cbn [fst snd] in *.
  2: { intros [= <- <-]. rewrite Hc, Hs, Hj. repeat split; auto; discriminate. }
  unfold mbind, call, get_process, update, set_qa_chain, with_chat, with_trace.
  destruct (get_language_model w (trace p1)) as [llm|e]; cbn [fst snd trace chat summary job].
  2: { intros [= <- <-]. cbn. rewrite Hc, Hs, Hj. repeat split; auto; discriminate. }
  destruct (assemble w _ qa) as [[]|e]; intros [= <- <-]; cbn;
    rewrite ?Hc, ?Hs, ?Hj; repeat split; auto; try discriminate.
  eauto.
Qed.

Lemma steady_initialize_qa_chain : steady (_initialize_qa_chain w config).
Proof.
  intros p Hp.
  destruct (_initialize_qa_chain w config p) as [p' o] eqn:E.
  pose proof E as E'. apply initialize_qa_chain_effect in E'.
  destruct E' as (Hs & Hj & Hi & _ & Hkeep & _). cbn [fst].
  destruct Hp as (Hchat & Hsummary & Hjob). split.
  - unfold consistent. rewrite Hs, Hj, Hi. repeat split; auto.
    intros Einit. specialize (Hchat Einit).
    unfold _initialize_qa_chain, mbind, get_process in E. rewrite Einit in E.
    cbn in E. injection E as <- _. exact Hchat.
  - intros k c. destruct k; cbn [chain_of]; rewrite ?Hs, ?Hj; auto.
Qed.

Lemma trace_only_qa_chain_invoke (chain : Chain) (input : pystr) (h : list Message) :
  trace_only (qa_chain_invoke w config chain input h).
Proof. unfold qa_chain_invoke. trace_only_tac. Qed.

Lemma steady_completion_body (query : pystr) : steady (completion_body w config query).
Proof.
  unfold completion_body.
  apply steady_bind; [apply steady_of_trace_only; auto with programs|intros p].
  apply steady_bind; [apply steady_set_chat_history|intros _].
  apply steady_bind.
  { apply steady_of_trace_only. destruct (qa_chain (chat p)).
    - apply trace_only_qa_chain_invoke.
    - auto with programs. }
  intros result. apply steady_bind.
  { apply steady_of_trace_only. trace_only_tac. }
  intros answer. apply steady_bind; [apply steady_of_trace_only; auto with programs|].
  intros p'. apply steady_bind; [apply steady_set_chat_history|intros _].
  apply steady_of_trace_only. auto with programs.
Qed.

Lemma steady_get_completion (query : pystr) (md : option (dict pystr)) :
  steady (get_completion w config query md).
Proof.
  unfold get_completion.
  apply steady_bind; [apply steady_initialize_qa_chain|intros _].
  apply steady_bind; [apply steady_of_trace_only; auto with programs|intros run].
  apply steady_try; [apply steady_completion_body|].
  intros e. apply steady_of_trace_only. trace_only_tac.
Qed.

Lemma steady_get_chat_completion (query : pystr) (md : option (dict pystr)) :
  steady (get_chat_completion w config query md).
Proof.
  unfold get_chat_completion.
  apply steady_bind; [apply steady_ChatRAGPipeline|intros _].
  apply steady_get_completion.
Qed.

End ChatFacts.

(** ** The summary and job-match pipelines *)

Section SummaryAndJobFacts.

Variable w : World.
Variable config : AppConfig.

Lemma steady_SummaryGenerator : steady (SummaryGenerator_ w).
Proof.
  intros p Hp. unfold SummaryGenerator_, mbind, get_process.
  destruct (summary_initialized (summary p)) eqn:Einit; cbn [fst ret].
  - split; [exact Hp|apply chains_kept_refl].
  - unfold call, update. destruct Hp as (Hchat & Hsummary & Hjob).
    destruct (get_language_model w (trace p)); cbn; split;
      try (repeat split; cbn; auto; fail);
      intros k c; destruct k; cbn; auto;
      rewrite (Hsummary Einit); discriminate.
Qed.

Lemma initialize_summary_chain_effect (p p' : Process) (o : outcome unit) :
  _initialize_summary_chain w p = (p', o) ->
  chat p' = chat p
  /\ job p' = job p
  /\ summary_initialized (summary p') = summary_initialized (summary p)
  /\ (forall c, summary_chain (summary p) = Some c -> summary_chain (summary p') = Some c)
  /\ (summary_chain (summary p) = None -> o <> Returns tt ->
      summary_chain (summary p') = None)
  /\ (o = Returns tt -> exists c, summary_chain (summary p') = Some c).
Proof.
  unfold _initialize_summary_chain. unfold mbind at 1, get_process.
  destruct (summary_initialized (summary p)) eqn:Einit.
  2: { intros [= <- <-]. repeat split; auto; discriminate. }
  destruct (summary_llm (summary p)) as [llm|] eqn:Ellm.
  2: { intros [= <- <-]. repeat split; auto; discriminate. }
  destruct (summary_chain (summary p)) as [c0|] eqn:Echain.
  { intros [= <- <-]. repeat split; auto; [congruence|congruence|eauto]. }
  unfold mbind, call, get_process, update, with_summary, with_trace.
  destruct (assemble w (trace p) summarization) as [[]|e]; intros [= <- <-]; cbn;
    repeat split; auto; try discriminate; try congruence.
  eauto.
Qed.

Lemma steady_initialize_summary_chain : steady (_initialize_summary_chain w).
Proof.
  intros p Hp.
  destruct (_initialize_summary_chain w p) as [p' o] eqn:E.
  pose proof E as E'. apply initialize_summary_chain_effect in E'.
  destruct E' as (Hc & Hj & Hi & Hkeep & _ & _). cbn [fst].
  destruct Hp as (Hchat & Hsummary & Hjob). split.
  - unfold consistent. rewrite Hc, Hj, Hi. repeat split; auto.
    intros Einit. specialize (Hsummary Einit).
    unfold _initialize_summary_chain, mbind, get_process in E. rewrite Einit in E.
    cbn in E. injection E as <- _. exact Hsummary.
  - intros k c. destruct k; cbn [chain_of]; rewrite ?Hc, ?Hj; auto.
Qed.

Lemma trace_only_summary_body (style : pystr) (run : option RunTree) :
  trace_only (summary_body w config style run).
Proof.
  pose proof (trace_only_load_documents w config).
  unfold summary_body. trace_only_tac.
Qed.

Lemma steady_generate_summary (style : pystr) (md : option (dict pystr)) :
  steady (generate_summary w config style md).
Proof.
  unfold generate_summary.
  apply steady_bind; [apply steady_initialize_summary_chain|intros _].
  apply steady_bind; [apply steady_of_trace_only; auto with programs|intros run].
  apply steady_of_trace_only. apply trace_only_try.
  - apply trace_only_summary_body.
  - intros e. auto with programs.
Qed.

Lemma steady_get_auto_summary (style : pystr) (md : option (dict pystr)) :
  steady (get_auto_summary w config style md).
Proof.
  unfold get_auto_summary.
  apply steady_bind; [apply steady_SummaryGenerator|intros _].
  apply steady_generate_summary.
Qed.

Lemma steady_JobMatchingAnalyzer : steady (JobMatchingAnalyzer_ w).
Proof.
  intros p Hp. unfold JobMatchingAnalyzer_, mbind, get_process.
  destruct (job_initialized (job p)) eqn:Einit; cbn [fst ret].
  - split; [exact Hp|apply chains_kept_refl].
  - unfold call, update. destruct Hp as (Hchat & Hsummary & Hjob).
    destruct (get_language_model w (trace p)); cbn; split;
      try (repeat split; cbn; auto; fail);
      intros k c; destruct k; cbn; auto;
      rewrite (Hjob Einit); discriminate.
Qed.

Lemma initialize_matching_chain_effect (p p' : Process) (o : outcome unit) :
  _initialize_matching_chain w p = (p', o) ->
  chat p' = chat p
  /\ summary p' = summary p
  /\ job_initialized (job p') = job_initialized (job p)
  /\ (forall c, matching_chain (job p) = Some c -> matching_chain (job p') = Some c)
  /\ (o = Returns tt -> exists c, matching_chain (job p') = Some c).
Proof.
  unfold _initialize_matching_chain. unfold mbind at 1, get_process.
  destruct (job_initialized (job p)) eqn:Einit.
  2: { intros [= <- <-]. repeat split; auto; discriminate. }
  destruct (job_llm (job p)) as [llm|] eqn:Ellm.
  2: { intros [= <- <-]. repeat split; auto; discriminate. }
  destruct (matching_chain (job p)) as [c0|] eqn:Echain.
  { intros [= <- <-]. repeat split; auto; [congruence|eauto]. }
  unfold mbind, call, get_process, update, with_job, with_trace.
  destruct (assemble w (trace p) matching) as [[]|e]; intros [= <- <-]; cbn;
    repeat split; auto; try discriminate.
  eauto.
Qed.

Lemma steady_initialize_matching_chain : steady (_initialize_matching_chain w).
Proof.
  intros p Hp.
  destruct (_initialize_matching_chain w p) as [p' o] eqn:E.
  pose proof E as E'. apply initialize_matching_chain_effect in E'.
  destruct E' as (Hc & Hs & Hi & Hkeep & _). cbn [fst].
  destruct Hp as (Hchat & Hsummary & Hjob). split.
  - unfold consistent. rewrite Hc, Hs, Hi. repeat split; auto.
    intros Einit. specialize (Hjob Einit).
    unfold _initialize_matching_chain, mbind, get_process in E. rewrite Einit in E.
    cbn in E. injection E as <- _. exact Hjob.
  - intros k c. destruct k; cbn [chain_of]; rewrite ?Hc, ?Hs; auto.
Qed.

Lemma trace_only_matching_body (job_description : Document) (run : option RunTree) :
  trace_only (matching_body w config job_description run).
Proof.
  pose proof (trace_only_get_vectorstore w config).
  unfold matching_body. trace_only_tac.
Qed.

Lemma steady_analyze_job_match (job_description : Document) (md : option (dict pystr)) :
  steady (analyze_job_match w config job_description md).
Proof.
  unfold analyze_job_match, analyze_job_match_.
  apply steady_bind; [apply steady_JobMatchingAnalyzer|intros _].
  apply steady_bind; [apply steady_initialize_matching_chain|intros _].
  apply steady_bind; [apply steady_of_trace_only; auto with programs|intros run].
  apply steady_of_trace_only. apply trace_only_try.
  - apply trace_only_matching_body.
  - intros e. auto with programs.
Qed.

Lemma steady_job_match_body (text_input : option pystr) (user_code company : pystr) :
  steady (job_match_body w config text_input user_code company).
Proof.
  unfold job_match_body.
  apply steady_bind.
  { apply steady_of_trace_only, trace_only_process_job_description. }
  intros job_description. cbv zeta.
  apply steady_bind; [apply steady_analyze_job_match|intros analysis_result].
  apply steady_of_trace_only. trace_only_tac.
Qed.

Lemma job_match_endpoint_process (text_input : option pystr) (user_code company : pystr)
      (p : Process) :
  fst (job_match_endpoint w config text_input user_code company p)
  = fst (job_match_body w config text_input user_code company p).
Proof.
  unfold job_match_endpoint.
  destruct (job_match_body w config text_input user_code company p) as [p' [body|[m|m]]];
    reflexivity.
Qed.

(** Answering a request keeps every chain that was set. *)
Lemma serve_keeps_chains (r : request) (p : Process) :
  consistent p -> consistent (serve w config r p) /\ chains_kept p (serve w config r p).
Proof.
  intros Hp. destruct r; cbn [serve].
  - apply steady_get_chat_completion, Hp.
  - apply steady_get_auto_summary, Hp.
  - assert (H : steady (SummaryGenerator_ w ;;~ _initialize_summary_chain w)).
    { apply steady_bind; [apply steady_SummaryGenerator|intros _].
      apply steady_initialize_summary_chain. }
    apply H, Hp.
  - rewrite job_match_endpoint_process. apply steady_job_match_body, Hp.
Qed.

Lemma serve_all_keeps_chains (rs : list request) (p : Process) :
  consistent p ->
  consistent (serve_all w config rs p) /\ chains_kept p (serve_all w config rs p).
Proof.
  revert p. induction rs as [|r rs IH]; intros p Hp; cbn [serve_all fold_left].
  - split; [exact Hp|apply chains_kept_refl].
  - destruct (serve_keeps_chains r Hp) as [Hc Hk].
    destruct (IH _ Hc) as [Hc' Hk']. split; [exact Hc'|].
    eapply chains_kept_trans; eassumption.
Qed.

End SummaryAndJobFacts.

Lemma consistent_fresh : consistent fresh.
Proof. repeat split. Qed.

(** X29. With the requests of a process answered one after the other,
    whatever they are and whatever the world answered, a chain field that
    holds a chain holds that same chain after any further requests: no
    pipeline builds its chain a second time or replaces it. *)
Theorem built_chain_is_kept (w : World) (config : AppConfig)
        (earlier later : list request) (k : ChainKind) (c : Chain) :
  chain_of k (serve_all w config earlier fresh) = Some c ->
  chain_of k (serve_all w config (earlier ++ later) fresh) = Some c.
Proof.
  intros Hbuilt. unfold serve_all in *. rewrite fold_left_app.
  destruct (serve_all_keeps_chains w config earlier consistent_fresh) as [Hc _].
  destruct (serve_all_keeps_chains w config later Hc) as [_ Hkept].
  apply Hkept, Hbuilt.
Qed.

Lemma built_chain_is_kept_witness :
  chain_of qa (serve_all working defaults
                 ([chat_request projects_question None]
                  ++ [chat_request (py "hi") None;
                      summary_request (py "bullet") None;
                      job_match_request (Some forty_x) (py "DEMO-ACME-1234") (py "Acme")])
                 fresh)
  = Some {| kind := qa; serial := 7; model := 3%N; database := Some 1%N |}.
Proof.
  apply (built_chain_is_kept working defaults
           [chat_request projects_question None]
           [chat_request (py "hi") None;
            summary_request (py "bullet") None;
            job_match_request (Some forty_x) (py "DEMO-ACME-1234") (py "Acme")]
           qa).
  vm_compute. reflexivity.
Defined.

(** ** Concurrent first callers *)

Module DoubleCheckedFacts.

Import DoubleChecked.

Local Open Scope nat_scope.










End DoubleCheckedFacts.

(** ** Replies and turns *)

Section ReplyFacts.

Variable w : World.
Variable config : AppConfig.

Lemma mbind_returns {A B} (m : M A) (k : A -> M B) (p p' : Process) (b : B) :
  mbind m k p = (p', Returns b) ->
  exists p1 a, m p = (p1, Returns a) /\ k a p1 = (p', Returns b).
Proof.
  unfold mbind. destruct (m p) as [p1 [a|e]]; [eauto|discriminate].
Qed.

Lemma generated_answer_of_chain_result (input answer : pystr) (h : list Message)
      (context sources : list Document) :
  generated_answer [(py "answer", VDict (chain_result input h context answer));
                    (py "sources", VDocs sources)]
  = Some answer.
Proof. reflexivity. Qed.

Lemma generated_answer_of_message_reply (message : pystr) :
  generated_answer (message_reply message) = None.
Proof. reflexivity. Qed.

(** The [try] block of the chat, step by step, on an instance whose chain
    is built. *)
Lemma completion_body_run (query : pystr) (p : Process) (chain : Chain) :
  qa_chain (chat p) = Some chain ->
  let h := history_of (chat p) ++ [HumanMessage query] in
  let p1 := set_chat_history h p in
  completion_body w config query p
  = match validate_query_input (validation_env w (trace p)) config query with
    | Raises e => (p1, Raises e)
    | Returns input =>
        let p2 := with_trace (trace p ++ [invoke_call chain]) p1 in
        match base_qa_chain w (trace p) chain input h with
        | Raises e => (p2, Raises e)
        | Returns base =>
            let answer := validated_response (validation_env w (trace p2)) config
                                             (snd base) in
            (set_chat_history (h ++ [AIMessage answer]) p2,
             Returns [(py "answer", VDict (chain_result input h (fst base) answer));
                      (py "sources", VDocs (fst base))])
        end
    end.
Proof.
  intros Hchain. cbv zeta.
  unfold completion_body, qa_chain_invoke.
  unfold mbind, get_process, update, validate, call, ret.
  rewrite Hchain. cbn [trace set_chat_history with_chat with_trace].
  destruct (validate_query_input _ config query) as [input|e]; [|reflexivity].
  destruct (base_qa_chain w (trace p) chain input _) as [base|e]; [|reflexivity].
  rewrite validate_response_output_value. reflexivity.
Qed.

(** What one call of [get_completion] that returns adds to the history. *)
Lemma get_completion_turns (query : pystr) (md : option (dict pystr))
      (p p' : Process) (reply : dict value) :
  get_completion w config query md p = (p', Returns reply) ->
  history_of (chat p')
  = history_of (chat p)
    ++ HumanMessage query
       :: match generated_answer reply with
          | Some a => [AIMessage a]
          | None => []
          end.
Proof.
  unfold get_completion. intros H.
  apply mbind_returns in H as (p1 & [] & Hinit & H).
  apply initialize_qa_chain_effect in Hinit as (_ & _ & _ & Hhist & _ & Hbuilt).
  destruct (Hbuilt eq_refl) as (_ & chain & Hchain).
  assert (Hsame : history_of (chat p1) = history_of (chat p))
    by (unfold history_of; rewrite Hhist; reflexivity).
  unfold mbind, ask, try_ in H.
  rewrite (completion_body_run query p1 Hchain) in H. cbv zeta in H.
  destruct (validate_query_input _ config query) as [input|e].
  - destruct (base_qa_chain w (trace p1) chain input _) as [base|e].
    + injection H as <- <-. rewrite generated_answer_of_chain_result.
      cbn. rewrite Hsame, <- app_assoc. reflexivity.
    + destruct e as [m|m].
      * injection H as <- <-. cbn. rewrite Hsame. reflexivity.
      * unfold mbind, lift, ret in H.
        destruct (format_candidate_name w _ _) as [f|e]; [|discriminate].
        injection H as <- <-. cbn. rewrite Hsame. reflexivity.
  - destruct e as [m|m].
    + injection H as <- <-. cbn. rewrite Hsame. reflexivity.
    + unfold mbind, lift, ret in H.
      destruct (format_candidate_name w _ _) as [f|e]; [|discriminate].
      injection H as <- <-. cbn. rewrite Hsame. reflexivity.
Qed.

Lemma turns_of_answered (queries : list pystr) (results : list (outcome (dict value))) :
  List.length results = List.length queries ->
  forallb answered results = true ->
  List.length (turns_of queries results) = (2 * List.length queries)%nat
  /\ map role (turns_of queries results) = alternating (List.length queries).
Proof.
  revert results. induction queries as [|q qs IH]; intros [|r rs] Hlen Hall;
    try discriminate; [split; reflexivity|].
  cbn [forallb] in Hall. apply andb_prop in Hall as [Hr Hrs].
  injection Hlen as Hlen. destruct (IH rs Hlen Hrs) as [IHlen IHroles].
  unfold answered in Hr. destruct r as [reply|e]; [|discriminate].
  cbn [turns_of]. destruct (generated_answer reply); [|discriminate].
  cbn [app List.length map role HumanMessage AIMessage alternating].
  rewrite IHlen, IHroles. split; [lia|reflexivity].
Qed.

Lemma chat_calls_length (queries : list pystr) (p p' : Process)
      (results : list (outcome (dict value))) :
  chat_calls w config queries p = (p', results) ->
  List.length results = List.length queries.
Proof.
  revert p p' results. induction queries as [|q qs IH]; intros p p' results H; cbn in H.
  - injection H as _ <-. reflexivity.
  - destruct (get_completion w config q None p) as [p1 r].
    destruct (chat_calls w config qs p1) as [p2 rs] eqn:E.
    injection H as _ <-. cbn. f_equal. eapply IH, E.
Qed.

End ReplyFacts.

(** C2, as stated, fails. On a started pipeline one call with the query
    "hi" has its chain built, records the human turn, and then has the query
    refused as too short: the reply carries the validation message and the
    history holds one turn, not two. *)
Lemma refused_query_leaves_one_turn :
  history_of (chat (fst (chat_calls working defaults [py "hi"] chat_started)))
  = [HumanMessage (py "hi")]
  /\ List.length (history_of (chat (fst (chat_calls working defaults [py "hi"]
                                                     chat_started))))
     <> (2 * 1)%nat
  /\ snd (chat_calls working defaults [py "hi"] chat_started)
     = [Returns (message_reply too_short_message)].
Proof.
  repeat split; try (vm_compute; reflexivity).
  vm_compute. intros H. discriminate H.
Qed.

(** C2, amended. After K sequential calls of [get_completion] that all
    returned, the history has grown, in call order, by the human turn of
    each call, followed by its assistant turn exactly when the call produced
    an answer; when all K calls produced one, these are exactly 2K turns,
    human and assistant alternating. *)
Theorem chat_history_after_calls (w : World) (config : AppConfig)
        (queries : list pystr) (p p' : Process) (results : list (outcome (dict value))) :
  chat_calls w config queries p = (p', results) ->
  forallb returned results = true ->
  history_of (chat p') = history_of (chat p) ++ turns_of queries results
  /\ (forallb answered results = true ->
      List.length (turns_of queries results) = (2 * List.length queries)%nat
      /\ map role (turns_of queries results) = alternating (List.length queries)).
Proof.
  intros Hrun Hreturned. split.
  - revert p p' results Hrun Hreturned.
    induction queries as [|q qs IH]; intros p p' results Hrun Hreturned; cbn in Hrun.
    + injection Hrun as <- <-. cbn. rewrite app_nil_r. reflexivity.
    + destruct (get_completion w config q None p) as [p1 r] eqn:Ecall.
      destruct (chat_calls w config qs p1) as [p2 rs] eqn:Erest.
      injection Hrun as <- <-. cbn [forallb] in Hreturned.
      apply andb_prop in Hreturned as [Hr Hrs].
      destruct r as [reply|e]; [|discriminate].
      apply get_completion_turns in Ecall.
      rewrite (IH p1 p2 rs Erest Hrs), Ecall.
      cbn [turns_of]. rewrite <- app_assoc. reflexivity.
  - intros Hanswered. apply turns_of_answered; [|exact Hanswered].
    eapply chat_calls_length, Hrun.
Qed.

Lemma chat_history_after_calls_witness :
  history_of (chat (fst (chat_calls working defaults [projects_question; py "hi"]
                                    chat_started)))
  = history_of (chat chat_started)
    ++ turns_of [projects_question; py "hi"]
                (snd (chat_calls working defaults [projects_question; py "hi"]
                                 chat_started)).
Proof.
  apply (proj1 (@chat_history_after_calls working defaults [projects_question; py "hi"]
                  chat_started
                  (fst (chat_calls working defaults [projects_question; py "hi"]
                                   chat_started))
                  (snd (chat_calls working defaults [projects_question; py "hi"]
                                   chat_started))
                  eq_refl eq_refl)).
Defined.

(** ** The three invoke operations *)

Section InvokeFacts.

Variable w : World.
Variable config : AppConfig.


Lemma matching_body_reply (job_description : Document) (run : option RunTree)
      (p p' : Process) (d : dict value) :
  matching_body w config job_description run p = (p', Returns d) ->
  exists analysis sections,
    d = [(py "analysis", VStr analysis);
         (py "job_source", VStr (source_of job_description));
         (py "match_timestamp", timestamp_of run);
         (py "relevant_sections", VStrs sections)].
Proof.
  unfold matching_body. intros H.
  apply mbind_returns in H as (p1 & db & _ & H). cbv zeta in H.
  apply mbind_returns in H as (p2 & relevant_docs & _ & H).
  apply mbind_returns in H as (p3 & valid & _ & H).
  apply mbind_returns in H as (p4 & p0 & _ & H).
  apply mbind_returns in H as (p5 & analysis & _ & H).
  injection H as _ <-. eauto.
Qed.


End InvokeFacts.

(** An exception of the chain initialisation leaves the operation as it
    is: the initialisation runs before the [try]. *)
Lemma failed_initialisation_escapes (w : World) (config : AppConfig) (op : operation)
      (p : Process) (e : exn) :
  snd (initialize_chain w config op p) = Raises e ->
  snd (invoke w config op p) = Raises e.
Proof.
  destruct op; cbn [initialize_chain invoke];
    unfold get_completion, generate_summary, analyze_job_match_, mbind at 1;
    match goal with
    | |- snd ?init = _ -> _ => destruct init as [p1 [[]|e1]]
    end; cbn [snd]; intros [= <-]; reflexivity.
Qed.





(** * Further properties *)

(** ** The query gate *)

Section MoreGateFacts.

Local Open Scope Z_scope.

Variable env : Env.
Variable config : AppConfig.

Lemma irrelevant_is_reraised :
  query_error_handler env (ValueError irrelevant_message)
  = Raises (ValueError irrelevant_message).
Proof. vm_compute. reflexivity. Qed.

Lemma inappropriate_becomes_generic :
  query_error_handler env (Exception inappropriate_message)
  = Raises (ValueError generic_message).
Proof. vm_compute. reflexivity. Qed.

End MoreGateFacts.

(** X1. [validate_query_input] returns the query exactly when the content
    checks return, the trimmed query has at least 3 characters, the query
    has at most the configured maximum, and its lower-case form holds none
    of the five off-topic keywords. *)
Theorem query_accepted_exactly_when_all_checks_pass
        (env : Env) (config : AppConfig) (query : pystr) :
  validate_query_input env config query = Returns query
  <-> (query_content_validation env query = Returns tt
       /\ (3 <= len (strip query))%Z
       /\ (len query <= max_query_length (security config))%Z
       /\ existsb (fun keyword => contains keyword (lower (unicode env) query))
                  irrelevant_keywords = false).
Proof.
  unfold validate_query_input, validate_query_checks, bind, try_except. split.
  - destruct (query_content_validation env query) as [[]|e].
    2: { destruct (query_error_handler_raises env e) as [e' ->]. discriminate. }
    destruct (len (strip query) <? 3)%Z eqn:Eshort.
    { rewrite too_short_is_reraised. discriminate. }
    destruct (len query >? max_query_length (security config))%Z eqn:Elong.
    { rewrite too_long_is_reraised. discriminate. }
    destruct (existsb _ irrelevant_keywords) eqn:Etopic.
    { rewrite irrelevant_is_reraised. discriminate. }
    intros _. apply Z.ltb_ge in Eshort.
    rewrite Z.gtb_ltb in Elong. apply Z.ltb_ge in Elong. auto.
  - intros (-> & Hshort & Hlong & ->).
    apply Z.ltb_ge in Hshort. rewrite Hshort.
    apply Z.ltb_ge in Hlong. rewrite Z.gtb_ltb, Hlong. reflexivity.
Qed.

(** X2. Without the Guardrails package a query meets exactly one of five
    ends, tested in this order: a flagged word in its lower-case form gives
    the generic "Unable to process" message (never the "professionally"
    one), a trimmed length below 3 the too-short message, a length over the
    maximum the too-long message, an off-topic keyword the relevance
    message, and otherwise the query comes back. *)
Theorem mock_guard_decision_table (u : Unicode) (config : AppConfig) (query : pystr) :
  validate_query_input {| unicode := u; guardrails := None |} config query
  = if existsb (fun word => contains word (lower u query)) inappropriate_words then
      Raises (ValueError generic_message)
    else if (len (strip query) <? 3)%Z then
      Raises (ValueError too_short_message)
    else if (len query >? max_query_length (security config))%Z then
      Raises (ValueError (too_long_message (max_query_length (security config))))
    else if existsb (fun keyword => contains keyword (lower u query)) irrelevant_keywords then
      Raises (ValueError irrelevant_message)
    else Returns query.
Proof.
  unfold validate_query_input, validate_query_checks, query_content_validation,
    MockGuard_validate, bind, try_except.
  cbn [guardrails unicode].
  destruct (existsb _ inappropriate_words).
  { apply inappropriate_becomes_generic. }
  destruct (len (strip query) <? 3)%Z; [apply too_short_is_reraised|].
  destruct (len query >? max_query_length (security config))%Z;
    [apply too_long_is_reraised|].
  destruct (existsb _ irrelevant_keywords); [apply irrelevant_is_reraised|reflexivity].
Qed.

(** X3. Whatever the content checkers raise, what leaves
    [validate_query_input] is one of three fixed [ValueError] messages, or
    an exception whose lower-case text holds one of the three known
    messages: no other text of a checker reaches the caller. *)
Theorem refusals_carry_known_messages
        (env : Env) (config : AppConfig) (query : pystr) (e : exn) :
  validate_query_input env config query = Raises e ->
  In e [ValueError injection_message; ValueError professional_message;
        ValueError generic_message]
  \/ existsb (fun term => contains term (lower (unicode env) (str_of_exn e)))
             known_messages = true.
Proof.
  unfold validate_query_input, try_except.
  destruct (validate_query_checks env config query) as [q|e0]; [discriminate|].
  unfold query_error_handler.
  destruct (contains (py "injection") _).
  { intros [= <-]. left. left. reflexivity. }
  destruct (existsb _ [py "profanity"; py "toxic:"]).
  { intros [= <-]. left. right. left. reflexivity. }
  destruct (existsb _ known_messages) eqn:Eknown.
  { intros [= <-]. right. exact Eknown. }
  intros [= <-]. left. right. right. left. reflexivity.
Qed.

Lemma refusals_carry_known_messages_witness :
  In (ValueError too_short_message)
     [ValueError injection_message; ValueError professional_message;
      ValueError generic_message]
  \/ existsb (fun term => contains term
                            (lower (unicode mock_env)
                                   (str_of_exn (ValueError too_short_message))))
             known_messages = true.
Proof.
  apply (refusals_carry_known_messages mock_env defaults (py "hi")).
  vm_compute. reflexivity.
Defined.

(** ** Searching *)

Section SearchFacts.

Lemma startswith_app (p rest : pystr) : startswith p (p ++ rest) = true.
Proof. induction p as [|c p IH]; [reflexivity|]. cbn. rewrite N.eqb_refl. exact IH. Qed.

Lemma contains_unfold (p s : pystr) :
  contains p s = startswith p s || match s with [] => false | _ :: s' => contains p s' end.
Proof. destruct s; reflexivity. Qed.

(** A word occurs in every text written around it. *)
Lemma contains_middle (p a b : pystr) : contains p (a ++ p ++ b) = true.
Proof.
  induction a as [|c a IH].
  - cbn [app]. rewrite contains_unfold, startswith_app. reflexivity.
  - cbn [app contains]. rewrite IH. apply orb_true_r.
Qed.

Variable u : Unicode.

Lemma search_from_unfold (r : Re.regex) (prev : option codepoint) (s : pystr) :
  Re.search_from u r prev s
  = Re.matches u r (fun _ _ => true) prev s
    || match s with [] => false | c :: t => Re.search_from u r (Some c) t end.
Proof. destruct s; reflexivity. Qed.

(** A match that does not look at what stands before it is found wherever
    it starts. *)
Lemma search_from_app (r : Re.regex) (a s : pystr) (prev : option codepoint) :
  (forall prev', Re.matches u r (fun _ _ => true) prev' s = true) ->
  Re.search_from u r prev (a ++ s) = true.
Proof.
  intros Hmatch. revert prev. induction a as [|c a IH]; intros prev.
  - cbn [app]. rewrite search_from_unfold, Hmatch. reflexivity.
  - cbn [app Re.search_from]. rewrite IH. apply orb_true_r.
Qed.

(** An ASCII text matches, letter by letter and whatever the case, the
    pattern made of its lower-case form. *)
Lemma literal_matches_any_case (c : codepoint) :
  is_ascii c = true ->
  Re.atom_matches u (Re.literal (ascii_tolower c)) c = true.
Proof.
  intros Hascii. unfold Re.literal.
  assert (Hlow : is_ascii (ascii_tolower c) = true).
  { unfold is_ascii, ascii_tolower, ascii_isupper in *.
    destruct ((65 <=? c) && (c <=? 90))%N eqn:E; [|exact Hascii].
    apply andb_prop in E as [_ E]. apply N.leb_le in E. apply N.ltb_lt. lia. }
  rewrite Hlow.
  destruct (Re.ascii_isalpha (ascii_tolower c)) eqn:Ealpha; cbn [Re.atom_matches].
  - unfold Re.tolower. rewrite Hascii.
    assert (Hidem : ascii_tolower (ascii_tolower c) = ascii_tolower c).
    { unfold ascii_tolower, ascii_isupper.
      destruct ((65 <=? c) && (c <=? 90))%N eqn:E; [|rewrite E; reflexivity].
      apply andb_prop in E as [E1 _]. apply N.leb_le in E1.
      assert (E2 : ((c + 32 <=? 90) = false)%N) by (apply N.leb_gt; lia).
      rewrite E2, andb_false_r. reflexivity. }
    rewrite Hidem, N.eqb_refl. reflexivity.
  - unfold ascii_tolower in *. unfold ascii_isupper in *.
    destruct ((65 <=? c) && (c <=? 90))%N eqn:E; [|apply N.eqb_refl].
    exfalso. apply andb_prop in E as [E1 E2].
    apply N.leb_le in E1. apply N.leb_le in E2.
    unfold Re.ascii_isalpha in Ealpha.
    apply orb_false_elim in Ealpha as [_ Ealpha].
    apply andb_false_iff in Ealpha as [Ealpha|Ealpha].
    + apply N.leb_gt in Ealpha. lia.
    + apply N.leb_gt in Ealpha. lia.
Qed.

Lemma matches_lit_any_case (t rest : pystr) (k : Re.cont) (prev : option codepoint) :
  forallb is_ascii t = true ->
  (forall prev', k prev' rest = true) ->
  Re.matches u (Re.lit (map ascii_tolower t)) k prev (t ++ rest) = true.
Proof.
  intros Hascii Hk. revert prev. induction t as [|c t IH]; intros prev.
  - cbn. apply Hk.
  - cbn [forallb] in Hascii. apply andb_prop in Hascii as [Hc Ht].
    cbn [map Re.lit Re.matches app].
    rewrite (literal_matches_any_case c Hc). cbn [andb]. apply IH, Ht.
Qed.

(** A run of characters of a class, then the rest of the pattern. *)
Lemma star_run (a : Re.atom) (k : Re.cont) (run rest : pystr) (prev : option codepoint) :
  forallb (Re.atom_matches u a) run = true ->
  (forall prev', k prev' rest = true) ->
  Re.star u a k prev (run ++ rest) = true.
Proof.
  intros Hrun Hk. revert prev. induction run as [|c run IH]; intros prev.
  - cbn [app]. destruct rest; cbn [Re.star]; rewrite Hk; auto using orb_true_r.
  - cbn [forallb] in Hrun. apply andb_prop in Hrun as [Hc Hrun].
    cbn [app Re.star]. rewrite Hc, (IH Hrun). reflexivity.
Qed.

End SearchFacts.

(** X4. [MockGuard] looks at the lower-case form of the text: an ASCII
    text that holds one of its three words in any mix of upper and lower
    case is refused. *)
Theorem mock_guard_catches_any_letter_case (u : Unicode) (a w b : pystr) :
  In (map ascii_tolower w) inappropriate_words ->
  forallb is_ascii (a ++ w ++ b) = true ->
  MockGuard_validate u (a ++ w ++ b) = Raises (Exception inappropriate_message).
Proof.
  intros Hword Hascii. unfold MockGuard_validate, lower. rewrite Hascii.
  assert (Hfound : existsb (fun word => contains word (map ascii_tolower (a ++ w ++ b)))
                           inappropriate_words = true).
  { apply existsb_exists. exists (map ascii_tolower w). split; [exact Hword|].
    rewrite !map_app. apply contains_middle. }
  rewrite Hfound. reflexivity.
Qed.

Lemma mock_guard_catches_any_letter_case_witness :
  MockGuard_validate ascii_only (py "Well, " ++ py "DaMn" ++ py " it.")
  = Raises (Exception inappropriate_message).
Proof.
  apply (mock_guard_catches_any_letter_case ascii_only (py "Well, ") (py "DaMn") (py " it.")).
  - vm_compute. right. right. left. reflexivity.
  - vm_compute. reflexivity.
Defined.

Section JobTextFacts.

Variable env : Env.
Variable config : AppConfig.

Lemma tag_is_found (a t b : pystr) :
  forallb is_ascii t = true ->
  In (Re.lit (map ascii_tolower t)) dangerous_tags ->
  has_dangerous_tag env (a ++ t ++ b) = true.
Proof.
  intros Hascii Htag. unfold has_dangerous_tag. apply existsb_exists.
  exists (Re.lit (map ascii_tolower t)). split; [exact Htag|].
  unfold Re.search. apply search_from_app. intros prev.
  apply matches_lit_any_case; [exact Hascii|reflexivity].
Qed.

Lemma event_is_found (a o w sp b : pystr) :
  forallb is_ascii o = true ->
  map ascii_tolower o = py "on" ->
  w <> [] ->
  forallb (Re.isword (unicode env)) w = true ->
  forallb isspace sp = true ->
  has_dangerous_event env (a ++ o ++ w ++ sp ++ [61%N] ++ b) = true.
Proof.
  intros Hascii Hon Hw Hword Hspace.
  unfold has_dangerous_event, dangerous_events. cbn [existsb]. rewrite orb_false_r.
  unfold Re.search. apply search_from_app. intros prev.
  rewrite <- Hon. cbn [Re.matches].
  apply matches_lit_any_case; [exact Hascii|]. intros prev1.
  destruct w as [|c w]; [congruence|].
  cbn [forallb] in Hword. apply andb_prop in Hword as [Hc Hword].
  cbn [app]. cbn [Re.matches Re.atom_matches]. rewrite Hc. cbn [andb].
  apply star_run; [exact Hword|]. intros prev2.
  apply star_run; [exact Hspace|]. intros prev3.
  cbn. reflexivity.
Qed.

(** What [validate_job_text] does once the text is neither empty nor too
    short nor too long and holds a keyword: it raises for a tag or an event
    handler. *)
Lemma unsafe_text_is_not_accepted (text : pystr) :
  has_dangerous_tag env (strip text) = true
  \/ has_dangerous_event env (strip text) = true ->
  validate_job_text env config (PyStr text) <> Returns true.
Proof.
  intros Hunsafe. destruct text as [|c s]; [discriminate|].
  unfold validate_job_text.
  destruct (len (strip (c :: s)) <? _)%Z; [discriminate|].
  destruct (len (strip (c :: s)) >? _)%Z; [discriminate|].
  destruct (has_keywords env (strip (c :: s))); [|discriminate].
  destruct (has_dangerous_tag env (strip (c :: s))); [discriminate|].
  destruct Hunsafe as [Htag|Hevent]; [discriminate|].
  rewrite Hevent. discriminate.
Qed.

End JobTextFacts.

(** X5. [validate_job_text] never returns [True] for a text whose trimmed
    form holds one of the eighteen dangerous tag openers written in ASCII
    in any mix of upper and lower case, wherever it stands. *)
Theorem job_text_with_dangerous_tag_is_never_accepted
        (env : Env) (config : AppConfig) (text a t b : pystr) :
  strip text = a ++ t ++ b ->
  forallb is_ascii t = true ->
  In (Re.lit (map ascii_tolower t)) dangerous_tags ->
  validate_job_text env config (PyStr text) <> Returns true.
Proof.
  intros Hshape Hascii Htag. apply unsafe_text_is_not_accepted. left.
  rewrite Hshape. apply tag_is_found; assumption.
Qed.

Lemma job_text_with_dangerous_tag_is_never_accepted_witness :
  validate_job_text mock_env defaults
    (PyStr (py "We are hiring for a role with great pay " ++ py "<SCRipt" ++ py ">alert(1)"))
  <> Returns true.
Proof.
  apply (job_text_with_dangerous_tag_is_never_accepted mock_env defaults
           (py "We are hiring for a role with great pay " ++ py "<SCRipt" ++ py ">alert(1)")
           (py "We are hiring for a role with great pay ") (py "<SCRipt") (py ">alert(1)")).
  - vm_compute. reflexivity.
  - vm_compute. reflexivity.
  - vm_compute. left. reflexivity.
Defined.

(** X6. [validate_job_text] never returns [True] for a text whose trimmed
    form holds [on] (in any case), then one or more word characters, then
    any white space, then [=]: so a plain phrase such as "Conditions =",
    where "on" is followed by letters and an equals sign, is refused like
    an event handler. *)
Theorem job_text_with_event_handler_is_never_accepted
        (env : Env) (config : AppConfig) (text a o w sp b : pystr) :
  strip text = a ++ o ++ w ++ sp ++ [61%N] ++ b ->
  forallb is_ascii o = true ->
  map ascii_tolower o = py "on" ->
  w <> [] ->
  forallb (Re.isword (unicode env)) w = true ->
  forallb isspace sp = true ->
  validate_job_text env config (PyStr text) <> Returns true.
Proof.
  intros Hshape Hascii Hon Hw Hword Hspace. apply unsafe_text_is_not_accepted. right.
  rewrite Hshape. apply event_is_found; assumption.
Qed.

Lemma job_text_with_event_handler_is_never_accepted_witness :
  validate_job_text mock_env defaults
    (PyStr (py "The role: Senior Engineer, remote. C" ++ py "on" ++ py "ditions" ++ py " "
            ++ [61%N] ++ py " flexible"))
  <> Returns true.
Proof.
  apply (@job_text_with_event_handler_is_never_accepted mock_env defaults
           (py "The role: Senior Engineer, remote. C" ++ py "on" ++ py "ditions" ++ py " "
            ++ [61%N] ++ py " flexible")
           (py "The role: Senior Engineer, remote. C") (py "on") (py "ditions") (py " ")
           (py " flexible")).
  - vm_compute. reflexivity.
  - vm_compute. reflexivity.
  - vm_compute. reflexivity.
  - intro H. discriminate H.
  - vm_compute. reflexivity.
  - vm_compute. reflexivity.
Defined.

(** ** Trimming and collapsing *)

Section TrimFacts.

Lemma lstrip_app_stop (a b : pystr) (c : codepoint) :
  isspace c = false -> lstrip (a ++ c :: b) = lstrip a ++ c :: b.
Proof.
  intros Hc. induction a as [|x a IH]; cbn [app lstrip].
  - rewrite Hc. reflexivity.
  - destruct (isspace x); [exact IH|reflexivity].
Qed.

Lemma rstrip_app_stop (a b : pystr) (c : codepoint) :
  isspace c = false -> rstrip (a ++ c :: b) = a ++ c :: rstrip b.
Proof.
  intros Hc. unfold rstrip.
  rewrite rev_app_distr. cbn [rev]. rewrite <- app_assoc. cbn [app].
  rewrite lstrip_app_stop by exact Hc.
  rewrite rev_app_distr. cbn [rev]. rewrite rev_involutive, <- app_assoc. reflexivity.
Qed.

Lemma lstrip_shape (s : pystr) :
  lstrip s = [] \/ exists c t, lstrip s = c :: t /\ isspace c = false.
Proof.
  induction s as [|x s IH]; cbn [lstrip]; [left; reflexivity|].
  destruct (isspace x) eqn:E; [exact IH|]. right. eauto.
Qed.

(** A trimmed text is empty, or begins and ends with a character that is
    no white space. *)
Lemma rstrip_shape (s : pystr) :
  rstrip s = [] \/ exists t c, rstrip s = t ++ [c] /\ isspace c = false.
Proof.
  unfold rstrip. destruct (lstrip_shape (rev s)) as [->|(c & t & -> & Hc)].
  - left. reflexivity.
  - right. exists (rev t), c. split; [reflexivity|exact Hc].
Qed.

Lemma rstrip_fixed (t : pystr) (c : codepoint) :
  isspace c = false -> rstrip (t ++ [c]) = t ++ [c].
Proof. intros Hc. rewrite rstrip_app_stop by exact Hc. reflexivity. Qed.

Lemma strip_shape (s : pystr) :
  strip s = []
  \/ exists c t, strip s = c :: t /\ isspace c = false
                 /\ (t = [] \/ exists t' d, t = t' ++ [d] /\ isspace d = false).
Proof.
  unfold strip. destruct (lstrip_shape s) as [->|(c & t & -> & Hc)].
  - left. reflexivity.
  - right. exists c, (rstrip t).
    change (c :: t) with ([] ++ c :: t). rewrite rstrip_app_stop by exact Hc.
    split; [reflexivity|]. split; [exact Hc|].
    destruct (rstrip_shape t) as [->|(t' & d & -> & Hd)]; [left; reflexivity|].
    right. eauto.
Qed.

Lemma strip_fixed (c : codepoint) (t : pystr) :
  isspace c = false ->
  (t = [] \/ exists t' d, t = t' ++ [d] /\ isspace d = false) ->
  strip (c :: t) = c :: t.
Proof.
  intros Hc Ht. unfold strip. cbn [lstrip]. rewrite Hc.
  change (c :: t) with ([] ++ c :: t). rewrite rstrip_app_stop by exact Hc.
  cbn [app]. f_equal.
  destruct Ht as [->|(t' & d & -> & Hd)]; [reflexivity|apply rstrip_fixed, Hd].
Qed.

Lemma sub_spaces_snoc (in_run : bool) (t : pystr) (d : codepoint) :
  isspace d = false -> sub_spaces in_run (t ++ [d]) = sub_spaces in_run t ++ [d].
Proof.
  intros Hd. revert in_run. induction t as [|x t IH]; intros in_run; cbn [app sub_spaces].
  - rewrite Hd. reflexivity.
  - destruct (isspace x); [destruct in_run|]; rewrite IH; reflexivity.
Qed.

Lemma sub_spaces_single_blanks (in_run : bool) (s : pystr) :
  single_blanks in_run (sub_spaces in_run s) = true.
Proof.
  revert in_run. induction s as [|x s IH]; intros in_run; cbn [sub_spaces]; [reflexivity|].
  destruct (isspace x) eqn:Ex.
  - destruct in_run; [apply IH|]. cbn [single_blanks]. rewrite N.eqb_refl. apply IH.
  - cbn [single_blanks]. destruct (x =? 32)%N eqn:E32.
    + apply N.eqb_eq in E32. subst x. discriminate Ex.
    + rewrite Ex. apply IH.
Qed.

Lemma sub_spaces_length (in_run : bool) (s : pystr) :
  (List.length (sub_spaces in_run s) <= List.length s)%nat.
Proof.
  revert in_run. induction s as [|x s IH]; intros in_run; cbn [sub_spaces List.length];
    [lia|].
  destruct (isspace x); [destruct in_run|]; cbn [List.length];
    repeat match goal with
           | |- context [sub_spaces ?b s] => pose proof (IH b); clear IH
           end; lia.
Qed.

(** What text ingestion stores: the trimmed text with each run of white
    space made one blank. It has single blanks only and trimming changes
    nothing. *)
Lemma cleaned_text_shape (text : pystr) :
  single_blanks false (sub_spaces false (strip text)) = true
  /\ strip (sub_spaces false (strip text)) = sub_spaces false (strip text)
  /\ (len (sub_spaces false (strip text)) <= len (strip text))%Z.
Proof.
  split; [apply sub_spaces_single_blanks|]. split.
  - destruct (strip_shape text) as [->|(c & t & -> & Hc & Ht)]; [reflexivity|].
    cbn [sub_spaces]. rewrite Hc. apply strip_fixed; [exact Hc|].
    destruct Ht as [->|(t' & d & -> & Hd)]; [left; reflexivity|].
    right. exists (sub_spaces false t'), d. split; [|exact Hd].
    apply sub_spaces_snoc, Hd.
  - unfold len. pose proof (sub_spaces_length false (strip text)). lia.
Qed.

(** The text the analyzer validates again begins with its own heading. *)
Lemma strip_headed (content : pystr) :
  strip (py "JOB DESCRIPTION:" ++ [10%N] ++ content)
  = py "JOB DESCRIPTION:" ++ rstrip ([10%N] ++ content).
Proof.
  unfold strip.
  change (py "JOB DESCRIPTION:" ++ [10%N] ++ content)
    with ([] ++ 74%N :: (py "OB DESCRIPTION" ++ 58%N :: ([10%N] ++ content))).
  rewrite lstrip_app_stop by reflexivity. cbn [lstrip app].
  exact (@rstrip_app_stop (py "JOB DESCRIPTION") ([10%N] ++ content) 58%N eq_refl).
Qed.

End TrimFacts.

(** X7. The text that [analyze_job_match] validates again, the heading
    "JOB DESCRIPTION:" and a line break before the content, always passes
    the keyword test, whatever the content: the heading holds the word
    "job". *)
Theorem analyzer_revalidation_always_finds_a_keyword (env : Env) (content : pystr) :
  has_keywords env (strip (py "JOB DESCRIPTION:" ++ [10%N] ++ content)) = true.
Proof.
  rewrite strip_headed. unfold has_keywords.
  change (py "JOB DESCRIPTION:" ++ rstrip ([10%N] ++ content))
    with (74%N :: 79%N :: 66%N :: 32%N
          :: (py "DESCRIPTION:" ++ rstrip ([10%N] ++ content))).
  generalize (py "DESCRIPTION:" ++ rstrip ([10%N] ++ content)). intros rest.
  apply orb_true_iff. left. unfold Re.search. rewrite search_from_unfold.
  apply orb_true_iff. left. reflexivity.
Qed.

(** ** Dictionaries *)

Section DictFacts.

Lemma pystr_eqb_eq (a b : pystr) : pystr_eqb a b = true <-> a = b.
Proof.
  revert b. induction a as [|x a IH]; intros [|y b]; cbn [pystr_eqb];
    try (split; [discriminate|discriminate]); [split; reflexivity|].
  rewrite andb_true_iff, N.eqb_eq, IH. split.
  - intros [-> ->]. reflexivity.
  - intros [= -> ->]. split; reflexivity.
Qed.

Lemma pystr_eqb_refl (a : pystr) : pystr_eqb a a = true.
Proof. apply pystr_eqb_eq. reflexivity. Qed.

Lemma pystr_eqb_neq (a b : pystr) : a <> b -> pystr_eqb a b = false.
Proof.
  intros Hne. destruct (pystr_eqb a b) eqn:E; [|reflexivity].
  apply pystr_eqb_eq in E. contradiction.
Qed.

Variable V : Type.

(** What was stored under a key is what a lookup of that key gives. *)
Lemma get_set_same (k : pystr) (v : V) (d : dict V) : get k (set_item k v d) = Some v.
Proof.
  induction d as [|[k0 x] d IH]; cbn [set_item get].
  - rewrite pystr_eqb_refl. reflexivity.
  - destruct (pystr_eqb k0 k) eqn:E; cbn [get]; rewrite E; [reflexivity|exact IH].
Qed.

Lemma get_set_other (k k' : pystr) (v : V) (d : dict V) :
  k' <> k -> get k' (set_item k v d) = get k' d.
Proof.
  intros Hne. induction d as [|[k0 x] d IH]; cbn [set_item get].
  - rewrite pystr_eqb_neq by congruence. reflexivity.
  - destruct (pystr_eqb k0 k) eqn:E; cbn [get].
    + apply pystr_eqb_eq in E. subst k0.
      rewrite pystr_eqb_neq by congruence. reflexivity.
    + destruct (pystr_eqb k0 k'); [reflexivity|exact IH].
Qed.

Lemma get_del_same (k : pystr) (d : dict V) : get k (Auth.del_item k d) = None.
Proof.
  unfold Auth.del_item. induction d as [|[k0 x] d IH]; [reflexivity|].
  cbn [filter fst]. destruct (pystr_eqb k0 k) eqn:E; cbn [negb]; [exact IH|].
  cbn [get]. rewrite E. exact IH.
Qed.

Lemma get_del_other (k k' : pystr) (d : dict V) :
  k' <> k -> get k' (Auth.del_item k d) = get k' d.
Proof.
  intros Hne. unfold Auth.del_item. induction d as [|[k0 x] d IH]; [reflexivity|].
  cbn [filter fst get]. destruct (pystr_eqb k0 k) eqn:E; cbn [negb].
  - apply pystr_eqb_eq in E. subst k0.
    rewrite pystr_eqb_neq by congruence. exact IH.
  - cbn [get]. destruct (pystr_eqb k0 k'); [reflexivity|exact IH].
Qed.

End DictFacts.

(** ** Ingestion of a job text and of the documents *)

Section IngestionFacts.

Local Open Scope Z_scope.

Variable w : World.
Variable config : AppConfig.

Lemma sub_spaces_fixed (after_blank : bool) (s : pystr) :
  single_blanks after_blank s = true -> sub_spaces after_blank s = s.
Proof.
  revert after_blank. induction s as [|c s IH]; intros after_blank; [reflexivity|].
  cbn [single_blanks sub_spaces]. destruct (c =? 32)%N eqn:E32.
  - apply N.eqb_eq in E32. subst c. change (isspace 32%N) with true. cbv iota.
    intros H. apply andb_true_iff in H. destruct H as [Hb Hs].
    destruct after_blank; [discriminate Hb|]. rewrite (IH true Hs). reflexivity.
  - intros H. apply andb_true_iff in H. destruct H as [Hc Hs].
    apply negb_true_iff in Hc. rewrite Hc, (IH false Hs). reflexivity.
Qed.

Lemma source_of_tag (source : pystr) (doc : Document) : source_of (tag source doc) = source.
Proof. unfold source_of, tag, get_default. cbn [metadata]. rewrite get_set_same. reflexivity. Qed.

(** A load inside its handler: the tagged documents, or none. *)
Lemma guarded_load (m : M (list Document)) (source : pystr) (p : Process) :
  try_ (docs <~ m ;; ret (map (tag source) docs)) (fun _ => ret []) p
  = (fst (m p), Returns (map (tag source) (documents_or_none (snd (m p))))).
Proof. unfold try_, mbind, ret. destruct (m p) as [p' [docs|e]]; reflexivity. Qed.

End IngestionFacts.

(** X8. What [process_text] returns for a text it accepts: the process is
    untouched, the content is the trimmed text with every run of white
    space made one blank, so it has no white space at either end, none but
    single blanks inside, is no longer than the trimmed text, and cleaning
    it once more changes nothing; the source recorded is "text_input". *)
Theorem processed_job_text_is_trimmed_and_single_spaced
        (w : World) (config : AppConfig) (text : pystr) (p p' : Process) (doc : Document) :
  process_text w config text p = (p', Returns doc) ->
  p' = p
  /\ page_content doc = sub_spaces false (strip text)
  /\ single_blanks false (page_content doc) = true
  /\ strip (page_content doc) = page_content doc
  /\ sub_spaces false (strip (page_content doc)) = page_content doc
  /\ (len (page_content doc) <= len (strip text))%Z
  /\ source_of doc = py "text_input".
Proof.
  unfold process_text.
  destruct (pystr_eqb text [] || (len (strip text) <? _)%Z); [discriminate|].
  unfold mbind, validate, ret.
  destruct (validate_job_text _ config (PyStr text)); [|discriminate].
  intros [= <- <-]. cbn [page_content].
  destruct (cleaned_text_shape text) as (Hsingle & Hstrip & Hlen).
  repeat split; try assumption.
  rewrite Hstrip. apply sub_spaces_fixed, Hsingle.
Qed.

Lemma processed_job_text_is_trimmed_and_single_spaced_witness :
  page_content
    {| page_content :=
         py "Senior data engineer role: five years of experience with Python required.";
       metadata := [(py "source", py "text_input"); (py "type", py "job_description")] |}
  = sub_spaces false (strip spaced_job_text).
Proof.
  apply (@processed_job_text_is_trimmed_and_single_spaced
           working defaults spaced_job_text fresh fresh
           {| page_content :=
                py "Senior data engineer role: five years of experience with Python required.";
              metadata := [(py "source", py "text_input");
                           (py "type", py "job_description")] |}).
  vm_compute. reflexivity.
Defined.

(** X9. [process_text] returns a document exactly for the texts
    [validate_job_text] answers [True] for; every other text is refused
    with a [ValueError] and nothing else, and in neither case is the
    process or the call log touched. *)
Theorem process_text_accepts_what_the_validator_accepts
        (w : World) (config : AppConfig) (text : pystr) (p : Process) :
  fst (process_text w config text p) = p
  /\ (returned (snd (process_text w config text p)) = true
      <-> validate_job_text (validation_env w (trace p)) config (PyStr text) = Returns true)
  /\ (forall e, snd (process_text w config text p) = Raises e -> is_ValueError e = true).
Proof.
  unfold process_text. destruct text as [|c s].
  { cbn [pystr_eqb orb raise fst snd returned validate_job_text].
    repeat split; try discriminate. intros e [= <-]. reflexivity. }
  cbn [pystr_eqb orb]. unfold validate_job_text.
  destruct (len (strip (c :: s)) <? min_job_text_length (security config))%Z.
  { cbn [raise fst snd returned].
    repeat split; try discriminate. intros e [= <-]. reflexivity. }
  unfold mbind, validate, ret.
  repeat match goal with
         | |- context [if ?b then _ else _] => destruct b
         end;
    cbn [fst snd returned]; repeat split; try discriminate; try reflexivity;
    intros e [= <-]; reflexivity.
Qed.

(** X10. [load_documents] never raises, and what it returns is fixed by
    the two loads: the documents of the CV first, none when that load
    raised; after them those of the About Me file, none when the file is
    not there (it is then not loaded at all) or when its load raised. Each
    document carries the source "cv" or "about_me", whatever the loader had
    written there, and nothing but the call log changes. *)
Theorem load_documents_never_raises_and_tags_sources
        (w : World) (config : AppConfig) (p : Process) :
  let after_cv := fst (load_cv w config p) in
  let found := os_path_exists w (trace after_cv) (about_me_path (data config)) in
  let docs_cv := documents_or_none (snd (load_cv w config p)) in
  let docs_about :=
    if found then documents_or_none (snd (load_about_me w config after_cv)) else [] in
  load_documents w config p
  = (if found then fst (load_about_me w config after_cv) else after_cv,
     Returns (map (tag (py "cv")) docs_cv ++ map (tag (py "about_me")) docs_about))
  /\ Forall (fun doc => source_of doc = py "cv" \/ source_of doc = py "about_me")
            (map (tag (py "cv")) docs_cv ++ map (tag (py "about_me")) docs_about).
Proof.
  intros after_cv found docs_cv docs_about. split.
  - subst docs_about docs_cv found after_cv.
    unfold load_documents. unfold mbind at 1. rewrite guarded_load.
    unfold mbind at 1. unfold ask at 1.
    destruct (os_path_exists w (trace (fst (load_cv w config p)))
                             (about_me_path (data config))).
    + unfold mbind at 1. rewrite guarded_load. reflexivity.
    + reflexivity.
  - apply Forall_app. split; apply Forall_forall; intros doc Hin;
      apply in_map_iff in Hin; destruct Hin as (d & <- & _);
      rewrite source_of_tag; auto.
Qed.

(** ** The probe of the persisted index *)

Section ProbeFacts.

Local Open Scope Z_scope.

Variable w : World.

(** The probe adds nothing to the call log but its own four kinds of
    call. *)
Lemma population_probe_calls (path : pystr) (p : Process) :
  exists calls,
    trace (fst (population_probe w path p)) = trace p ++ calls
    /\ forallb probes_or_opens calls = true.
Proof.
  unfold population_probe, mbind, call, ask, ret.
  destruct (os_listdir w (trace p) path) as [[|entry entries]|e]; norm_run;
    try (exists [listdir_call path]; split; reflexivity).
  destruct (existsb _ chroma_files); cbn [negb];
    try (exists [listdir_call path]; split; reflexivity).
  norm_run.
  destruct (get_embedding_model w _) as [embedding|e]; norm_run;
    try (eexists [_; _]; split; reflexivity).
  destruct (Chroma_open w _ path) as [db|e]; norm_run;
    try (eexists [_; _; _]; split; reflexivity).
  destruct (collection_count w _ db) as [n|e]; norm_run;
    try (eexists [_; _; _; _]; split; reflexivity).
  destruct (n =? 0); norm_run;
    try (eexists [_; _; _; _]; split; reflexivity).
  destruct (collection_count w _ db) as [n'|e]; norm_run;
    eexists [_; _; _; _; _]; split; reflexivity.
Qed.

Lemma is_vectorstore_populated_calls (path : pystr) (p : Process) :
  exists calls,
    trace (fst (_is_vectorstore_populated w path p)) = trace p ++ calls
    /\ forallb probes_or_opens calls = true.
Proof.
  destruct (population_probe_calls path p) as (calls & Htrace & Hcalls).
  exists calls. split; [|exact Hcalls]. rewrite <- Htrace.
  unfold _is_vectorstore_populated, try_, ret.
  destruct (population_probe w path p) as [p' [b|e]]; reflexivity.
Qed.

End ProbeFacts.

(** X11. [_is_vectorstore_populated] answers [True] only when the
    directory listing is not empty, one of [chroma.sqlite3] and [index]
    exists in the directory, the index opens and its collection counts a
    number of documents other than 0. *)
Theorem populated_answer_needs_files_and_documents
        (w : World) (path : pystr) (p : Process) :
  snd (_is_vectorstore_populated w path p) = Returns true ->
  (exists entry entries, os_listdir w (trace p) path = Returns (entry :: entries))
  /\ existsb (fun file => os_path_exists w (trace p ++ [listdir_call path])
                                         (path_join path file))
             chroma_files = true
  /\ exists db n,
       Chroma_open w (trace p ++ [listdir_call path; embedding_model_call]) path
       = Returns db
       /\ collection_count
            w (trace p ++ [listdir_call path; embedding_model_call; Chroma_call path]) db
          = Returns n
       /\ n <> 0%Z.
Proof.
  unfold _is_vectorstore_populated, try_, population_probe, mbind, call, ask, ret.
  destruct (os_listdir w (trace p) path) as [[|entry entries]|e]; norm_run;
    try discriminate.
  destruct (existsb _ chroma_files) eqn:Efiles; cbn [negb]; try discriminate.
  norm_run.
  destruct (get_embedding_model w _) as [embedding|e]; norm_run; try discriminate.
  destruct (Chroma_open w _ path) as [db|e] eqn:Eopen; norm_run; try discriminate.
  destruct (collection_count w _ db) as [n|e] eqn:Ecount; norm_run; try discriminate.
  destruct (n =? 0)%Z eqn:En; norm_run; try discriminate.
  intros _. split; [eauto|]. split; [reflexivity|].
  exists db, n. split; [first [reflexivity|assumption]|].
  split; [first [reflexivity|assumption]|].
  apply Z.eqb_neq, En.
Qed.

Lemma populated_answer_needs_files_and_documents_witness :
  exists db n,
    Chroma_open populated_index
                (trace fresh ++ [listdir_call (py "data/vector_db"); embedding_model_call])
                (py "data/vector_db")
    = Returns db
    /\ collection_count populated_index
         (trace fresh ++ [listdir_call (py "data/vector_db"); embedding_model_call;
                          Chroma_call (py "data/vector_db")]) db
       = Returns n
    /\ n <> 0%Z.
Proof.
  apply (populated_answer_needs_files_and_documents
           populated_index (py "data/vector_db") fresh).
  vm_compute. reflexivity.
Defined.

(** X12. When the index directory exists and the population check answers
    [True], [get_vectorstore] opens the persisted index and builds nothing:
    the calls it adds to the log are directory listings, requests for the
    embedding model, openings of the index and document counts only (no
    loader, no splitter, no [from_documents]), and its outcome is that of
    asking for the embedding model and opening the index. *)
Theorem populated_index_is_opened_not_rebuilt
        (w : World) (config : AppConfig) (p : Process) :
  os_path_exists w (trace p) (vector_db_path (data config)) = true ->
  snd (_is_vectorstore_populated w (vector_db_path (data config)) p) = Returns true ->
  let probed := trace (fst (_is_vectorstore_populated w (vector_db_path (data config)) p)) in
  (exists calls,
     trace (fst (get_vectorstore w config p)) = trace p ++ calls
     /\ forallb probes_or_opens calls = true)
  /\ snd (get_vectorstore w config p)
     = match get_embedding_model w probed with
       | Returns _ =>
           Chroma_open w (probed ++ [embedding_model_call]) (vector_db_path (data config))
       | Raises e => Raises e
       end.
Proof.
  intros Hfound Hpopulated probed. subst probed.
  destruct (is_vectorstore_populated_calls w (vector_db_path (data config)) p)
    as (calls & Htrace & Hcalls).
  assert (Hrun : get_vectorstore w config p
                 = (embedding_function <~ call embedding_model_call (get_embedding_model w) ;;
                    call (Chroma_call (vector_db_path (data config)))
                         (fun t => Chroma_open w t (vector_db_path (data config))))
                     (fst (_is_vectorstore_populated w (vector_db_path (data config)) p))).
  { unfold get_vectorstore. unfold mbind at 1 2. unfold ask. rewrite Hfound. cbv iota.
    destruct (_is_vectorstore_populated w (vector_db_path (data config)) p) as [p' r].
    cbn [fst snd] in *. subst r. reflexivity. }
  rewrite Hrun. clear Hrun.
  destruct (_is_vectorstore_populated w (vector_db_path (data config)) p) as [p' r].
  cbn [fst snd] in *. unfold mbind, call.
  destruct (get_embedding_model w (trace p')) as [embedding|e]; norm_run.
  - split; [|reflexivity].
    exists (calls ++ [embedding_model_call; Chroma_call (vector_db_path (data config))]).
    rewrite Htrace, <- app_assoc. split; [reflexivity|].
    rewrite forallb_app, Hcalls. reflexivity.
  - split; [|reflexivity].
    exists (calls ++ [embedding_model_call]).
    rewrite Htrace, <- app_assoc. split; [reflexivity|].
    rewrite forallb_app, Hcalls. reflexivity.
Qed.

Lemma populated_index_is_opened_not_rebuilt_witness :
  snd (get_vectorstore populated_index defaults fresh)
  = match get_embedding_model populated_index
            (trace (fst (_is_vectorstore_populated populated_index
                           (vector_db_path (data defaults)) fresh))) with
    | Returns _ =>
        Chroma_open populated_index
          (trace (fst (_is_vectorstore_populated populated_index
                         (vector_db_path (data defaults)) fresh))
           ++ [embedding_model_call])
          (vector_db_path (data defaults))
    | Raises e => Raises e
    end.
Proof.
  apply (populated_index_is_opened_not_rebuilt populated_index defaults fresh).
  - vm_compute. reflexivity.
  - vm_compute. reflexivity.
Defined.

(** ** What a chat call does with a refusal *)

(** X13. A query the input gate refuses reaches no model: with the chat
    singleton constructed and its chain built, [get_completion] makes no
    outside call at all, records the human turn and nothing after it, and
    answers with the message of the refusal when that is a [ValueError],
    with the formatted fallback when it is any other exception. *)
Theorem refused_query_reaches_no_model
        (w : World) (config : AppConfig) (query : pystr) (md : option (dict pystr))
        (p : Process) (chain : Chain) (e : exn) :
  chat_initialized (chat p) = true ->
  qa_chain (chat p) = Some chain ->
  validate_query_input (validation_env w (trace p)) config query = Raises e ->
  get_completion w config query md p
  = (set_chat_history (history_of (chat p) ++ [HumanMessage query]) p,
     match e with
     | ValueError message => Returns (message_reply message)
     | Exception _ =>
         bind (format_candidate_name w (chat_fallback_response config)
                                     (name (candidate config)))
              (fun formatted => Returns (message_reply formatted))
     end).
Proof.
  intros Hinit Hchain Hrefused.
  pose proof (@completion_body_run w config query p chain Hchain) as Hrun.
  cbv zeta in Hrun. rewrite Hrefused in Hrun.
  unfold get_completion. unfold mbind at 1. unfold _initialize_qa_chain.
  unfold mbind at 1. unfold get_process. rewrite Hinit, Hchain. cbn [negb ret].
  unfold mbind at 1. unfold ask. unfold try_. rewrite Hrun.
  destruct e as [message|message]; [reflexivity|].
  unfold mbind, lift, ret, bind.
  destruct (format_candidate_name w _ _); reflexivity.
Qed.

Lemma refused_query_reaches_no_model_witness :
  get_completion working defaults (py "hi") None chat_ready
  = (set_chat_history (history_of (chat chat_ready) ++ [HumanMessage (py "hi")]) chat_ready,
     Returns (message_reply too_short_message)).
Proof.
  apply (@refused_query_reaches_no_model
           working defaults (py "hi") None chat_ready
           {| kind := qa; serial := 7; model := 3%N; database := Some 1%N |}
           (ValueError too_short_message)).
  - vm_compute. reflexivity.
  - vm_compute. reflexivity.
  - vm_compute. reflexivity.
Defined.

(** X14. An answer of the model that the output checks refuse reaches
    neither the caller nor the history: the reply and the assistant turn
    both hold the configured fallback text, as it stands in the
    configuration, while the sources of the reply are still the documents
    the chain retrieved. *)
Theorem refused_answer_is_replaced_by_the_fallback
        (w : World) (config : AppConfig) (query : pystr) (md : option (dict pystr))
        (p : Process) (chain : Chain) (context : list Document) (answer : pystr) :
  chat_initialized (chat p) = true ->
  qa_chain (chat p) = Some chain ->
  validate_query_input (validation_env w (trace p)) config query = Returns query ->
  base_qa_chain w (trace p) chain query (history_of (chat p) ++ [HumanMessage query])
  = Returns (context, answer) ->
  returned (response_content_validation
              (validation_env w (trace p ++ [invoke_call chain])) answer) = false ->
  get_completion w config query md p
  = (set_chat_history
       (history_of (chat p) ++ [HumanMessage query]
        ++ [AIMessage (chat_fallback_response config)])
       (with_trace (trace p ++ [invoke_call chain]) p),
     Returns [(py "answer",
               VDict (chain_result query (history_of (chat p) ++ [HumanMessage query])
                                   context (chat_fallback_response config)));
              (py "sources", VDocs context)]).
Proof.
  intros Hinit Hchain Haccepted Hbase Hrefused.
  pose proof (@completion_body_run w config query p chain Hchain) as Hrun.
  cbv zeta in Hrun. rewrite Haccepted, Hbase in Hrun.
  unfold validated_response in Hrun.
  cbn [trace with_trace set_chat_history with_chat fst snd] in Hrun.
  rewrite Hrefused in Hrun.
  unfold get_completion. unfold mbind at 1. unfold _initialize_qa_chain.
  unfold mbind at 1. unfold get_process. rewrite Hinit, Hchain. cbn [negb ret].
  unfold mbind at 1. unfold ask. unfold try_. rewrite Hrun.
  rewrite <- app_assoc. reflexivity.
Qed.

Lemma refused_answer_is_replaced_by_the_fallback_witness :
  get_completion flagged_generation defaults projects_question None chat_ready
  = (set_chat_history
       (history_of (chat chat_ready) ++ [HumanMessage projects_question]
        ++ [AIMessage (chat_fallback_response defaults)])
       (with_trace (trace chat_ready
                    ++ [invoke_call {| kind := qa; serial := 7; model := 3%N;
                                       database := Some 1%N |}])
                   chat_ready),
     Returns [(py "answer",
               VDict (chain_result projects_question
                        (history_of (chat chat_ready) ++ [HumanMessage projects_question])
                        [cv_page] (chat_fallback_response defaults)));
              (py "sources", VDocs [cv_page])]).
Proof.
  apply (@refused_answer_is_replaced_by_the_fallback
           flagged_generation defaults projects_question None chat_ready
           {| kind := qa; serial := 7; model := 3%N; database := Some 1%N |}
           [cv_page] (py "That is a damn good question.")).
  - vm_compute. reflexivity.
  - vm_compute. reflexivity.
  - vm_compute. reflexivity.
  - vm_compute. reflexivity.
  - vm_compute. reflexivity.
Defined.

(** ** What each program leaves alone *)

Section KeepingFacts.

Variable X : Type.
Variable part : Process -> X.

Lemma keeps_ret {A} (a : A) : keeps part (ret a).
Proof. intros p. reflexivity. Qed.

Lemma keeps_raise {A} (e : exn) : keeps part (@raise A e).
Proof. intros p. reflexivity. Qed.

Lemma keeps_bind {A B} (m : M A) (k : A -> M B) :
  keeps part m -> (forall a, keeps part (k a)) -> keeps part (mbind m k).
Proof.
  intros Hm Hk p. unfold mbind. specialize (Hm p).
  destruct (m p) as [p1 [a|e]]; cbn [fst] in *; [|exact Hm].
  rewrite <- Hm. apply Hk.
Qed.

Lemma keeps_try {A} (m : M A) (h : exn -> M A) :
  keeps part m -> (forall e, keeps part (h e)) -> keeps part (try_ m h).
Proof.
  intros Hm Hh p. unfold try_. specialize (Hm p).
  destruct (m p) as [p1 [a|e]]; cbn [fst] in *; [exact Hm|].
  rewrite <- Hm. apply Hh.
Qed.

End KeepingFacts.

Section FrameFacts.

Variable w : World.
Variable config : AppConfig.

Lemma keeps_chat_of_trace_only {A} (m : M A) : trace_only m -> keeps chat m.
Proof. intros H p. apply (H p). Qed.

Lemma keeps_summary_of_trace_only {A} (m : M A) : trace_only m -> keeps summary m.
Proof. intros H p. apply (H p). Qed.

Lemma keeps_job_of_trace_only {A} (m : M A) : trace_only m -> keeps job m.
Proof. intros H p. apply (H p). Qed.

(** The chat programs leave the summary generator and the analyzer
    alone. *)
Lemma chat_programs_keep (query : pystr) (md : option (dict pystr)) :
  keeps summary (get_chat_completion w config query md)
  /\ keeps job (get_chat_completion w config query md).
Proof.
  assert (Hnew : keeps summary ChatRAGPipeline_ /\ keeps job ChatRAGPipeline_).
  { split; intros p; unfold ChatRAGPipeline_, mbind, get_process;
      destruct (chat_initialized (chat p)); reflexivity. }
  assert (Hinit : keeps summary (_initialize_qa_chain w config)
                  /\ keeps job (_initialize_qa_chain w config)).
  { split; intros p; destruct (_initialize_qa_chain w config p) as [p' o] eqn:E;
      apply initialize_qa_chain_effect in E; cbn [fst]; tauto. }
  assert (Hbody : keeps summary (completion_body w config query)
                  /\ keeps job (completion_body w config query)).
  { split; intros p; unfold completion_body;
      unfold mbind at 1; unfold get_process; unfold mbind at 1; unfold update.
    - pose proof (fun chain h =>
                    keeps_summary_of_trace_only
                      (@trace_only_qa_chain_invoke w config chain query h)) as Hinvoke.
      unfold mbind at 1.
      destruct (qa_chain (chat p)) as [chain|]; [|reflexivity].
      specialize (Hinvoke chain (history_of (chat p) ++ [HumanMessage query])
                          (set_chat_history (history_of (chat p) ++ [HumanMessage query]) p)).
      destruct (qa_chain_invoke w config chain query _ _) as [p1 [result|e]];
        cbn [fst] in *; [|exact Hinvoke].
      unfold mbind at 1.
      destruct (get (py "answer") result) as [[| a | | | |]|]; cbn; exact Hinvoke.
    - pose proof (fun chain h =>
                    keeps_job_of_trace_only
                      (@trace_only_qa_chain_invoke w config chain query h)) as Hinvoke.
      unfold mbind at 1.
      destruct (qa_chain (chat p)) as [chain|]; [|reflexivity].
      specialize (Hinvoke chain (history_of (chat p) ++ [HumanMessage query])
                          (set_chat_history (history_of (chat p) ++ [HumanMessage query]) p)).
      destruct (qa_chain_invoke w config chain query _ _) as [p1 [result|e]];
        cbn [fst] in *; [|exact Hinvoke].
      unfold mbind at 1.
      destruct (get (py "answer") result) as [[| a | | | |]|]; cbn; exact Hinvoke. }
  destruct Hnew as [Hnew1 Hnew2], Hinit as [Hinit1 Hinit2], Hbody as [Hbody1 Hbody2].
  split; unfold get_chat_completion, get_completion;
    (apply keeps_bind; [assumption|intros _]);
    (apply keeps_bind; [assumption|intros _]);
    (apply keeps_bind; [intros p; reflexivity|intros run]);
    (apply keeps_try; [assumption|intros [m|m]]);
    try apply keeps_ret;
    (apply keeps_bind; [intros p; reflexivity|intros f; apply keeps_ret]).
Qed.

End FrameFacts.

Section MoreFrameFacts.

Variable w : World.
Variable config : AppConfig.

Lemma keeps_call (X : Type) (part : Process -> X) {A} (ev : event)
      (f : list event -> outcome A) :
  (forall t p, part (with_trace t p) = part p) -> keeps part (call ev f).
Proof. intros H p. unfold call. cbn [fst]. apply H. Qed.

Lemma summary_constructor_keeps :
  keeps chat (SummaryGenerator_ w) /\ keeps job (SummaryGenerator_ w).
Proof.
  split; intros p; unfold SummaryGenerator_, mbind, get_process, call, update;
    destruct (summary_initialized (summary p)); try reflexivity;
    destruct (get_language_model w (trace p)); reflexivity.
Qed.

Lemma summary_initialisation_keeps :
  keeps chat (_initialize_summary_chain w) /\ keeps job (_initialize_summary_chain w).
Proof.
  split; intros p; destruct (_initialize_summary_chain w p) as [p' o] eqn:E;
    apply initialize_summary_chain_effect in E; cbn [fst]; tauto.
Qed.

(** The summary programs leave the chat pipeline and the analyzer alone. *)
Lemma summary_programs_keep (style : pystr) (md : option (dict pystr)) :
  keeps chat (get_auto_summary w config style md)
  /\ keeps job (get_auto_summary w config style md).
Proof.
  destruct summary_constructor_keeps as [Hnew1 Hnew2].
  destruct summary_initialisation_keeps as [Hinit1 Hinit2].
  split; unfold get_auto_summary, generate_summary;
    (apply keeps_bind; [assumption|intros _]);
    (apply keeps_bind; [assumption|intros _]);
    (apply keeps_bind; [intros p; reflexivity|intros run]);
    (apply keeps_try; [|intros e; apply keeps_ret]).
  - apply keeps_chat_of_trace_only, trace_only_summary_body.
  - apply keeps_job_of_trace_only, trace_only_summary_body.
Qed.

Lemma analyzer_constructor_keeps :
  keeps chat (JobMatchingAnalyzer_ w) /\ keeps summary (JobMatchingAnalyzer_ w).
Proof.
  split; intros p; unfold JobMatchingAnalyzer_, mbind, get_process, call, update;
    destruct (job_initialized (job p)); try reflexivity;
    destruct (get_language_model w (trace p)); reflexivity.
Qed.

Lemma matching_initialisation_keeps :
  keeps chat (_initialize_matching_chain w) /\ keeps summary (_initialize_matching_chain w).
Proof.
  split; intros p; destruct (_initialize_matching_chain w p) as [p' o] eqn:E;
    apply initialize_matching_chain_effect in E; cbn [fst]; tauto.
Qed.

(** The job-match programs leave the chat pipeline and the summary
    generator alone. *)
Lemma job_programs_keep (text_input : option pystr) (user_code company : pystr) :
  keeps chat (job_match_body w config text_input user_code company)
  /\ keeps summary (job_match_body w config text_input user_code company).
Proof.
  destruct analyzer_constructor_keeps as [Hnew1 Hnew2].
  destruct matching_initialisation_keeps as [Hinit1 Hinit2].
  split; unfold job_match_body, analyze_job_match, analyze_job_match_.
  - apply keeps_bind;
      [apply keeps_chat_of_trace_only, trace_only_process_job_description|intros doc].
    apply keeps_bind.
    { apply keeps_bind; [assumption|intros _].
      apply keeps_bind; [assumption|intros _].
      apply keeps_bind; [intros p; reflexivity|intros run].
      apply keeps_try; [|intros e; apply keeps_ret].
      apply keeps_chat_of_trace_only, trace_only_matching_body. }
    intros result. apply keeps_bind.
    { destruct (get (py "analysis") result); [apply keeps_ret|apply keeps_raise]. }
    intros analysis. apply keeps_bind; [|intros _; apply keeps_ret].
    apply keeps_call. reflexivity.
  - apply keeps_bind;
      [apply keeps_summary_of_trace_only, trace_only_process_job_description|intros doc].
    apply keeps_bind.
    { apply keeps_bind; [assumption|intros _].
      apply keeps_bind; [assumption|intros _].
      apply keeps_bind; [intros p; reflexivity|intros run].
      apply keeps_try; [|intros e; apply keeps_ret].
      apply keeps_summary_of_trace_only, trace_only_matching_body. }
    intros result. apply keeps_bind.
    { destruct (get (py "analysis") result); [apply keeps_ret|apply keeps_raise]. }
    intros analysis. apply keeps_bind; [|intros _; apply keeps_ret].
    apply keeps_call. reflexivity.
Qed.

End MoreFrameFacts.

(** X15. Every request touches the singleton of its own pipeline only: a
    chat request leaves the summary generator and the job analyzer as they
    were, a summary request the chat pipeline and the analyzer, and a
    job-match request the chat pipeline and the summary generator, whatever
    the request holds and however it ends. *)
Theorem each_request_changes_its_own_singleton_only
        (w : World) (config : AppConfig) (r : request) (p : Process) :
  match r with
  | chat_request _ _ =>
      summary (serve w config r p) = summary p /\ job (serve w config r p) = job p
  | summary_request _ _ | init_summary_chain_request =>
      chat (serve w config r p) = chat p /\ job (serve w config r p) = job p
  | job_match_request _ _ _ =>
      chat (serve w config r p) = chat p /\ summary (serve w config r p) = summary p
  end.
Proof.
  destruct r as [query md|style md| |text_input user_code company]; cbn [serve].
  - destruct (chat_programs_keep w config query md) as [H1 H2]. split; [apply H1|apply H2].
  - destruct (summary_programs_keep w config style md) as [H1 H2].
    split; [apply H1|apply H2].
  - destruct (summary_constructor_keeps w) as [Hnew1 Hnew2].
    destruct (summary_initialisation_keeps w) as [Hinit1 Hinit2].
    split; apply keeps_bind; auto.
  - rewrite job_match_endpoint_process.
    destruct (job_programs_keep w config text_input user_code company) as [H1 H2].
    split; [apply H1|apply H2].
Qed.

(** ** A chain build that fails *)

Section FailureFacts.

Variable w : World.
Variable config : AppConfig.

Lemma same_objects_with_trace (p p1 : Process) (t : list event) :
  same_objects p p1 -> same_objects p (with_trace t p1).
Proof. intros H. exact H. Qed.

Lemma initialize_qa_chain_failure (p p' : Process) (e : exn) :
  _initialize_qa_chain w config p = (p', Raises e) -> same_objects p p'.
Proof.
  unfold _initialize_qa_chain. unfold mbind at 1. unfold get_process.
  destruct (negb (chat_initialized (chat p)));
    [intros [= <- _]; apply same_objects_refl|].
  destruct (qa_chain (chat p)); [discriminate|].
  unfold mbind at 1.
  pose proof (trace_only_get_vectorstore w config p) as Hvs.
  destruct (get_vectorstore w config p) as [p1 [db|e1]]; cbn [fst snd] in *;
    [|intros [= <- _]; exact Hvs].
  unfold mbind, call, get_process, update, ret.
  destruct (get_language_model w (trace p1)) as [llm|e1];
    [|intros [= <- _]; exact Hvs].
  destruct (assemble w _ qa) as [[]|e1]; [discriminate|].
  intros [= <- _]. exact Hvs.
Qed.

Lemma initialize_summary_chain_failure (p p' : Process) (e : exn) :
  _initialize_summary_chain w p = (p', Raises e) -> same_objects p p'.
Proof.
  unfold _initialize_summary_chain. unfold mbind at 1. unfold get_process.
  destruct (summary_initialized (summary p));
    [|intros [= <- _]; apply same_objects_refl].
  destruct (summary_llm (summary p)) as [llm|];
    [|intros [= <- _]; apply same_objects_refl].
  destruct (summary_chain (summary p)); [discriminate|].
  unfold mbind, call, get_process, update, ret.
  destruct (assemble w _ summarization) as [[]|e1]; [discriminate|].
  intros [= <- _]. repeat split.
Qed.

Lemma initialize_matching_chain_failure (p p' : Process) (e : exn) :
  _initialize_matching_chain w p = (p', Raises e) -> same_objects p p'.
Proof.
  unfold _initialize_matching_chain. unfold mbind at 1. unfold get_process.
  destruct (job_initialized (job p)); [|intros [= <- _]; apply same_objects_refl].
  destruct (job_llm (job p)) as [llm|]; [|intros [= <- _]; apply same_objects_refl].
  destruct (matching_chain (job p)); [discriminate|].
  unfold mbind, call, get_process, update, ret.
  destruct (assemble w _ matching) as [[]|e1]; [discriminate|].
  intros [= <- _]. repeat split.
Qed.

Lemma invoke_after_failed_initialisation (op : operation) (p : Process) (e : exn) :
  snd (initialize_chain w config op p) = Raises e ->
  invoke w config op p = (fst (initialize_chain w config op p), Raises e).
Proof.
  destruct op; cbn [invoke initialize_chain];
    unfold get_completion, generate_summary, analyze_job_match_; unfold mbind at 1;
    match goal with
    | |- snd ?m = _ -> _ => destruct m as [p' [[]|e']]
    end; cbn [fst snd]; intros [= ->]; reflexivity.
Qed.

End FailureFacts.

(** X16. When the chain initialisation that opens an invoke operation
    raises, the operation raises the same exception and no singleton has
    changed: no chain field is set, no turn is recorded, so the next call
    starts the build again. *)
Theorem failed_chain_build_changes_no_singleton
        (w : World) (config : AppConfig) (op : operation) (p : Process) (e : exn) :
  snd (initialize_chain w config op p) = Raises e ->
  snd (invoke w config op p) = Raises e
  /\ same_objects p (fst (invoke w config op p)).
Proof.
  intros Hfailed. rewrite (invoke_after_failed_initialisation w config op p Hfailed).
  split; [reflexivity|]. cbn [fst].
  destruct (initialize_chain w config op p) as [p' o] eqn:Einit.
  cbn [fst snd] in *. subst o.
  destruct op; cbn [initialize_chain] in Einit.
  - exact (initialize_qa_chain_failure w config p Einit).
  - exact (initialize_summary_chain_failure w p Einit).
  - exact (initialize_matching_chain_failure w p Einit).
Qed.

Lemma failed_chain_build_changes_no_singleton_witness :
  snd (invoke no_language_model defaults (chat_op projects_question None) chat_started)
  = Raises (Exception (py "The api_key client option must be set"))
  /\ same_objects chat_started
       (fst (invoke no_language_model defaults (chat_op projects_question None)
                    chat_started)).
Proof.
  apply (@failed_chain_build_changes_no_singleton
           no_language_model defaults (chat_op projects_question None) chat_started
           (Exception (py "The api_key client option must be set"))).
  vm_compute. reflexivity.
Defined.

(** ** The history of the conversation *)

Section HistoryFacts.

Variable w : World.
Variable config : AppConfig.

Lemma completion_body_extends (query : pystr) (p : Process) :
  exists turns,
    history_of (chat (fst (completion_body w config query p)))
    = history_of (chat p) ++ turns
    /\ chat_initialized (chat (fst (completion_body w config query p)))
       = chat_initialized (chat p).
Proof.
  destruct (qa_chain (chat p)) as [chain|] eqn:Echain.
  - pose proof (@completion_body_run w config query p chain Echain) as Hrun.
    cbv zeta in Hrun. rewrite Hrun. clear Hrun.
    destruct (validate_query_input _ config query) as [input|e].
    2: { exists [HumanMessage query]. split; reflexivity. }
    destruct (base_qa_chain w (trace p) chain input _) as [base|e].
    2: { exists [HumanMessage query]. split; reflexivity. }
    eexists [HumanMessage query; _]. cbn [fst]. split; [|reflexivity].
    unfold history_of, set_chat_history, with_chat, with_trace.
    cbn [chat chat_history]. rewrite <- app_assoc. reflexivity.
  - exists [HumanMessage query].
    unfold completion_body, mbind, get_process, update, raise. rewrite Echain.
    split; reflexivity.
Qed.

Lemma get_completion_extends (query : pystr) (md : option (dict pystr))
      (p p' : Process) (o : outcome (dict value)) :
  get_completion w config query md p = (p', o) ->
  exists turns,
    history_of (chat p') = history_of (chat p) ++ turns
    /\ chat_initialized (chat p') = chat_initialized (chat p).
Proof.
  unfold get_completion. unfold mbind at 1.
  destruct (_initialize_qa_chain w config p) as [p1 o1] eqn:Einit.
  apply initialize_qa_chain_effect in Einit.
  destruct Einit as (_ & _ & Hflag & Hhistory & _).
  assert (Hsame : history_of (chat p1) = history_of (chat p))
    by (unfold history_of; rewrite Hhistory; reflexivity).
  destruct o1 as [[]|e].
  2: { intros [= <- _]. exists []. rewrite app_nil_r. split; assumption. }
  unfold mbind at 1. unfold ask. unfold try_.
  destruct (completion_body_extends query p1) as (turns & Hturns & Hflag').
  destruct (completion_body w config query p1) as [p2 [reply|e]]; cbn [fst] in *.
  - intros [= <- _]. exists turns. rewrite Hturns, Hsame, Hflag', Hflag.
    split; reflexivity.
  - destruct e as [m|m].
    + intros [= <- _]. exists turns. rewrite Hturns, Hsame, Hflag', Hflag.
      split; reflexivity.
    + unfold mbind, lift, ret.
      destruct (format_candidate_name w _ _); intros [= <- _]; exists turns;
        rewrite Hturns, Hsame, Hflag', Hflag; split; reflexivity.
Qed.

Lemma serve_extends (r : request) (p : Process) :
  chat_initialized (chat p) = true ->
  exists turns,
    history_of (chat (serve w config r p)) = history_of (chat p) ++ turns
    /\ chat_initialized (chat (serve w config r p)) = true.
Proof.
  intros Hflag.
  assert (Hsame : forall p', chat p' = chat p ->
                             exists turns,
                               history_of (chat p') = history_of (chat p) ++ turns
                               /\ chat_initialized (chat p') = true).
  { intros p' ->. exists []. rewrite app_nil_r. split; [reflexivity|exact Hflag]. }
  destruct r as [query md|style md| |text_input user_code company]; cbn [serve].
  - assert (Hrun : get_chat_completion w config query md p
                   = get_completion w config query md p).
    { unfold get_chat_completion, ChatRAGPipeline_. unfold mbind at 1 2.
      unfold get_process. rewrite Hflag. reflexivity. }
    rewrite Hrun.
    destruct (get_completion w config query md p) as [p' o] eqn:Erun.
    apply get_completion_extends in Erun. destruct Erun as (turns & Hturns & Hflag').
    exists turns. cbn [fst]. split; [exact Hturns|]. rewrite Hflag'. exact Hflag.
  - apply Hsame. apply (proj1 (summary_programs_keep w config style md)).
  - apply Hsame. apply keeps_bind;
      [apply summary_constructor_keeps|intros _; apply summary_initialisation_keeps].
  - apply Hsame. rewrite job_match_endpoint_process.
    apply (proj1 (job_programs_keep w config text_input user_code company)).
Qed.

End HistoryFacts.

(** X17. Once the chat singleton is constructed, the conversation history
    only grows: after any sequence of chat, summary and job-match requests,
    however each one ends, the history is the history from before with
    further turns behind it. No turn is dropped, changed or reordered, and
    nothing ever trims the history. *)
Theorem chat_history_only_grows
        (w : World) (config : AppConfig) (requests : list request) (p : Process) :
  chat_initialized (chat p) = true ->
  exists turns,
    history_of (chat (serve_all w config requests p)) = history_of (chat p) ++ turns.
Proof.
  revert p. induction requests as [|r requests IH]; intros p Hflag.
  - exists []. rewrite app_nil_r. reflexivity.
  - cbn [serve_all fold_left].
    destruct (serve_extends w config r p Hflag) as (turns & Hturns & Hflag').
    destruct (IH (serve w config r p) Hflag') as (turns' & Hturns').
    exists (turns ++ turns'). unfold serve_all in Hturns'.
    rewrite Hturns', Hturns, app_assoc. reflexivity.
Qed.

Lemma chat_history_only_grows_witness :
  exists turns,
    history_of
      (chat (serve_all working defaults
               [summary_request (py "bullet") None; chat_request (py "hi") None]
               (serve working defaults (chat_request projects_question None) fresh)))
    = history_of (chat (serve working defaults (chat_request projects_question None) fresh))
      ++ turns.
Proof.
  apply (@chat_history_only_grows
           working defaults
           [summary_request (py "bullet") None; chat_request (py "hi") None]
           (serve working defaults (chat_request projects_question None) fresh)).
  vm_compute. reflexivity.
Defined.

(** ** Sessions *)

Section SessionFacts.

Variable INVITE_CODES : dict setting.

Lemma active_code_is_configured (code : pystr) :
  Auth.active_code INVITE_CODES code = true -> Auth.is_auth_enabled INVITE_CODES = true.
Proof.
  unfold Auth.active_code, Auth.validate_invite_code, Auth.is_auth_enabled.
  destruct INVITE_CODES; [cbn; discriminate|reflexivity].
Qed.

Lemma authenticate_active (token code : pystr) (sessions : dict pystr) :
  Auth.active_code INVITE_CODES code = true ->
  Auth.authenticate_with_code INVITE_CODES token code sessions
  = (set_item token code sessions, Returns (Some token)).
Proof.
  unfold Auth.active_code, Auth.authenticate_with_code.
  destruct (Auth.validate_invite_code INVITE_CODES code) as [valid|e]; [|discriminate].
  intros ->. reflexivity.
Qed.

Lemma authenticate_inactive (token code : pystr) (sessions : dict pystr) :
  Auth.active_code INVITE_CODES code = false ->
  fst (Auth.authenticate_with_code INVITE_CODES token code sessions) = sessions
  /\ forall t, snd (Auth.authenticate_with_code INVITE_CODES token code sessions)
               <> Returns (Some t).
Proof.
  unfold Auth.active_code, Auth.authenticate_with_code.
  destruct (Auth.validate_invite_code INVITE_CODES code) as [valid|e].
  - intros ->. split; [reflexivity|discriminate].
  - intros _. split; [reflexivity|discriminate].
Qed.

(** Every session of the table belongs to a code that was active when it
    logged in. *)
Lemma perform_keeps_active (c : Auth.action) (sessions : dict pystr) :
  (forall token code, get token sessions = Some code ->
                      Auth.active_code INVITE_CODES code = true) ->
  forall token code, get token (Auth.perform INVITE_CODES c sessions) = Some code ->
                     Auth.active_code INVITE_CODES code = true.
Proof.
  intros Hsessions token code. destruct c as [new_token new_code|old_token];
    cbn [Auth.perform].
  - destruct (Auth.active_code INVITE_CODES new_code) eqn:Eactive.
    + rewrite authenticate_active by exact Eactive. cbn [fst].
      destruct (pystr_eqb token new_token) eqn:Etoken.
      * apply pystr_eqb_eq in Etoken. subst token. rewrite get_set_same.
        intros [= <-]. exact Eactive.
      * rewrite get_set_other; [apply Hsessions|].
        intros ->. rewrite pystr_eqb_refl in Etoken. discriminate.
    + rewrite (proj1 (authenticate_inactive new_token new_code sessions Eactive)).
      apply Hsessions.
  - unfold Auth.logout_user. destruct (get old_token sessions); cbn [fst];
      [|apply Hsessions].
    destruct (pystr_eqb token old_token) eqn:Etoken.
    + apply pystr_eqb_eq in Etoken. subst token. rewrite get_del_same. discriminate.
    + rewrite get_del_other; [apply Hsessions|].
      intros ->. rewrite pystr_eqb_refl in Etoken. discriminate.
Qed.

End SessionFacts.

(** X18. A login with a configured, active invite code opens a session
    that the guards then honour: the token handed out is returned, a
    request carrying it as its cookie is recognised as that code by
    [get_current_user], and [require_auth] lets it pass as that code (the
    token and the code being non-empty strings). *)
Theorem login_opens_a_session_the_guards_accept
        (INVITE_CODES : dict setting) (token code : pystr) (sessions : dict pystr) :
  Auth.active_code INVITE_CODES code = true ->
  token <> [] ->
  code <> [] ->
  let after := fst (Auth.authenticate_with_code INVITE_CODES token code sessions) in
  snd (Auth.authenticate_with_code INVITE_CODES token code sessions) = Returns (Some token)
  /\ Auth.get_current_user after (Some token) = Some code
  /\ Auth.require_auth INVITE_CODES after (Some token) = Auth.Allowed code.
Proof.
  intros Hactive Htoken Hcode after. subst after.
  rewrite authenticate_active by exact Hactive. cbn [fst snd].
  split; [reflexivity|].
  assert (Huser : Auth.get_current_user (set_item token code sessions) (Some token)
                  = Some code).
  { destruct token as [|c token]; [contradiction|].
    cbn [Auth.get_current_user]. apply get_set_same. }
  split; [exact Huser|].
  unfold Auth.require_auth. rewrite (active_code_is_configured _ _ Hactive), Huser.
  destruct code; [contradiction|reflexivity].
Qed.

Lemma login_opens_a_session_the_guards_accept_witness :
  snd (Auth.authenticate_with_code acme_codes (py "tok-1") (py "DEMO-ACME-1234") [])
  = Returns (Some (py "tok-1"))
  /\ Auth.get_current_user
       (fst (Auth.authenticate_with_code acme_codes (py "tok-1") (py "DEMO-ACME-1234") []))
       (Some (py "tok-1"))
     = Some (py "DEMO-ACME-1234")
  /\ Auth.require_auth acme_codes
       (fst (Auth.authenticate_with_code acme_codes (py "tok-1") (py "DEMO-ACME-1234") []))
       (Some (py "tok-1"))
     = Auth.Allowed (py "DEMO-ACME-1234").
Proof.
  apply (@login_opens_a_session_the_guards_accept
           acme_codes (py "tok-1") (py "DEMO-ACME-1234") []).
  - vm_compute. reflexivity.
  - discriminate.
  - discriminate.
Defined.

(** X19. A login that fails, because the code is unknown, is not active,
    or its entry cannot be read, changes no session: the table is as
    before, no token is handed out, and whoever was not logged in is still
    refused. *)
Theorem failed_login_opens_no_session
        (INVITE_CODES : dict setting) (token code : pystr) (sessions : dict pystr)
        (cookie : option pystr) :
  Auth.active_code INVITE_CODES code = false ->
  fst (Auth.authenticate_with_code INVITE_CODES token code sessions) = sessions
  /\ (forall t, snd (Auth.authenticate_with_code INVITE_CODES token code sessions)
                <> Returns (Some t))
  /\ Auth.require_auth INVITE_CODES
       (fst (Auth.authenticate_with_code INVITE_CODES token code sessions)) cookie
     = Auth.require_auth INVITE_CODES sessions cookie.
Proof.
  intros Hinactive.
  destruct (authenticate_inactive INVITE_CODES token code sessions Hinactive) as [Hsame Hnone].
  rewrite Hsame. repeat split. exact Hnone.
Qed.

Lemma failed_login_opens_no_session_witness :
  fst (Auth.authenticate_with_code acme_codes (py "tok-2") (py "OLD-CODE") []) = [].
Proof.
  apply (@failed_login_opens_no_session acme_codes (py "tok-2") (py "OLD-CODE") [] None).
  vm_compute. reflexivity.
Defined.

(** X20. [logout_user] ends the session of its token and no other: it
    answers [True] exactly when the token had a session, afterwards the
    token has none and a second logout answers [False], and the session of
    every other token is what it was. *)
Theorem logout_ends_that_session_only
        (session_token other : pystr) (sessions : dict pystr) :
  let after := fst (Auth.logout_user session_token sessions) in
  (snd (Auth.logout_user session_token sessions) = true
   <-> exists code, get session_token sessions = Some code)
  /\ get session_token after = None
  /\ snd (Auth.logout_user session_token after) = false
  /\ (other <> session_token -> get other after = get other sessions).
Proof.
  intros after. subst after. unfold Auth.logout_user.
  destruct (get session_token sessions) as [code|] eqn:Esession; cbn [fst snd].
  - rewrite get_del_same. cbn [snd]. repeat split; eauto.
    intros Hother. apply get_del_other, Hother.
  - rewrite Esession. cbn [snd]. repeat split; try discriminate; auto.
    intros [code [=]].
Qed.

(** X21. Whatever logins and logouts are made, in whatever order, starting
    from the empty session table, every session in it belongs to an invite
    code that is configured and whose [active] entry holds: an unknown or
    inactive code never owns a session. *)
Theorem every_session_belongs_to_an_active_code
        (INVITE_CODES : dict setting) (calls : list Auth.action) (token code : pystr) :
  get token (Auth.perform_all INVITE_CODES calls []) = Some code ->
  Auth.active_code INVITE_CODES code = true.
Proof.
  assert (Hall : forall calls sessions,
             (forall token code, get token sessions = Some code ->
                                 Auth.active_code INVITE_CODES code = true) ->
             forall token code,
               get token (Auth.perform_all INVITE_CODES calls sessions) = Some code ->
               Auth.active_code INVITE_CODES code = true).
  { clear. intros calls. induction calls as [|c calls IH]; intros sessions Hsessions.
    - exact Hsessions.
    - cbn [Auth.perform_all fold_left]. apply IH.
      apply perform_keeps_active, Hsessions. }
  apply (Hall calls []). intros t c. discriminate.
Qed.

Lemma every_session_belongs_to_an_active_code_witness :
  Auth.active_code acme_codes (py "DEMO-ACME-1234") = true.
Proof.
  apply (@every_session_belongs_to_an_active_code
           acme_codes
           [Auth.login (py "tok-1") (py "DEMO-ACME-1234");
            Auth.login (py "tok-2") (py "OLD-CODE");
            Auth.login (py "tok-3") (py "DEMO-ACME-1234");
            Auth.logout (py "tok-1")]
           (py "tok-3") (py "DEMO-ACME-1234")).
  vm_compute. reflexivity.
Defined.

(** ** The merge of two configurations *)

Section MergeFacts.





End MergeFacts.



(** ** Programs that ask no chain *)

Section QuietFacts.

Lemma quiet_still {A} (m : M A) : (forall p, trace (fst (m p)) = trace p) -> quiet m.
Proof. intros H p. exists []. rewrite app_nil_r. split; [apply H|reflexivity]. Qed.

Lemma quiet_ret {A} (a : A) : quiet (ret a).
Proof. apply quiet_still. reflexivity. Qed.

Lemma quiet_raise {A} (e : exn) : quiet (@raise A e).
Proof. apply quiet_still. reflexivity. Qed.

Lemma quiet_ask {A} (f : list event -> A) : quiet (ask f).
Proof. apply quiet_still. reflexivity. Qed.

Lemma quiet_validate {A} (w : World) (f : Env -> outcome A) : quiet (validate w f).
Proof. apply quiet_still. reflexivity. Qed.

Lemma quiet_get_process : quiet get_process.
Proof. apply quiet_still. reflexivity. Qed.

Lemma quiet_call {A} (ev : event) (f : list event -> outcome A) :
  is_invoke ev = false -> quiet (call ev f).
Proof.
  intros Hev p. exists [ev]. unfold call. cbn [fst trace with_trace existsb].
  rewrite Hev. split; reflexivity.
Qed.

Lemma quiet_bind {A B} (m : M A) (k : A -> M B) :
  quiet m -> (forall a, quiet (k a)) -> quiet (mbind m k).
Proof.
  intros Hm Hk p. unfold mbind. destruct (Hm p) as (calls & Htrace & Hcalls).
  destruct (m p) as [p1 [a|e]]; cbn [fst] in *; [|exists calls; split; assumption].
  destruct (Hk a p1) as (calls' & Htrace' & Hcalls').
  exists (calls ++ calls'). rewrite Htrace', Htrace, app_assoc. split; [reflexivity|].
  rewrite existsb_app, Hcalls, Hcalls'. reflexivity.
Qed.

Lemma quiet_try {A} (m : M A) (h : exn -> M A) :
  quiet m -> (forall e, quiet (h e)) -> quiet (try_ m h).
Proof.
  intros Hm Hh p. unfold try_. destruct (Hm p) as (calls & Htrace & Hcalls).
  destruct (m p) as [p1 [a|e]]; cbn [fst] in *; [exists calls; split; assumption|].
  destruct (Hh e p1) as (calls' & Htrace' & Hcalls').
  exists (calls ++ calls'). rewrite Htrace', Htrace, app_assoc. split; [reflexivity|].
  rewrite existsb_app, Hcalls, Hcalls'. reflexivity.
Qed.

End QuietFacts.

Ltac quiet_tac :=
  cbv zeta;
  repeat first
    [ apply quiet_ret | apply quiet_raise | apply quiet_ask | apply quiet_validate
    | apply quiet_get_process
    | (apply quiet_call; reflexivity)
    | (apply quiet_still; intros ?; reflexivity)
    | apply quiet_bind; [|intros]
    | apply quiet_try; [|intros]
    | match goal with
      | |- quiet (if ?b then _ else _) => destruct b
      | |- quiet (match ?x with _ => _ end) => destruct x
      end ].

Section QuietPrograms.

Variable w : World.
Variable config : AppConfig.

Lemma quiet_get_vectorstore : quiet (get_vectorstore w config).
Proof.
  unfold get_vectorstore, _is_vectorstore_populated, population_probe, setup_vectorstore,
    load_cv, load_about_me.
  quiet_tac.
Qed.

Lemma quiet_initialize_matching_chain : quiet (_initialize_matching_chain w).
Proof. unfold _initialize_matching_chain. quiet_tac. Qed.

End QuietPrograms.

(** ** A job text close to the maximum length *)

Section HeadingFacts.

Local Open Scope Z_scope.

Variable w : World.
Variable config : AppConfig.

Lemma no_keyword_in_the_empty_text (env : Env) : has_keywords env [] = false.
Proof. reflexivity. Qed.

(** What [process_text] has checked of a text it accepts. *)
Lemma accepted_text_facts (text : pystr) (p p' : Process) (doc : Document) :
  process_text w config text p = (p', Returns doc) ->
  doc = {| page_content := sub_spaces false (strip text);
           metadata := [(py "source", py "text_input");
                        (py "type", py "job_description")] |}
  /\ min_job_text_length (security config) <= len (strip text)
  /\ len (strip text) <= max_job_text_length (security config)
  /\ strip text <> [].
Proof.
  unfold process_text. destruct text as [|c s]; [discriminate|].
  cbn [pystr_eqb orb]. unfold validate_job_text.
  destruct (len (strip (c :: s)) <? min_job_text_length (security config)) eqn:Emin;
    [discriminate|].
  unfold mbind, validate, ret.
  destruct (len (strip (c :: s)) >? max_job_text_length (security config)) eqn:Emax;
    [discriminate|].
  destruct (has_keywords _ (strip (c :: s))) eqn:Ekeys; cbn [negb]; [|discriminate].
  destruct (has_dangerous_tag _ (strip (c :: s))); [discriminate|].
  destruct (has_dangerous_event _ (strip (c :: s))); [discriminate|].
  intros [= _ <-]. split; [reflexivity|].
  apply Z.ltb_ge in Emin. rewrite Z.gtb_ltb in Emax. apply Z.ltb_ge in Emax.
  repeat split; try assumption.
  intros Hempty. rewrite Hempty in Ekeys. discriminate Ekeys.
Qed.

Lemma cleaned_text_ends_in_a_character (text : pystr) :
  strip text <> [] ->
  exists u d, sub_spaces false (strip text) = u ++ [d] /\ isspace d = false.
Proof.
  intros Hnonempty.
  destruct (strip_shape text) as [Hempty|(c & t & Hshape & Hc & Ht)]; [contradiction|].
  rewrite Hshape. cbn [sub_spaces]. rewrite Hc.
  destruct Ht as [->|(t' & d & -> & Hd)].
  - exists [], c. split; [reflexivity|exact Hc].
  - exists (c :: sub_spaces false t'), d. split; [|exact Hd].
    rewrite sub_spaces_snoc by exact Hd. reflexivity.
Qed.

(** Under its heading a text is 17 characters longer, and is measured
    again. *)
Lemma headed_text_is_too_long (env : Env) (u : pystr) (d : codepoint) :
  isspace d = false ->
  min_job_text_length (security config) <= 17 + len (u ++ [d]) ->
  max_job_text_length (security config) < 17 + len (u ++ [d]) ->
  validate_job_text env config (PyStr (py "JOB DESCRIPTION:" ++ [10%N] ++ (u ++ [d])))
  = Raises (ValueError (job_too_long_message (max_job_text_length (security config)))).
Proof.
  intros Hd Hmin Hmax.
  assert (Hstrip : strip (py "JOB DESCRIPTION:" ++ [10%N] ++ (u ++ [d]))
                   = py "JOB DESCRIPTION:" ++ [10%N] ++ (u ++ [d])).
  { rewrite strip_headed. f_equal.
    change ([10%N] ++ u ++ [d]) with ((10%N :: u) ++ [d]).
    apply rstrip_fixed, Hd. }
  assert (Hlen : len (py "JOB DESCRIPTION:" ++ [10%N] ++ (u ++ [d])) = 17 + len (u ++ [d])).
  { unfold len. rewrite !length_app. cbn [List.length of_string].
    change (List.length (py "JOB DESCRIPTION:")) with 16%nat. lia. }
  unfold validate_job_text.
  change (py "JOB DESCRIPTION:" ++ [10%N] ++ (u ++ [d]))
    with (74%N :: (py "OB DESCRIPTION:" ++ [10%N] ++ (u ++ [d]))) at 1.
  cbv iota.
  change (74%N :: (py "OB DESCRIPTION:" ++ [10%N] ++ (u ++ [d])))
    with (py "JOB DESCRIPTION:" ++ [10%N] ++ (u ++ [d])).
  rewrite Hstrip, Hlen.
  destruct (17 + len (u ++ [d]) <? min_job_text_length (security config)) eqn:E1;
    [apply Z.ltb_lt in E1; lia|].
  destruct (17 + len (u ++ [d]) >? max_job_text_length (security config)) eqn:E2;
    [reflexivity|].
  rewrite Z.gtb_ltb in E2. apply Z.ltb_ge in E2. lia.
Qed.

End HeadingFacts.

Section LongJobTextFacts.

Local Open Scope Z_scope.

Variable w : World.
Variable config : AppConfig.

Lemma matching_body_of_long_text (text : pystr) (run : option RunTree)
      (p p' : Process) (o : outcome (dict value)) :
  strip text <> [] ->
  min_job_text_length (security config) <= len (strip text) ->
  len (strip text) <= max_job_text_length (security config) ->
  max_job_text_length (security config) < 17 + len (sub_spaces false (strip text)) ->
  let doc := {| page_content := sub_spaces false (strip text);
                metadata := [(py "source", py "text_input");
                             (py "type", py "job_description")] |} in
  matching_body w config doc run p = (p', o) ->
  exists e calls,
    o = Raises e
    /\ trace p' = trace p ++ calls
    /\ existsb is_invoke calls = false
    /\ forall p1 db sections,
         get_vectorstore w config p = (p1, Returns db) ->
         retriever_invoke w (trace p1) db (retrieval_k (Config.vectorstore config))
                          (sub_spaces false (strip text)) = Returns sections ->
         e = ValueError (job_too_long_message (max_job_text_length (security config))).
Proof.
  intros Hnonempty Hmin Hmax Hlong doc. subst doc.
  destruct (@cleaned_text_ends_in_a_character text Hnonempty) as (u & d & Hshape & Hd).
  rewrite Hshape in *.
  unfold matching_body. cbn [page_content]. unfold mbind at 1.
  destruct (quiet_get_vectorstore w config p) as (calls & Htrace & Hcalls).
  destruct (get_vectorstore w config p) as [p1 [db|e1]]; cbn [fst] in *.
  2: { intros [= <- <-]. exists e1, calls. repeat split; try assumption.
       intros p2 db sections [=]. }
  unfold mbind at 1. unfold call at 1.
  destruct (retriever_invoke w (trace p1) db _ (u ++ [d])) as [sections|e2] eqn:Eretrieved.
  2: { intros [= <- <-]. eexists e2, (calls ++ [_]). cbn [trace with_trace].
       rewrite Htrace, <- app_assoc. split; [reflexivity|]. split; [reflexivity|].
       split; [rewrite existsb_app, Hcalls; reflexivity|].
       intros p2 db2 sections [= <- <-] Hretrieved.
       rewrite Hretrieved in Eretrieved. discriminate. }
  unfold mbind at 1. unfold validate at 1.
  rewrite headed_text_is_too_long; [|exact Hd|lia|exact Hlong].
  intros [= <- <-]. eexists _, (calls ++ [_]). cbn [trace with_trace].
  rewrite Htrace, <- app_assoc. split; [reflexivity|]. split; [reflexivity|].
  split; [rewrite existsb_app, Hcalls; reflexivity|].
  intros; reflexivity.
Qed.

End LongJobTextFacts.

(** X23. A job text that ingestion accepts and whose cleaned form has more
    than the maximum less 17 characters is never analysed: under the
    heading that [analyze_job_match] puts before it the text is measured
    again and is then too long. With the matching chain initialised the
    analyzer asks no chain, and returns the fallback record, with the
    failure under [error] and "text_input" as source; the failure is the
    too-long error whenever the index and the retrieval worked. *)
Theorem job_text_near_the_maximum_is_never_analysed
        (w : World) (config : AppConfig) (text : pystr) (p0 p0' : Process) (doc : Document)
        (md : option (dict pystr)) (p p' : Process) (o : outcome (dict value)) :
  process_text w config text p0 = (p0', Returns doc) ->
  (max_job_text_length (security config) < 17 + len (page_content doc))%Z ->
  snd (_initialize_matching_chain w p) = Returns tt ->
  analyze_job_match_ w config doc md p = (p', o) ->
  exists e calls,
    o = Returns [(py "analysis", VStr matching_fallback);
                 (py "error", VStr (str_of_exn e));
                 (py "job_source", VStr (py "text_input"))]
    /\ trace p' = trace p ++ calls
    /\ existsb is_invoke calls = false
    /\ forall p1 db sections,
         get_vectorstore w config (fst (_initialize_matching_chain w p)) = (p1, Returns db) ->
         retriever_invoke w (trace p1) db (retrieval_k (Config.vectorstore config))
                          (page_content doc) = Returns sections ->
         e = ValueError (job_too_long_message (max_job_text_length (security config))).
Proof.
  intros Haccepted Hlong Hinit.
  apply accepted_text_facts in Haccepted. destruct Haccepted as (-> & Hmin & Hmax & Hnonempty).
  cbn [page_content] in *.
  unfold analyze_job_match_. unfold mbind at 1.
  destruct (quiet_initialize_matching_chain w p) as (calls0 & Htrace0 & Hcalls0).
  destruct (_initialize_matching_chain w p) as [p1 [[]|e0]]; cbn [fst snd] in *;
    [|discriminate].
  unfold mbind at 1. unfold ask. unfold try_.
  destruct (matching_body w config _ (get_current_run_tree w (trace p1)) p1)
    as [p2 o2] eqn:Ebody.
  apply matching_body_of_long_text in Ebody; try assumption.
  destruct Ebody as (e & calls & -> & Htrace & Hcalls & Hwhy).
  intros [= <- <-]. exists e, (calls0 ++ calls).
  split; [reflexivity|].
  split; [rewrite Htrace, Htrace0, app_assoc; reflexivity|].
  split; [rewrite existsb_app, Hcalls0, Hcalls; reflexivity|].
  exact Hwhy.
Qed.

Lemma job_text_near_the_maximum_is_never_analysed_witness :
  exists e calls,
    snd (analyze_job_match_ working small_limits
           {| page_content := short_posting;
              metadata := [(py "source", py "text_input");
                           (py "type", py "job_description")] |}
           None analyzer_started)
    = Returns [(py "analysis", VStr matching_fallback);
               (py "error", VStr (str_of_exn e));
               (py "job_source", VStr (py "text_input"))]
    /\ trace (fst (analyze_job_match_ working small_limits
                     {| page_content := short_posting;
                        metadata := [(py "source", py "text_input");
                                     (py "type", py "job_description")] |}
                     None analyzer_started))
       = trace analyzer_started ++ calls
    /\ existsb is_invoke calls = false.
Proof.
  destruct (@job_text_near_the_maximum_is_never_analysed
              working small_limits short_posting fresh fresh
              {| page_content := short_posting;
                 metadata := [(py "source", py "text_input");
                              (py "type", py "job_description")] |}
              None analyzer_started
              (fst (analyze_job_match_ working small_limits
                      {| page_content := short_posting;
                         metadata := [(py "source", py "text_input");
                                      (py "type", py "job_description")] |}
                      None analyzer_started))
              (snd (analyze_job_match_ working small_limits
                      {| page_content := short_posting;
                         metadata := [(py "source", py "text_input");
                                      (py "type", py "job_description")] |}
                      None analyzer_started)))
    as (e & calls & Hreply & Htrace & Hcalls & _).
  - vm_compute. reflexivity.
  - vm_compute. reflexivity.
  - vm_compute. reflexivity.
  - vm_compute. reflexivity.
  - exists e, calls. split; [exact Hreply|]. split; [exact Htrace|exact Hcalls].
Defined.

(** ** What the job-match route answers *)

Section RouteFacts.

Variable w : World.
Variable config : AppConfig.

(** Whatever the analyzer returns holds an analysis text, and names the
    source of the document it was given. *)
Lemma analyze_job_match_record (doc : Document) (md : option (dict pystr))
      (p p' : Process) (result : dict value) :
  analyze_job_match w config doc md p = (p', Returns result) ->
  (exists analysis, get (py "analysis") result = Some (VStr analysis))
  /\ get (py "job_source") result = Some (VStr (source_of doc)).
Proof.
  unfold analyze_job_match, analyze_job_match_. intros Hrun.
  apply mbind_returns in Hrun. destruct Hrun as (p1 & [] & _ & Hrun).
  apply mbind_returns in Hrun. destruct Hrun as (p2 & [] & _ & Hrun).
  apply mbind_returns in Hrun. destruct Hrun as (p3 & run & _ & Hrun).
  unfold try_ in Hrun.
  destruct (matching_body w config doc run p3) as [p4 [d|e]] eqn:Ebody.
  - injection Hrun as _ <-.
    apply matching_body_reply in Ebody. destruct Ebody as (analysis & sections & ->).
    split; [exists analysis|]; reflexivity.
  - injection Hrun as _ <-. split; [eexists|]; reflexivity.
Qed.

End RouteFacts.

(** X24. Whenever the job-match route answers with a result, the result
    holds an analysis text and names "text_input" as its source, whether
    the analysis was generated or is the fallback message of a failed
    analysis: a failure inside the analyzer is answered like a success and
    its [error] entry is not passed on. *)
Theorem job_match_answer_names_the_text_input
        (w : World) (config : AppConfig) (text_input : option pystr)
        (user_code company : pystr) (p p' : Process) (body : dict value) :
  job_match_endpoint w config text_input user_code company p = (p', OK body) ->
  get (py "source") body = Some (VStr (py "text_input"))
  /\ (exists analysis, get (py "analysis") body = Some (VStr analysis))
  /\ get (py "error") body = None.
Proof.
  unfold job_match_endpoint.
  destruct (job_match_body w config text_input user_code company p)
    as [p1 [b|[m|m]]] eqn:Ebody; try discriminate.
  intros [= _ <-]. unfold job_match_body in Ebody.
  apply mbind_returns in Ebody. destruct Ebody as (p2 & doc & Hdoc & Ebody).
  apply mbind_returns in Ebody. destruct Ebody as (p3 & result & Hresult & Ebody).
  apply mbind_returns in Ebody. destruct Ebody as (p4 & analysis & Hanalysis & Ebody).
  apply mbind_returns in Ebody. destruct Ebody as (p5 & [] & _ & Ebody).
  injection Ebody as _ <-.
  assert (Hsource : source_of doc = py "text_input").
  { unfold process_job_description in Hdoc.
    destruct (str_of_text_input text_input) as [|c s]; [discriminate|].
    apply accepted_text_facts in Hdoc. destruct Hdoc as (-> & _). reflexivity. }
  apply analyze_job_match_record in Hresult.
  destruct Hresult as ((a & Ha) & Hjob). rewrite Hsource in Hjob.
  rewrite Ha in Hanalysis. injection Hanalysis as _ <-.
  unfold get_default. rewrite Hjob.
  split; [reflexivity|]. split; [exists a|]; reflexivity.
Qed.

Lemma job_match_answer_names_the_text_input_witness :
  get (py "source")
      [(py "analysis", VStr (py "A strong match."));
       (py "source", VStr (py "text_input"));
       (py "timestamp", VNone);
       (py "relevant_sections", VStrs [py "data/cv.pdf"])]
  = Some (VStr (py "text_input")).
Proof.
  apply (@job_match_answer_names_the_text_input
           working defaults (Some spaced_job_text) (py "DEMO-ACME-1234") (py "Acme")
           fresh
           (fst (job_match_endpoint working defaults (Some spaced_job_text)
                                    (py "DEMO-ACME-1234") (py "Acme") fresh))
           [(py "analysis", VStr (py "A strong match."));
            (py "source", VStr (py "text_input"));
            (py "timestamp", VNone);
            (py "relevant_sections", VStrs [py "data/cv.pdf"])]).
  vm_compute. reflexivity.
Defined.

(** ** The lock of a chain initialisation *)

Module LockFacts.

Import DoubleChecked.

Local Open Scope nat_scope.



End LockFacts.




(** ** The analytics summary *)

Section TallyFacts.

Local Open Scope nat_scope.

Variable json_loads : pystr -> outcome setting.
Variable hashable_eqb : scalar -> scalar -> bool.

Lemma add_company_length (c : scalar) (cs : list scalar) :
  List.length (Analytics.add_company hashable_eqb c cs) <= S (List.length cs).
Proof.
  unfold Analytics.add_company. destruct (existsb _ cs); [lia|].
  rewrite length_app. cbn [List.length]. lia.
Qed.

(** What one line adds to the counters. *)
Lemma count_line_adds (t : Analytics.Tally) (line : pystr) :
  let t' := Analytics.count_line json_loads hashable_eqb t line in
  let n := if Analytics.parses json_loads line then 1 else 0 in
  Analytics.total_interactions t' = Analytics.total_interactions t + n
  /\ Analytics.chat_count t' + Analytics.summary_count t'
     <= Analytics.chat_count t + Analytics.summary_count t + n
  /\ List.length (Analytics.companies t') <= List.length (Analytics.companies t) + n.
Proof.
  unfold Analytics.count_line, Analytics.parses.
  destruct (Analytics.split_first 44%N line) as [[event_type log_json]|];
    [|cbn; lia].
  destruct (json_loads log_json) as [log_data|e]; cbn [returned]; [|cbn; lia].
  pose proof (fun c => add_company_length c (Analytics.companies t)) as Hadd.
  destruct log_data as [s|items|entries]; [cbn; lia|cbn; lia|].
  destruct (get_default _ _ entries) as [company|items|nested]; [|cbn; lia|cbn; lia].
  specialize (Hadd company).
  destruct (pystr_eqb event_type (py "CHAT"));
    [|destruct (pystr_eqb event_type (py "SUMMARY"))];
    cbn [Analytics.total_interactions Analytics.chat_count Analytics.summary_count
         Analytics.companies]; lia.
Qed.

Lemma fold_count_line (lines : list pystr) (t : Analytics.Tally) :
  let t' := fold_left (Analytics.count_line json_loads hashable_eqb) lines t in
  let n := List.length (filter (Analytics.parses json_loads) lines) in
  Analytics.total_interactions t' = Analytics.total_interactions t + n
  /\ Analytics.chat_count t' + Analytics.summary_count t'
     <= Analytics.chat_count t + Analytics.summary_count t + n
  /\ List.length (Analytics.companies t') <= List.length (Analytics.companies t) + n.
Proof.
  revert t. induction lines as [|line lines IH]; intros t; cbn [fold_left filter].
  - cbn. lia.
  - specialize (IH (Analytics.count_line json_loads hashable_eqb t line)).
    pose proof (count_line_adds t line) as Hline. cbv zeta in *.
    destruct (Analytics.parses json_loads line); cbn [List.length]; lia.
Qed.

End TallyFacts.

(** X27. When the analytics log exists and can be read,
    [get_analytics_summary] returns counters and no error, whatever the
    lines hold. The total counts exactly the lines that have a comma and
    whose text after the first comma parses as JSON, also those that go
    wrong after that point; the chat and summary counts together, and the
    number of companies, never exceed the total, and the total never the
    number of lines. *)
Theorem analytics_total_counts_the_lines_that_parse
        (json_loads : pystr -> outcome setting) (hashable_eqb : scalar -> scalar -> bool)
        (lines : list pystr) :
  exists t,
    Analytics.get_analytics_summary json_loads hashable_eqb true (Returns lines)
    = Analytics.summary_of t
    /\ Analytics.total_interactions t
       = List.length (filter (Analytics.parses json_loads) lines)
    /\ (Analytics.chat_count t + Analytics.summary_count t
        <= Analytics.total_interactions t)%nat
    /\ (List.length (Analytics.companies t) <= Analytics.total_interactions t)%nat
    /\ (Analytics.total_interactions t <= List.length lines)%nat.
Proof.
  eexists. split; [reflexivity|].
  pose proof (fold_count_line json_loads hashable_eqb lines Analytics.no_interactions)
    as Hfold.
  cbv zeta in Hfold.
  cbn [Analytics.no_interactions Analytics.total_interactions Analytics.chat_count
       Analytics.summary_count Analytics.companies List.length] in Hfold.
  pose proof (filter_length_le (Analytics.parses json_loads) lines) as Hle.
  repeat split; lia.
Qed.

(** ** Two first callers of the chat singleton *)

Module ConstructionFacts.

Import Construction.

Local Open Scope nat_scope.


End ConstructionFacts.


